(** * cbfilter: the template-driven API integration engine of [src/main.cpp]

    A shallow embedding of the request builder, the endpoint resolver, the
    response extractors, model picking, template resolution and the
    single-flight guard, with the properties of the specification stated
    over it. *)

From Stdlib Require Import Strings.Byte Ascii String DecimalString.
From Stdlib Require Import List NArith ZArith Bool Lia Arith.
Import ListNotations.
Local Open Scope list_scope.
Set Warnings "-register-all".

(* ================================================================== *)
(** ** Wide strings

    [std::wstring] is a sequence of 16-bit code units.  A code unit is a
    natural number; no arithmetic is done on code units in the modelled
    code, so no wrap-around is written out. *)

Definition wchar_t := N.
Definition wstring := list wchar_t.

(** [L "..."] is the wide literal [L"..."]. *)
Definition L (s : string) : wstring := map N_of_ascii (list_ascii_of_string s).

Definition DQUOTE : wchar_t := 34%N.
Definition BACKSLASH : wchar_t := 92%N.
Definition APOSTROPHE : wchar_t := 39%N.

(** [Q "..."] is a wide literal in which every apostrophe of the text
    stands for a double quote, so that JSON texts stay readable. *)
Definition Q (s : string) : wstring :=
  map (fun c => if N.eqb c APOSTROPHE then DQUOTE else c) (L s).

Definition wc (a : ascii) : wchar_t := N_of_ascii a.

Arguments L s%_string.
Arguments Q s%_string.
Arguments wc a%_char.

(** The member functions of [std::wstring] the code uses. *)
Module WString.

Definition empty (s : wstring) : bool :=
  match s with [] => true | _ :: _ => false end.

Fixpoint eqb (a b : wstring) : bool :=
  match a, b with
  | [], [] => true
  | x :: a', y :: b' => N.eqb x y && eqb a' b'
  | _, _ => false
  end.

(** [s.rfind(prefix, 0) == 0]: [s] starts with [prefix]. *)
Fixpoint starts_with (prefix s : wstring) : bool :=
  match prefix, s with
  | [], _ => true
  | _ :: _, [] => false
  | x :: p', y :: s' => N.eqb x y && starts_with p' s'
  end.

(** Search of [needle] in [rest], the suffix of the string that starts at
    index [p]. *)
Fixpoint find_at (rest needle : wstring) (p : nat) : option nat :=
  if starts_with needle rest then Some p
  else match rest with
       | [] => None
       | _ :: rest' => find_at rest' needle (S p)
       end.

(** [s.find(needle, pos)]; [None] is [npos]. *)
Definition find (s needle : wstring) (pos : nat) : option nat :=
  if pos <=? length s then find_at (skipn pos s) needle pos else None.

(** [s.substr(pos)] and [s.substr(pos, n)], for [pos <= s.size()]. *)
Definition substr_from (s : wstring) (pos : nat) : wstring := skipn pos s.
Definition substr (s : wstring) (pos n : nat) : wstring := firstn n (skipn pos s).

(** [s.replace(pos, len, to)]. *)
Definition replace (s : wstring) (pos len : nat) (to : wstring) : wstring :=
  firstn pos s ++ to ++ skipn (pos + len) s.

(** [s.front()] of a non-empty string. *)
Definition front (s : wstring) : option wchar_t := hd_error s.

End WString.

(** [towlower] in the "C" locale (the program never calls [setlocale]):
    only [A]..[Z] change. *)
Definition towlower (c : wchar_t) : wchar_t :=
  if (65 <=? c)%N && (c <=? 90)%N then (c + 32)%N else c.

(* ================================================================== *)
(** ** Placeholder substitution *)

Record ModelConfig := {
  name : wstring;
  serverUrl : wstring;
  modelName : wstring;
  apiKey : wstring;
  providerId : wstring
}.

(** The [while] loop of [ReplaceAll]; [fuel] bounds the iterations. *)
Fixpoint ReplaceAll_loop (fuel : nat) (s from to : wstring) (pos : nat) : wstring :=
  match fuel with
  | O => s
  | S fuel' =>
      match WString.find s from pos with
      | None => s
      | Some p =>
          ReplaceAll_loop fuel' (WString.replace s p (length from) to) from to
                          (p + length to)
      end
  end.

(** Every iteration consumes at least one code unit of what is left of the
    original string when [from] is not empty (lemma [ReplaceAll_loop_fuel]),
    so [S (length s)] iterations are enough. *)
Definition ReplaceAll (s from to : wstring) : wstring :=
  ReplaceAll_loop (S (length s)) s from to 0.

Definition JsonEscape_char (c : wchar_t) : wstring :=
  if N.eqb c BACKSLASH then [BACKSLASH; BACKSLASH]
  else if N.eqb c DQUOTE then [BACKSLASH; DQUOTE]
  else if N.eqb c 10 then [BACKSLASH; wc "n"]
  else if N.eqb c 13 then [BACKSLASH; wc "r"]
  else if N.eqb c 9 then [BACKSLASH; wc "t"]
  else [c].

Definition JsonEscape (s : wstring) : wstring := flat_map JsonEscape_char s.

Definition ReplacePlaceholders (src : wstring) (m : ModelConfig)
    (systemPrompt prompt imageB64 imageDataUrl : wstring) (jsonEsc : bool) : wstring :=
  let esc := fun v => if jsonEsc then JsonEscape v else v in
  let out := src in
  let out := ReplaceAll out (L "<<model>>") (esc (modelName m)) in
  let out := ReplaceAll out (L "<<system_prompt>>") (esc systemPrompt) in
  let out := ReplaceAll out (L "<<prompt>>") (esc prompt) in
  let out := ReplaceAll out (L "<<input_text>>") (esc prompt) in
  let out := ReplaceAll out (L "<<api_key>>") (esc (apiKey m)) in
  let out := ReplaceAll out (L "<<image_url>>") (esc imageDataUrl) in
  let out := ReplaceAll out (L "<<image>>") (esc imageB64) in
  out.

Definition toLow (s : wstring) : wstring := map towlower s.

Definition ContainsNoCase (hay needle : wstring) : bool :=
  match WString.find (toLow hay) (toLow needle) 0 with
  | Some _ => true
  | None => false
  end.

(** [hay.find(needle) != npos], case-sensitive. *)
Definition Contains (hay needle : wstring) : bool :=
  match WString.find hay needle 0 with
  | Some _ => true
  | None => false
  end.

(* ================================================================== *)
(** ** Endpoint resolution *)

Record Endpoint := {
  ep_valid : bool;       (* the return value *)
  ep_host : wstring;
  ep_path : wstring;
  ep_useHttps : bool
}.

Definition SLASH : wchar_t := 47%N.

(** [PrepareEndpoint]; [useHttps] is an in-out parameter, its incoming value
    is kept when no scheme is found. *)
Definition PrepareEndpoint (serverUrl tplPath : wstring) (useHttps : bool) : Endpoint :=
  let host := serverUrl in
  let path := tplPath in
  let path := if WString.empty path then L "/v1/chat/completions" else path in
  let '(host, path) :=
    if WString.starts_with (L "http://") path || WString.starts_with (L "https://") path
    then (path, []) else (host, path) in
  let '(host, useHttps) :=
    if WString.starts_with (L "https://") host then (WString.substr_from host 8, true)
    else if WString.starts_with (L "http://") host then (WString.substr_from host 7, false)
    else (host, useHttps) in
  let '(host, path) :=
    match WString.find host [SLASH] 0 with
    | Some slash =>
        (WString.substr host 0 slash,
         WString.substr_from host slash ++ (if WString.empty path then [] else path))
    | None => (host, path)
    end in
  let path :=
    if negb (WString.empty path) && negb (match WString.front path with
                                          | Some c => N.eqb c SLASH
                                          | None => false
                                          end)
    then L "/" ++ path else path in
  {| ep_valid := negb (WString.empty host);
     ep_host := host; ep_path := path; ep_useHttps := useHttps |}.

(* ================================================================== *)
(** ** Heuristic extraction of a [content] field *)

(** The [while] loop of [ExtractContent], on the text from index [p] on. *)
Fixpoint ExtractContent_scan (rest : wstring) : wstring :=
  match rest with
  | [] => []
  | c :: r =>
      if N.eqb c DQUOTE then []
      else if N.eqb c BACKSLASH then
        match r with
        | d :: r' =>
            if N.eqb d (wc "n") then 10%N :: ExtractContent_scan r'
            else if N.eqb d DQUOTE then DQUOTE :: ExtractContent_scan r'
            else c :: ExtractContent_scan r
        | [] => c :: ExtractContent_scan r
        end
      else c :: ExtractContent_scan r
  end.

Definition ExtractContent (json : wstring) : wstring :=
  match WString.find json (Q "'content'") 0 with
  | None => []
  | Some p =>
      match WString.find json [DQUOTE] (p + 9) with
      | None => []
      | Some p => ExtractContent_scan (skipn (S p) json)
      end
  end.

(** The loop of [ExtractB64Image]. *)
Fixpoint ExtractB64Image_scan (rest : wstring) : wstring :=
  match rest with
  | [] => []
  | c :: r =>
      if N.eqb c DQUOTE then []
      else if N.eqb c BACKSLASH then
        match r with
        | d :: r' =>
            if N.eqb d DQUOTE then DQUOTE :: ExtractB64Image_scan r'
            else if N.eqb d BACKSLASH then BACKSLASH :: ExtractB64Image_scan r'
            else if N.eqb d SLASH then SLASH :: ExtractB64Image_scan r'
            else c :: ExtractB64Image_scan r
        | [] => c :: ExtractB64Image_scan r
        end
      else c :: ExtractB64Image_scan r
  end.

Definition ExtractB64Image (json : wstring) : wstring :=
  match WString.find json (Q "'b64_json'") 0 with
  | None => []
  | Some p =>
      match WString.find json [DQUOTE] (p + 10) with
      | None => []
      | Some p => ExtractB64Image_scan (skipn (S p) json)
      end
  end.

(* ================================================================== *)
(** ** JSON values

    [Windows.Data.Json] is a platform library.  Its values are modelled as a
    tree, [JsonValue::Parse] as a recursive-descent parser of RFC 8259
    texts and [Stringify] as the compact serializer.  A number keeps its
    literal text (the platform holds a double).  An object keeps its members
    in document order; a name is looked up from the left. *)

Inductive JsonValue :=
| JNull
| JBoolean (b : bool)
| JNumber (literal : wstring)
| JString (s : wstring)
| JArray (items : list JsonValue)
| JObject (members : list (wstring * JsonValue)).

Module Json.

Definition is_ws (c : wchar_t) : bool :=
  N.eqb c 32 || N.eqb c 9 || N.eqb c 10 || N.eqb c 13.

Fixpoint skip_ws (s : wstring) : wstring :=
  match s with
  | c :: r => if is_ws c then skip_ws r else s
  | [] => []
  end.

Definition hex_digit (c : wchar_t) : option N :=
  if (48 <=? c)%N && (c <=? 57)%N then Some (c - 48)%N
  else if (65 <=? c)%N && (c <=? 70)%N then Some (c - 55)%N
  else if (97 <=? c)%N && (c <=? 102)%N then Some (c - 87)%N
  else None.

Definition hex4 (a b c d : wchar_t) : option wchar_t :=
  match hex_digit a, hex_digit b, hex_digit c, hex_digit d with
  | Some x, Some y, Some z, Some w => Some (((x * 16 + y) * 16 + z) * 16 + w)%N
  | _, _, _, _ => None
  end.

Definition simple_escape (e : wchar_t) : option wchar_t :=
  if N.eqb e DQUOTE then Some DQUOTE
  else if N.eqb e BACKSLASH then Some BACKSLASH
  else if N.eqb e SLASH then Some SLASH
  else if N.eqb e (wc "b") then Some 8%N
  else if N.eqb e (wc "f") then Some 12%N
  else if N.eqb e (wc "n") then Some 10%N
  else if N.eqb e (wc "r") then Some 13%N
  else if N.eqb e (wc "t") then Some 9%N
  else None.

(** The characters of a string after its opening quote: the value and the
    text after the closing quote. *)
Fixpoint parse_string (s : wstring) : option (wstring * wstring) :=
  match s with
  | [] => None
  | c :: r =>
      if N.eqb c DQUOTE then Some ([], r)
      else if N.eqb c BACKSLASH then
        match r with
        | e :: r1 =>
            if N.eqb e (wc "u") then
              match r1 with
              | h1 :: h2 :: h3 :: h4 :: r2 =>
                  match hex4 h1 h2 h3 h4, parse_string r2 with
                  | Some u, Some (v, rest) => Some (u :: v, rest)
                  | _, _ => None
                  end
              | _ => None
              end
            else
              match simple_escape e, parse_string r1 with
              | Some u, Some (v, rest) => Some (u :: v, rest)
              | _, _ => None
              end
        | [] => None
        end
      else if (c <? 32)%N then None
      else match parse_string r with
           | Some (v, rest) => Some (c :: v, rest)
           | None => None
           end
  end.

Definition is_json_digit (c : wchar_t) : bool := (48 <=? c)%N && (c <=? 57)%N.

Fixpoint span_digits (s : wstring) : wstring * wstring :=
  match s with
  | c :: r => if is_json_digit c
              then let '(d, rest) := span_digits r in (c :: d, rest)
              else ([], s)
  | [] => ([], [])
  end.

(** A number of RFC 8259: an optional minus, an integer part without a
    leading zero, an optional fraction, an optional exponent.  The literal
    and the text behind it. *)
Definition parse_number (s : wstring) : option (wstring * wstring) :=
  let '(sign, s1) :=
    match s with
    | c :: r => if N.eqb c (wc "-") then ([c], r) else ([], s)
    | [] => ([], s)
    end in
  match span_digits s1 with
  | ([], _) => None
  | (d :: ds, s2) =>
      if N.eqb d (wc "0") && negb (WString.empty ds) then None
      else
        let frac :=
          match s2 with
          | c :: r =>
              if N.eqb c (wc ".") then
                match span_digits r with
                | ([], _) => None
                | (f, s3) => Some (c :: f, s3)
                end
              else Some ([], s2)
          | [] => Some ([], s2)
          end in
        match frac with
        | None => None
        | Some (f, s3) =>
            let exp :=
              match s3 with
              | c :: r =>
                  if N.eqb c (wc "e") || N.eqb c (wc "E") then
                    let '(esign, r1) :=
                      match r with
                      | g :: r' => if N.eqb g (wc "+") || N.eqb g (wc "-")
                                   then ([g], r') else ([], r)
                      | [] => ([], r)
                      end in
                    match span_digits r1 with
                    | ([], _) => None
                    | (e, s4) => Some (c :: esign ++ e, s4)
                    end
                  else Some ([], s3)
              | [] => Some ([], s3)
              end in
            match exp with
            | None => None
            | Some (e, s4) => Some (sign ++ (d :: ds) ++ f ++ e, s4)
            end
        end
  end.

Fixpoint parse_value (fuel : nat) (s : wstring) : option (JsonValue * wstring) :=
  match fuel with
  | O => None
  | S fuel' =>
      match skip_ws s with
      | [] => None
      | c :: r =>
          if N.eqb c DQUOTE then
            match parse_string r with
            | Some (v, rest) => Some (JString v, rest)
            | None => None
            end
          else if N.eqb c (wc "[") then
            match skip_ws r with
            | d :: r' =>
                if N.eqb d (wc "]") then Some (JArray [], r')
                else match parse_items fuel' r with
                     | Some (items, rest) => Some (JArray items, rest)
                     | None => None
                     end
            | [] => None
            end
          else if N.eqb c (wc "{") then
            match skip_ws r with
            | d :: r' =>
                if N.eqb d (wc "}") then Some (JObject [], r')
                else match parse_members fuel' r with
                     | Some (members, rest) => Some (JObject members, rest)
                     | None => None
                     end
            | [] => None
            end
          else if WString.starts_with (L "null") (c :: r) then Some (JNull, skipn 4 (c :: r))
          else if WString.starts_with (L "true") (c :: r)
               then Some (JBoolean true, skipn 4 (c :: r))
          else if WString.starts_with (L "false") (c :: r)
               then Some (JBoolean false, skipn 5 (c :: r))
          else match parse_number (c :: r) with
               | Some (n, rest) => Some (JNumber n, rest)
               | None => None
               end
      end
  end

with parse_items (fuel : nat) (s : wstring) : option (list JsonValue * wstring) :=
  match fuel with
  | O => None
  | S fuel' =>
      match parse_value fuel' s with
      | Some (v, rest) =>
          match skip_ws rest with
          | d :: r' =>
              if N.eqb d (wc "]") then Some ([v], r')
              else if N.eqb d (wc ",") then
                match parse_items fuel' r' with
                | Some (vs, rest') => Some (v :: vs, rest')
                | None => None
                end
              else None
          | [] => None
          end
      | None => None
      end
  end

with parse_members (fuel : nat) (s : wstring)
    : option (list (wstring * JsonValue) * wstring) :=
  match fuel with
  | O => None
  | S fuel' =>
      match skip_ws s with
      | q :: r =>
          if N.eqb q DQUOTE then
            match parse_string r with
            | Some (key, rest) =>
                match skip_ws rest with
                | colon :: r1 =>
                    if N.eqb colon (wc ":") then
                      match parse_value fuel' r1 with
                      | Some (v, rest1) =>
                          match skip_ws rest1 with
                          | d :: r2 =>
                              if N.eqb d (wc "}") then Some ([(key, v)], r2)
                              else if N.eqb d (wc ",") then
                                match parse_members fuel' r2 with
                                | Some (ms, rest2) => Some ((key, v) :: ms, rest2)
                                | None => None
                                end
                              else None
                          | [] => None
                          end
                      | None => None
                      end
                    else None
                | [] => None
                end
            | None => None
            end
          else None
      | [] => None
      end
  end.

(** [JsonValue::Parse]; [None] stands for the exception it throws on a
    text that is not JSON. *)
Definition Parse (s : wstring) : option JsonValue :=
  match parse_value (2 * S (length s)) s with
  | Some (v, rest) => if WString.empty (skip_ws rest) then Some v else None
  | None => None
  end.

Definition escape_char (c : wchar_t) : wstring :=
  if N.eqb c DQUOTE then [BACKSLASH; DQUOTE]
  else if N.eqb c BACKSLASH then [BACKSLASH; BACKSLASH]
  else if N.eqb c 8 then [BACKSLASH; wc "b"]
  else if N.eqb c 12 then [BACKSLASH; wc "f"]
  else if N.eqb c 10 then [BACKSLASH; wc "n"]
  else if N.eqb c 13 then [BACKSLASH; wc "r"]
  else if N.eqb c 9 then [BACKSLASH; wc "t"]
  else [c].

Definition quote (s : wstring) : wstring :=
  [DQUOTE] ++ flat_map escape_char s ++ [DQUOTE].

Fixpoint join (sep : wstring) (l : list wstring) : wstring :=
  match l with
  | [] => []
  | [x] => x
  | x :: l' => x ++ sep ++ join sep l'
  end.

Fixpoint Stringify (v : JsonValue) : wstring :=
  match v with
  | JNull => L "null"
  | JBoolean true => L "true"
  | JBoolean false => L "false"
  | JNumber n => n
  | JString s => quote s
  | JArray items => L "[" ++ join (L ",") (map Stringify items) ++ L "]"
  | JObject members =>
      L "{" ++ join (L ",")
                 (map (fun kv => quote (fst kv) ++ L ":" ++ Stringify (snd kv)) members)
        ++ L "}"
  end.

(** [JsonObject::GetNamedValue]; [None] stands for the exception thrown
    for a name the object does not have. *)
Fixpoint GetNamedValue (members : list (wstring * JsonValue)) (key : wstring)
    : option JsonValue :=
  match members with
  | [] => None
  | (k, v) :: rest => if WString.eqb k key then Some v else GetNamedValue rest key
  end.

End Json.

(* ================================================================== *)
(** ** Structured path extraction *)

Definition INT_MAX : Z := 2147483647.
Definition INT_MIN : Z := -2147483648.

Definition iswspace (c : wchar_t) : bool :=
  N.eqb c 32 || ((9 <=? c)%N && (c <=? 13)%N).

Definition is_digit (c : wchar_t) : bool := (48 <=? c)%N && (c <=? 57)%N.

Fixpoint wtoi_digits (s : wstring) (acc : Z) : Z :=
  match s with
  | c :: r => if is_digit c then wtoi_digits r (acc * 10 + Z.of_N (c - 48)) else acc
  | [] => acc
  end.

Fixpoint wtoi_skip (s : wstring) : wstring :=
  match s with
  | c :: r => if iswspace c then wtoi_skip r else s
  | [] => []
  end.

(** [_wtoi]: leading white space, an optional sign, decimal digits; 0 when
    there is no digit; the result saturates at the bounds of [int]. *)
Definition _wtoi (s : wstring) : Z :=
  let s := wtoi_skip s in
  let '(neg, s) :=
    match s with
    | c :: r => if N.eqb c (wc "-") then (true, r)
                else if N.eqb c (wc "+") then (false, r) else (false, s)
    | [] => (false, s)
    end in
  let v := wtoi_digits s 0 in
  let v := if neg then (- v)%Z else v in
  Z.max INT_MIN (Z.min INT_MAX v).

(** The first loop of [ExtractByPath]: the parts of [path] between dots. *)
Fixpoint split_path (path : wstring) : list wstring :=
  match path with
  | [] => [[]]
  | c :: r =>
      if N.eqb c (wc ".") then [] :: split_path r
      else match split_path r with
           | p :: ps => (c :: p) :: ps
           | [] => [[c]]
           end
  end.

(** The key and the index of one segment; the index is -1 when the segment
    has no bracket pair. *)
Definition parse_segment (p : wstring) : wstring * Z :=
  match WString.find p [wc "["] 0 with
  | Some lb =>
      if N.eqb (last p 0%N) (wc "]")
      then (WString.substr p 0 lb,
            _wtoi (WString.substr p (lb + 1) (length p - lb - 2)))
      else (p, (-1)%Z)
  | None => (p, (-1)%Z)
  end.

Definition GetAt (items : list JsonValue) (idx : Z) : option JsonValue :=
  if (0 <=? idx)%Z && (idx <? Z.of_nat (length items))%Z
  then nth_error items (Z.to_nat idx) else None.

(** The second loop of [ExtractByPath].  [None] is the empty result, either
    returned ([return L""]) or through the [catch (...)]. *)
Fixpoint walk_path (parts : list wstring) (cur : JsonValue) : option JsonValue :=
  match parts with
  | [] => Some cur
  | p :: parts' =>
      let '(key, idx) := parse_segment p in
      let first :=
        match cur with
        | JObject members =>
            if negb (WString.empty key)
            then match Json.GetNamedValue members key with
                 | Some v => Some (v, idx)
                 | None => None               (* GetNamedValue throws *)
                 end
            else None                         (* return L"" *)
        | JArray items =>
            match GetAt items idx with
            | Some v => Some (v, (-1)%Z)
            | None => None                    (* return L"" *)
            end
        | _ => Some (cur, idx)
        end in
      match first with
      | None => None
      | Some (cur, idx) =>
          if (0 <=? idx)%Z then
            match cur with
            | JArray items =>
                match GetAt items idx with
                | Some v => walk_path parts' v
                | None => walk_path parts' cur  (* index out of range: [cur] is kept *)
                end
            | _ => None                       (* GetArray throws *)
            end
          else walk_path parts' cur
      end
  end.

(** [w.c_str()] read as a null-terminated string: the code units before the
    first zero. *)
Fixpoint c_str (w : wstring) : wstring :=
  match w with
  | [] => []
  | c :: r => if N.eqb c 0 then [] else c :: c_str r
  end.

(** [ExtractByPath]; both results are returned through [c_str()]. *)
Definition ExtractByPath (json path : wstring) : wstring :=
  match Json.Parse json with
  | None => []
  | Some val =>
      match walk_path (split_path path) val with
      | None => []
      | Some (JString s) => c_str s
      | Some cur => c_str (Json.Stringify cur)
      end
  end.

(* ================================================================== *)
(** ** Narrow strings and UTF-8 *)

Definition bstring := list byte.

(** [B "..."] is the narrow literal ["..."]. *)
Definition B (s : string) : bstring := list_byte_of_string s.
Arguments B s%_string.

Definition byte_of_N (n : N) : byte := byte_of_ascii (ascii_of_N n).

Definition is_high_surrogate (c : wchar_t) : bool := (55296 <=? c)%N && (c <=? 56319)%N.
Definition is_low_surrogate (c : wchar_t) : bool := (56320 <=? c)%N && (c <=? 57343)%N.

Definition REPLACEMENT : bstring := map byte_of_N [239; 191; 189]%N.

(** [WideCharToMultiByte(CP_UTF8, 0, ...)]: UTF-16 to UTF-8; a surrogate
    without its partner becomes U+FFFD. *)
Fixpoint utf8_encode (w : wstring) : bstring :=
  match w with
  | [] => []
  | c :: r =>
      if (c <? 128)%N then byte_of_N c :: utf8_encode r
      else if (c <? 2048)%N then
        byte_of_N (192 + c / 64) :: byte_of_N (128 + c mod 64) :: utf8_encode r
      else if is_high_surrogate c then
        match r with
        | d :: r' =>
            if is_low_surrogate d then
              let cp := (65536 + (c - 55296) * 1024 + (d - 56320))%N in
              byte_of_N (240 + cp / 262144) :: byte_of_N (128 + (cp / 4096) mod 64)
                :: byte_of_N (128 + (cp / 64) mod 64) :: byte_of_N (128 + cp mod 64)
                :: utf8_encode r'
            else REPLACEMENT ++ utf8_encode r
        | [] => REPLACEMENT
        end
      else if is_low_surrogate c then REPLACEMENT ++ utf8_encode r
      else
        byte_of_N (224 + c / 4096) :: byte_of_N (128 + (c / 64) mod 64)
          :: byte_of_N (128 + c mod 64) :: utf8_encode r
  end.

(** [ToUtf8] passes [w.c_str()] with length -1, so the conversion stops at
    the first zero code unit. *)
Definition ToUtf8 (w : wstring) : bstring := utf8_encode (c_str w).

(** [std::to_wstring] of an unsigned value. *)
Definition to_wstring (n : N) : wstring :=
  L (NilZero.string_of_uint (N.to_uint n)).

(* ================================================================== *)
(** ** Catalog data *)

Inductive IOType := Text | Image.

Definition IOType_eqb (a b : IOType) : bool :=
  match a, b with
  | Text, Text | Image, Image => true
  | _, _ => false
  end.

Record FilterDefinition := {
  flt_title : wstring;
  flt_input : IOType;
  flt_output : IOType;
  flt_modelIndex : nat;
  flt_prompt : wstring
}.

Record TemplateDefinition := {
  tpl_id : wstring;
  tpl_providerId : wstring;
  tpl_input : IOType;
  tpl_output : IOType;
  tpl_endpoint : wstring;
  tpl_resultPath : wstring;
  tpl_headers : list (wstring * wstring);
  tpl_payload : wstring
}.

Record ApiProvider := {
  prov_id : wstring;
  prov_defaultEndpoint : wstring;
  prov_templates : list TemplateDefinition;
  prov_modelsEndpoint : wstring;
  prov_modelsMethod : wstring;
  prov_modelsHeaders : list (wstring * wstring);
  prov_modelsPayload : wstring;
  prov_modelsResultPath : wstring
}.

Definition FindProviderById (g_providers : list ApiProvider) (id : wstring)
    : option ApiProvider :=
  find (fun p => WString.eqb (prov_id p) id) g_providers.

Definition FindTemplateByIO (provider : ApiProvider) (input output : IOType)
    : option TemplateDefinition :=
  find (fun t => IOType_eqb (tpl_input t) input && IOType_eqb (tpl_output t) output)
       (prov_templates provider).

Fixpoint FindTemplateAny (g_providers : list ApiProvider) (input output : IOType)
    : option TemplateDefinition :=
  match g_providers with
  | [] => None
  | p :: rest =>
      match FindTemplateByIO p input output with
      | Some t => Some t
      | None => FindTemplateAny rest input output
      end
  end.

(* ================================================================== *)
(** ** Request building *)

Definition BuildBodyFromTemplate (tpl : TemplateDefinition) (m : ModelConfig)
    (systemPrompt prompt imageB64 imageDataUrl : wstring) : wstring :=
  ReplacePlaceholders (tpl_payload tpl) m systemPrompt prompt imageB64 imageDataUrl true.

Fixpoint BuildHeaderString_loop (headers : list (wstring * wstring)) (m : ModelConfig)
    (systemPrompt prompt imageB64 imageDataUrl : wstring) (header : wstring) : wstring :=
  match headers with
  | [] => header
  | kv :: rest =>
      let val := ReplacePlaceholders (snd kv) m systemPrompt prompt imageB64 imageDataUrl
                                     false in
      BuildHeaderString_loop rest m systemPrompt prompt imageB64 imageDataUrl
        (header ++ (fst kv ++ L ": " ++ val ++ L (String "013" (String "010" ""))))
  end.

Definition BuildHeaderString (tpl : TemplateDefinition) (m : ModelConfig)
    (systemPrompt prompt imageB64 imageDataUrl : wstring) : wstring :=
  BuildHeaderString_loop (tpl_headers tpl) m systemPrompt prompt imageB64 imageDataUrl [].

Definition CRLF : bstring := B (String "013" (String "010" "")).

(** The image bytes of [BuildMultipartBody]: [decoded] is what
    [CryptStringToBinaryW] gives for [imageB64] ([None] when it fails). *)
Definition multipart_image (imageB64 : wstring) (decoded : option bstring) : bstring :=
  if WString.empty imageB64 then []
  else match decoded with
       | Some img => img
       | None => []
       end.

Definition addText (bnd : bstring) (b : bstring) (name value : bstring) : bstring :=
  let b := b ++ (B "--" ++ bnd ++ CRLF) in
  let b := b ++ (B "Content-Disposition: form-data; name=" ++ [byte_of_N 34] ++ name
                   ++ [byte_of_N 34] ++ CRLF ++ CRLF) in
  let b := b ++ (value ++ CRLF) in
  b.

Definition image_part_header : bstring :=
  B "Content-Disposition: form-data; name=" ++ [byte_of_N 34] ++ B "image"
    ++ [byte_of_N 34] ++ B "; filename=" ++ [byte_of_N 34] ++ B "image.png"
    ++ [byte_of_N 34] ++ CRLF.

Definition BuildMultipartBody (CryptStringToBinary : wstring -> option bstring)
    (boundary model prompt imageB64 : wstring) : bstring :=
  let img := multipart_image imageB64 (CryptStringToBinary imageB64) in
  let b := [] in
  let bnd := ToUtf8 boundary in
  let b := addText bnd b (B "model") (ToUtf8 model) in
  let b := addText bnd b (B "prompt") (ToUtf8 prompt) in
  let b :=
    match img with
    | [] => b
    | _ :: _ =>
        let b := b ++ (B "--" ++ bnd ++ CRLF) in
        let b := b ++ image_part_header in
        let b := b ++ (B "Content-Type: image/png" ++ CRLF ++ CRLF) in
        let b := b ++ img in
        let b := b ++ CRLF in
        b
    end in
  let b := b ++ (B "--" ++ bnd ++ B "--" ++ CRLF) in
  b.

(* ================================================================== *)
(** ** The HTTP transport *)

Record HttpRequest := {
  req_host : wstring;
  req_path : wstring;
  req_useHttps : bool;
  req_headers : wstring;
  req_body : bstring;
  req_method : wstring
}.

(** What the WinHTTP calls of one [HttpRequestWithHeaders] give: for each
    call that can fail, [Some e] is the failure with [GetLastError() = e];
    [http_status] is [None] when [WinHttpQueryHeaders] fails; [http_data] is
    the text the read loop collects. *)
Record WinHttpOutcome := {
  http_open : option N;
  http_connect : option N;
  http_openRequest : option N;
  http_send : option N;
  http_receive : option N;
  http_status : option N;
  http_data : wstring
}.

(** [HttpRequestWithHeaders]: the response text and the final value of
    [*err], which is empty on entry. *)
Definition HttpRequestWithHeaders (o : WinHttpOutcome) : wstring * wstring :=
  match http_open o with
  | Some e => ([], L "WinHttpOpen failed: " ++ to_wstring e)
  | None =>
  match http_connect o with
  | Some e => ([], L "WinHttpConnect failed: " ++ to_wstring e)
  | None =>
  match http_openRequest o with
  | Some e => ([], L "WinHttpOpenRequest failed: " ++ to_wstring e)
  | None =>
      let err := [] in
      let '(ok, err, last) :=
        match http_send o with
        | Some e => (false, L "WinHttpSendRequest failed: " ++ to_wstring e, e)
        | None => (true, err, 0%N)
        end in
      let '(ok, last) :=
        if ok then match http_receive o with
                   | Some e => (false, e)
                   | None => (true, last)
                   end
        else (ok, last) in
      let err := if negb ok then L "WinHttpReceiveResponse failed: " ++ to_wstring last
                 else err in
      let err :=
        if ok then
          match http_status o with
          | Some status => if (400 <=? status)%N
                           then L "HTTP status " ++ to_wstring status else err
          | None => err
          end
        else err in
      let result := if ok then http_data o else [] in
      (result, err)
  end end end.

(* ================================================================== *)
(** ** Collaborators and effects *)

(** A bitmap handle; [nullptr] is [None] of [option HBITMAP]. *)
Definition HBITMAP := N.

Record ApiCallResult := {
  res_text : wstring;
  res_image : option HBITMAP
}.

Definition ApiCallResult_default : ApiCallResult :=
  {| res_text := []; res_image := None |}.

(** The platform and the clipboard, as one filter run sees them. *)
Record Platform := {
  GetClipboardText : wstring;
  GetClipboardBitmap : option HBITMAP;
  (* [Some b64] when the function returns true with [out = b64] *)
  BitmapToBase64Png : HBITMAP -> option wstring;
  Base64ToBitmap : wstring -> option HBITMAP;
  CryptStringToBinary : wstring -> option bstring;
  WinHttp : HttpRequest -> WinHttpOutcome;
  (* [Some what] when the function throws [std::runtime_error(what)] *)
  SetClipboardText : wstring -> option wstring;
  SetClipboardBitmap : HBITMAP -> option wstring
}.

(** The lines of the log ([LogLine] in a DEBUG build).  Two of them contain
    text made by the platform and are kept structured. *)
Inductive LogEntry :=
| Log (msg : wstring)
| LogBody (utf8 : bstring)       (* "body: " and the request body as wide text *)
| LogRunFilter (f : FilterDefinition).  (* "RunFilter: title input=.. output=.." *)

Inductive Event :=
| EvLog (l : LogEntry)
| EvGetClipboardText
| EvGetClipboardBitmap
| EvBitmapToBase64Png (bmp : HBITMAP)
| EvHttp (req : HttpRequest)
| EvBase64ToBitmap (b64 : wstring)
| EvSetClipboardText (text : wstring)
| EvSetClipboardBitmap (bmp : HBITMAP)
| EvDeleteObject (bmp : HBITMAP).

Definition is_extraction_event (e : Event) : bool :=
  match e with
  | EvBase64ToBitmap _ => true
  | EvLog (Log msg) =>
      WString.starts_with (L "template response") msg
  | _ => false
  end.

Definition is_http_event (e : Event) : bool :=
  match e with
  | EvHttp _ => true
  | _ => false
  end.

(* ================================================================== *)
(** ** Calling a template *)

Definition boundary : wstring := L "----cbfilterboundary".
Definition MULTIPART : wstring := L "multipart/form-data".

(** The first half of [CallTemplate], up to the request that is handed to
    [HttpRequestWithHeaders]; [None] when [PrepareEndpoint] fails. *)
Definition CallTemplate_request (CryptStringToBinary : wstring -> option bstring)
    (tpl : TemplateDefinition) (m : ModelConfig)
    (systemPrompt prompt imageB64 imageDataUrl : wstring) : option HttpRequest :=
  let endpoint := ReplacePlaceholders (tpl_endpoint tpl) m systemPrompt prompt imageB64
                                      imageDataUrl false in
  let ep := PrepareEndpoint (serverUrl m) endpoint true in
  if negb (ep_valid ep) then None
  else
    let body := BuildBodyFromTemplate tpl m systemPrompt prompt imageB64 imageDataUrl in
    let headers := BuildHeaderString tpl m systemPrompt prompt imageB64 imageDataUrl in
    let '(adjHeaders, utf8) :=
      if ContainsNoCase headers MULTIPART
      then (ReplaceAll headers MULTIPART (L "multipart/form-data; boundary=" ++ boundary),
            BuildMultipartBody CryptStringToBinary boundary (modelName m) prompt imageB64)
      else (headers, ToUtf8 body) in
    Some {| req_host := ep_host ep; req_path := ep_path ep;
            req_useHttps := ep_useHttps ep; req_headers := adjHeaders;
            req_body := utf8; req_method := L "POST" |}.

(** [b64] with everything up to the first comma removed when it contains
    [data:image]. *)
Definition strip_data_url (b64 : wstring) : wstring :=
  if Contains b64 (L "data:image")
  then match WString.find b64 (L ",") 0 with
       | Some c => WString.substr_from b64 (c + 1)
       | None => b64
       end
  else b64.

(** The second half of [CallTemplate]: extraction from a non-empty
    response. *)
Definition CallTemplate_extract (plat : Platform) (tpl : TemplateDefinition)
    (resp : wstring) : ApiCallResult * list Event :=
  match tpl_output tpl with
  | Text =>
      let text := if negb (WString.empty (tpl_resultPath tpl))
                  then ExtractByPath resp (tpl_resultPath tpl) else [] in
      let text := if WString.empty text then ExtractContent resp else text in
      ({| res_text := text; res_image := None |},
       if WString.empty text
       then [EvLog (Log (L "template response empty content. resp="
                           ++ WString.substr resp 0 512))]
       else [])
  | Image =>
      let b64 := if WString.empty (tpl_resultPath tpl) then []
                 else ExtractByPath resp (tpl_resultPath tpl) in
      let b64 := strip_data_url b64 in
      let b64 := if WString.empty b64 then ExtractB64Image resp else b64 in
      let b64 := if WString.empty b64 then ExtractContent resp else b64 in
      let b64 := strip_data_url b64 in
      let '(image, ev) :=
        if negb (WString.empty b64)
        then (Base64ToBitmap plat b64, [EvBase64ToBitmap b64]) else (None, []) in
      ({| res_text := []; res_image := image |},
       ev ++ match image with
             | None => [EvLog (Log (L "template response produced no image"))]
             | Some _ => []
             end)
  end.

Definition CallTemplate (plat : Platform) (tpl : TemplateDefinition) (m : ModelConfig)
    (systemPrompt prompt imageB64 imageDataUrl : wstring) : ApiCallResult * list Event :=
  match CallTemplate_request (CryptStringToBinary plat) tpl m systemPrompt prompt imageB64
                             imageDataUrl with
  | None => (ApiCallResult_default, [EvLog (Log (L "PrepareEndpoint failed"))])
  | Some req =>
      let ev := [EvLog (Log (L "request host: " ++ req_host req));
                 EvLog (Log (L "request path: " ++ req_path req));
                 EvLog (LogBody (req_body req))] in
      let '(resp, err) := HttpRequestWithHeaders (WinHttp plat req) in
      let ev := ev ++ [EvHttp req] in
      let ev := if negb (WString.empty err)
                then ev ++ [EvLog (Log (L "template request error: " ++ err))] else ev in
      if WString.empty resp then (ApiCallResult_default, ev)
      else
        let '(result, ev') := CallTemplate_extract plat tpl resp in
        (result, ev ++ ev')
  end.

(* ================================================================== *)
(** ** Running a filter *)

(** The model, the provider and the template of a run: the first lines of
    [RunFilter].  The outer [None] is the out-of-bounds read [g_models[0]]
    of an empty model list, which the code does not guard. *)
Definition modelRef (g_models : list ModelConfig) (f : FilterDefinition)
    : option ModelConfig :=
  nth_error g_models
            (if flt_modelIndex f <? length g_models then flt_modelIndex f else 0).

Definition resolve_provider (g_providers : list ApiProvider) (m : ModelConfig)
    : option ApiProvider :=
  match FindProviderById g_providers (providerId m) with
  | Some p => Some p
  | None => hd_error g_providers
  end.

Definition resolve_template (g_providers : list ApiProvider) (m : ModelConfig)
    (f : FilterDefinition) : option TemplateDefinition :=
  let tpl :=
    match resolve_provider g_providers m with
    | Some provider => FindTemplateByIO provider (flt_input f) (flt_output f)
    | None => None
    end in
  match tpl with
  | Some t => Some t
  | None => FindTemplateAny g_providers (flt_input f) (flt_output f)
  end.

Definition thing (t : IOType) : wstring :=
  match t with Text => L "text" | Image => L "image" end.

Definition systemPrompt_of (f : FilterDefinition) : wstring :=
  L "Follow the instructions strictly and convert the input " ++ thing (flt_input f)
    ++ L " to the output " ++ thing (flt_output f)
    ++ L ". No additional text or comments are allowed.".

Definition NLNL : wstring := [10; 10]%N.

(** The body of [RunFilter] once the template is known. *)
Definition RunFilter_with (plat : Platform) (tpl : TemplateDefinition) (m : ModelConfig)
    (f : FilterDefinition) : bool * list Event :=
  let acquired : option (wstring * wstring) * list Event :=
    match tpl_input tpl with
    | Text =>
        let textInput := GetClipboardText plat in
        if WString.empty textInput
        then (None, [EvGetClipboardText; EvLog (Log (L "fail: no text in clipboard"))])
        else (Some (textInput, []), [EvGetClipboardText])
    | Image =>
        match GetClipboardBitmap plat with
        | None => (None, [EvGetClipboardBitmap; EvLog (Log (L "fail: no image in clipboard"))])
        | Some bmp =>
            match BitmapToBase64Png plat bmp with
            | None => (None, [EvGetClipboardBitmap; EvBitmapToBase64Png bmp;
                              EvDeleteObject bmp;
                              EvLog (Log (L "fail: base64 encode image failed"))])
            | Some b64 => (Some ([], b64), [EvGetClipboardBitmap; EvBitmapToBase64Png bmp;
                                            EvDeleteObject bmp])
            end
        end
    end in
  match acquired with
  | (None, ev) => (false, ev)
  | (Some (textInput, imageB64), ev) =>
      let systemPrompt := systemPrompt_of f in
      let promptText := flt_prompt f ++ NLNL ++ textInput in
      let imageDataUrl := if WString.empty imageB64 then []
                          else L "data:image/png;base64," ++ imageB64 in
      let '(res, ev') := CallTemplate plat tpl m systemPrompt promptText imageB64
                                      imageDataUrl in
      let ev := ev ++ ev' in
      match tpl_output tpl with
      | Text =>
          if WString.empty (res_text res)
          then (false, ev ++ [EvLog (Log (L "fail: template returned empty text"))])
          else match SetClipboardText plat (res_text res) with
               | None => (true, ev ++ [EvSetClipboardText (res_text res)])
               | Some what =>
                   (false, ev ++ [EvSetClipboardText (res_text res);
                                  EvLog (Log (L "exception in RunFilter: " ++ what))])
               end
      | Image =>
          match res_image res with
          | None => (false, ev ++ [EvLog (Log (L "fail: template returned no image"))])
          | Some image =>
              match SetClipboardBitmap plat image with
              | None => (true, ev ++ [EvSetClipboardBitmap image])
              | Some _ =>
                  (false, ev ++ [EvSetClipboardBitmap image; EvDeleteObject image;
                                 EvLog (Log (L "fail: SetClipboardBitmap threw"))])
              end
          end
      end
  end.

(** [RunFilter]: the return value and the effects, in order. *)
Definition RunFilter (plat : Platform) (g_models : list ModelConfig)
    (g_providers : list ApiProvider) (f : FilterDefinition) : option (bool * list Event) :=
  match modelRef g_models f with
  | None => None
  | Some m =>
      match resolve_template g_providers m f with
      | None => Some (false, [EvLog (LogRunFilter f);
                              EvLog (Log (L "fail: no matching template"))])
      | Some tpl =>
          let '(ret, ev) := RunFilter_with plat tpl m f in
          Some (ret, EvLog (LogRunFilter f) :: ev)
      end
  end.

(* ================================================================== *)
(** ** Picking a model

    [RegexMatchNoCase] wraps [std::regex_search] with the [icase] flag; the
    regular-expression engine is the C++ library's.  [PickModelByPatterns]
    is written over any matcher [rx text pattern]. *)

Section PickModel.

Variable RegexMatchNoCase : wstring -> wstring -> bool.

Fixpoint PickModelByPatterns_loop (models patterns : list wstring) : option wstring :=
  match patterns with
  | [] => None
  | pat :: rest =>
      match find (fun m => RegexMatchNoCase m pat) models with
      | Some m => Some m
      | None => PickModelByPatterns_loop models rest
      end
  end.

Definition PickModelByPatterns (models patterns : list wstring) : wstring :=
  match PickModelByPatterns_loop models patterns with
  | Some m => m
  | None => match models with
            | [] => []
            | front :: _ => front
            end
  end.

(** The claim in its own words: the first pattern that matches some model
    decides, and the first model it matches is returned. *)
Definition pick_spec (models patterns : list wstring) : wstring :=
  match find (fun pat => existsb (fun m => RegexMatchNoCase m pat) models) patterns with
  | Some pat => hd [] (filter (fun m => RegexMatchNoCase m pat) models)
  | None => hd [] models
  end.

End PickModel.

(** A fragment of the ECMAScript grammar of [std::wregex], enough for the
    patterns of the specification: literal characters, [.], an escaped
    punctuation character, and the greedy quantifiers [*], [+] and [?] on
    one atom.  [RegexMatchNoCase] answers [false] for a pattern it cannot
    read; for a pattern [std::wregex] rejects the source does the same
    through its [catch (...)], and patterns of the full grammar outside the
    fragment are not modelled. *)
Module Regex.

Inductive re :=
| Void
| Eps
| Chr (c : wchar_t)
| Dot                      (* any character but a line terminator *)
| AnyChar
| Cat (r1 r2 : re)
| Alt (r1 r2 : re)
| Star (r : re).

Definition is_line_terminator (c : wchar_t) : bool :=
  N.eqb c 10 || N.eqb c 13 || N.eqb c 8232 || N.eqb c 8233.

Fixpoint nullable (r : re) : bool :=
  match r with
  | Void | Chr _ | Dot | AnyChar => false
  | Eps | Star _ => true
  | Cat r1 r2 => nullable r1 && nullable r2
  | Alt r1 r2 => nullable r1 || nullable r2
  end.

(** The derivative of [r] by the character [c]; with [icase] both sides
    are compared in lower case. *)
Fixpoint deriv (c : wchar_t) (r : re) : re :=
  match r with
  | Void | Eps => Void
  | Chr d => if N.eqb (towlower c) (towlower d) then Eps else Void
  | Dot => if is_line_terminator c then Void else Eps
  | AnyChar => Eps
  | Cat r1 r2 =>
      if nullable r1 then Alt (Cat (deriv c r1) r2) (deriv c r2)
      else Cat (deriv c r1) r2
  | Alt r1 r2 => Alt (deriv c r1) (deriv c r2)
  | Star r1 => Cat (deriv c r1) (Star r1)
  end.

Fixpoint matches (r : re) (s : wstring) : bool :=
  match s with
  | [] => nullable r
  | c :: s' => matches (deriv c r) s'
  end.

(** [std::regex_search]: a match anywhere in the text. *)
Definition search (r : re) (s : wstring) : bool :=
  matches (Cat (Star AnyChar) (Cat r (Star AnyChar))) s.

Definition is_meta (c : wchar_t) : bool :=
  existsb (N.eqb c) (L "\.*+?()[]{}|^$").

Definition seq (acc : re) (last : option re) : re :=
  match last with
  | Some a => Cat acc a
  | None => acc
  end.

(** [acc] is what was read before the last atom, [last] the atom a
    quantifier may still apply to. *)
Fixpoint parse_from (p : wstring) (acc : re) (last : option re) : option re :=
  match p with
  | [] => Some (seq acc last)
  | c :: p' =>
      if N.eqb c (wc "*") then
        match last with
        | Some a => parse_from p' (Cat acc (Star a)) None
        | None => None
        end
      else if N.eqb c (wc "+") then
        match last with
        | Some a => parse_from p' (Cat acc (Cat a (Star a))) None
        | None => None
        end
      else if N.eqb c (wc "?") then
        match last with
        | Some a => parse_from p' (Cat acc (Alt Eps a)) None
        | None => None
        end
      else if N.eqb c (wc ".") then parse_from p' (seq acc last) (Some Dot)
      else if N.eqb c BACKSLASH then
        match p' with
        | e :: p'' => if is_meta e || N.eqb e (wc "-") || N.eqb e SLASH
                      then parse_from p'' (seq acc last) (Some (Chr e))
                      else None
        | [] => None
        end
      else if is_meta c then None
      else parse_from p' (seq acc last) (Some (Chr c))
  end.

Definition parse (pattern : wstring) : option re := parse_from pattern Eps None.

Definition RegexMatchNoCase (text pattern : wstring) : bool :=
  match parse pattern with
  | Some r => search r text
  | None => false
  end.

End Regex.

(* ================================================================== *)
(** ** The single-flight guard

    The user-interface thread of [main.cpp], reduced to what decides
    whether a filter run may start: the global [g_progressWnd] and the
    worker threads.  A progress window and its worker share an
    identifier. *)

Record UiState := {
  (* [Some w]: [g_progressWnd && IsWindow(g_progressWnd)] holds for window [w] *)
  g_progressWnd : option nat;
  (* workers whose [RunFilter] has not returned yet *)
  in_flight : list nat;
  (* every worker thread ever created, newest first *)
  started : list nat
}.

Definition ui_initial : UiState :=
  {| g_progressWnd := None; in_flight := []; started := [] |}.

(** [ShowProgressAndRunFilter]: the window is created, its [WM_CREATE]
    handler starts the worker thread, [g_progressWnd] is set. *)
Definition ShowProgressAndRunFilter (st : UiState) : UiState :=
  let w := length (started st) in
  {| g_progressWnd := Some w; in_flight := w :: in_flight st;
     started := w :: started st |}.

(** [ShowFilterMenuAndRun]; [selected] is what the user does with the menu
    ([None]: the menu is dismissed).  The return value says whether a run
    was started. *)
Definition ShowFilterMenuAndRun (st : UiState) (selected : option nat) : bool * UiState :=
  match g_progressWnd st with
  | Some _ => (false, st)                 (* a filter is already running *)
  | None =>
      match selected with
      | Some _ => (true, ShowProgressAndRunFilter st)
      | None => (false, st)
      end
  end.

(** The [WM_HOTKEY] case of [WndProc]. *)
Definition WndProc_WM_HOTKEY (st : UiState) (selected : option nat) : UiState :=
  match g_progressWnd st with
  | Some _ => st
  | None => snd (ShowFilterMenuAndRun st selected)
  end.

(** [WM_DESTROY] of the progress window [w]; the handler clears
    [g_progressWnd]. *)
Definition ProgressWndProc_WM_DESTROY (st : UiState) : UiState :=
  {| g_progressWnd := None; in_flight := in_flight st; started := started st |}.

Definition remove_worker (w : nat) (l : list nat) : list nat :=
  filter (fun x => negb (Nat.eqb x w)) l.

(** [RunFilterThread] of worker [w] returns from [RunFilter] and posts
    [WM_APP_FILTER_COMPLETE]; the progress window, if it is still there,
    handles it with [DestroyWindow]. *)
Definition worker_complete (st : UiState) (w : nat) : UiState :=
  let st' := {| g_progressWnd := g_progressWnd st;
                in_flight := remove_worker w (in_flight st);
                started := started st |} in
  match g_progressWnd st with
  | Some w' => if Nat.eqb w w' then ProgressWndProc_WM_DESTROY st' else st'
  | None => st'
  end.

(** The Escape key on the progress window: the message loop of [wWinMain]
    posts [WM_CLOSE] to it; [ProgressWndProc] has no case for [WM_CLOSE],
    so [DefWindowProcW] destroys the window. *)
Definition escape_on_progress (st : UiState) : UiState :=
  match g_progressWnd st with
  | Some _ => ProgressWndProc_WM_DESTROY st
  | None => st
  end.

Inductive UiEvent :=
| Hotkey (selected : option nat)          (* WM_HOTKEY, then the user's choice *)
| FilterMenu (selected : option nat)      (* ShowFilterMenuAndRun called directly *)
| WorkerComplete (w : nat)
| EscapeKey.

Definition ui_step (st : UiState) (e : UiEvent) : UiState :=
  match e with
  | Hotkey sel => WndProc_WM_HOTKEY st sel
  | FilterMenu sel => snd (ShowFilterMenuAndRun st sel)
  | WorkerComplete w => worker_complete st w
  | EscapeKey => escape_on_progress st
  end.

Definition ui_run (events : list UiEvent) : UiState :=
  fold_left ui_step events ui_initial.

Definition is_escape (e : UiEvent) : bool :=
  match e with EscapeKey => true | _ => false end.

(* ================================================================== *)
(** ** Definitions used by the statements *)

Definition with_apiKey (m : ModelConfig) (k : wstring) : ModelConfig :=
  {| name := name m; serverUrl := serverUrl m; modelName := modelName m;
     apiKey := k; providerId := providerId m |}.

(** The tokens of [ReplacePlaceholders] with their values, in the order of
    the seven [ReplaceAll] calls. *)
Definition placeholder_tokens (m : ModelConfig)
    (systemPrompt prompt imageB64 imageDataUrl : wstring) : list (wstring * wstring) :=
  [ (L "<<model>>", modelName m);
    (L "<<system_prompt>>", systemPrompt);
    (L "<<prompt>>", prompt);
    (L "<<input_text>>", prompt);
    (L "<<api_key>>", apiKey m);
    (L "<<image_url>>", imageDataUrl);
    (L "<<image>>", imageB64) ].

Definition LT : wchar_t := 60%N.

(** A catalog with one text-to-text template whose payload is the prompt
    alone, a model with the key [k], and a clipboard holding [clip]. *)
Definition demo_template : TemplateDefinition :=
  {| tpl_id := L "text-text"; tpl_providerId := L "demo";
     tpl_input := Text; tpl_output := Text;
     tpl_endpoint := L "/v1/chat/completions"; tpl_resultPath := L "choices[0].message.content";
     tpl_headers := [(L "Content-Type", L "application/json")];
     tpl_payload := L "<<prompt>>" |}.

Definition demo_provider : ApiProvider :=
  {| prov_id := L "demo"; prov_defaultEndpoint := L "https://api.example.com";
     prov_templates := [demo_template];
     prov_modelsEndpoint := []; prov_modelsMethod := []; prov_modelsHeaders := [];
     prov_modelsPayload := []; prov_modelsResultPath := [] |}.

Definition demo_model (k : wstring) : ModelConfig :=
  {| name := L "m"; serverUrl := L "https://api.example.com"; modelName := L "gpt";
     apiKey := k; providerId := L "demo" |}.

Definition demo_filter : FilterDefinition :=
  {| flt_title := L "f"; flt_input := Text; flt_output := Text;
     flt_modelIndex := 0; flt_prompt := [] |}.

Definition http_answer (status : N) (data : wstring) : WinHttpOutcome :=
  {| http_open := None; http_connect := None; http_openRequest := None;
     http_send := None; http_receive := None;
     http_status := Some status; http_data := data |}.

(** A platform whose clipboard holds the text [clip] and whose server
    answers every request with [status] and the body [data]. *)
Definition demo_platform (clip : wstring) (status : N) (data : wstring) : Platform :=
  {| GetClipboardText := clip;
     GetClipboardBitmap := None;
     BitmapToBase64Png := fun _ => None;
     Base64ToBitmap := fun _ => None;
     CryptStringToBinary := fun _ => None;
     WinHttp := fun _ => http_answer status data;
     SetClipboardText := fun _ => None;
     SetClipboardBitmap := fun _ => None |}.

(** The requests a run has sent. *)
Fixpoint http_requests (ev : list Event) : list HttpRequest :=
  match ev with
  | [] => []
  | EvHttp req :: ev' => req :: http_requests ev'
  | _ :: ev' => http_requests ev'
  end.

(** The fragment is an absolute URL. *)
Definition is_absolute (fragment : wstring) : bool :=
  WString.starts_with (L "http://") fragment || WString.starts_with (L "https://") fragment.

(** The fragment [PrepareEndpoint] works with: the default for an empty one. *)
Definition effective_fragment (tplPath : wstring) : wstring :=
  if WString.empty tplPath then L "/v1/chat/completions" else tplPath.

(** The string that carries the scheme and the host: the fragment when it is
    an absolute URL, the server base otherwise. *)
Definition carrier (serverUrl tplPath : wstring) : wstring :=
  if is_absolute (effective_fragment tplPath) then effective_fragment tplPath
  else serverUrl.

Definition strip_scheme (h : wstring) : wstring :=
  if WString.starts_with (L "https://") h then skipn 8 h
  else if WString.starts_with (L "http://") h then skipn 7 h
  else h.

(** The claim about [ExtractContent] in its own words: the text up to the
    next double quote that no backslash precedes ... *)
Fixpoint upto_unescaped_quote (s : wstring) (after_backslash : bool) : wstring :=
  match s with
  | [] => []
  | c :: r =>
      if N.eqb c DQUOTE && negb after_backslash then []
      else c :: upto_unescaped_quote r (N.eqb c BACKSLASH)
  end.

(** ... in which backslash-n and backslash-quote are unescaped and every
    other backslash stays. *)
Fixpoint unescape_n_quote (s : wstring) : wstring :=
  match s with
  | [] => []
  | c :: r =>
      if N.eqb c BACKSLASH then
        match r with
        | d :: r' =>
            if N.eqb d (wc "n") then 10%N :: unescape_n_quote r'
            else if N.eqb d DQUOTE then DQUOTE :: unescape_n_quote r'
            else c :: unescape_n_quote r
        | [] => [c]
        end
      else c :: unescape_n_quote r
  end.

Definition text_template (resultPath : wstring) : TemplateDefinition :=
  {| tpl_id := L "text-text"; tpl_providerId := L "demo";
     tpl_input := Text; tpl_output := Text;
     tpl_endpoint := L "/v1/chat/completions"; tpl_resultPath := resultPath;
     tpl_headers := [(L "Content-Type", L "application/json")];
     tpl_payload := L "<<prompt>>" |}.

(** The template is for this input and output. *)
Definition matches_io (input output : IOType) (t : TemplateDefinition) : bool :=
  IOType_eqb (tpl_input t) input && IOType_eqb (tpl_output t) output.

(** No template of the catalog is for the input and output of the filter. *)
Definition no_template_matches (g_providers : list ApiProvider) (f : FilterDefinition)
    : Prop :=
  forall p t, In p g_providers -> In t (prov_templates p) ->
              matches_io (flt_input f) (flt_output f) t = false.

(** What [RunFilter] returns and does when it stops for want of a template. *)
Definition no_matching_template (f : FilterDefinition) : bool * list Event :=
  (false, [EvLog (LogRunFilter f); EvLog (Log (L "fail: no matching template"))]).

Definition filter_with_index (i : nat) : FilterDefinition :=
  {| flt_title := L "f"; flt_input := Text; flt_output := Text;
     flt_modelIndex := i; flt_prompt := [] |}.

(** The single-flight property as an invariant of the state: what is in
    flight is at most the worker of the live progress window. *)
Definition single_flight (st : UiState) : Prop :=
  match g_progressWnd st with
  | Some w => in_flight st = [w] \/ in_flight st = []
  | None => in_flight st = []
  end.

(** One text part of a multipart body, as the claim describes it: the
    boundary line, the disposition with the name, an empty line, the
    value. *)
Definition text_part (bnd name value : bstring) : bstring :=
  B "--" ++ bnd ++ CRLF
    ++ B "Content-Disposition: form-data; name=" ++ [byte_of_N 34] ++ name
    ++ [byte_of_N 34] ++ CRLF ++ CRLF
    ++ value ++ CRLF.

(** The image part, present when there are image bytes. *)
Definition image_part (bnd img : bstring) : bstring :=
  match img with
  | [] => []
  | _ :: _ =>
      B "--" ++ bnd ++ CRLF ++ image_part_header
        ++ B "Content-Type: image/png" ++ CRLF ++ CRLF ++ img ++ CRLF
  end.

(** A template with the one header [Content-Type: contentType]. *)
Definition upload_template (contentType : wstring) : TemplateDefinition :=
  {| tpl_id := L "image-image"; tpl_providerId := L "demo";
     tpl_input := Image; tpl_output := Image;
     tpl_endpoint := L "/v1/images/edits"; tpl_resultPath := L "data[0].b64_json";
     tpl_headers := [(L "Content-Type", contentType)];
     tpl_payload := L "<<prompt>>" |}.

(** A stand-in for [CryptStringToBinaryW]: it decodes the one text [QUJD]
    (to the bytes of [ABC]) and fails on every other text. *)
Definition decode_demo (b64 : wstring) : option bstring :=
  if WString.eqb b64 (L "QUJD") then Some (B "ABC") else None.

(** A platform on which every request fails to be sent (error 12029). *)
Definition offline_platform : Platform :=
  {| GetClipboardText := L "hello";
     GetClipboardBitmap := None;
     BitmapToBase64Png := fun _ => None;
     Base64ToBitmap := fun _ => None;
     CryptStringToBinary := fun _ => None;
     WinHttp := fun _ => {| http_open := None; http_connect := None;
                            http_openRequest := None; http_send := Some 12029%N;
                            http_receive := None; http_status := None;
                            http_data := [] |};
     SetClipboardText := fun _ => None;
     SetClipboardBitmap := fun _ => None |}.

(* ================================================================== *)
(** ** Catalog and configuration helpers *)

Definition ParseIOType (s : wstring) : IOType :=
  let lower := toLow s in
  if WString.eqb lower (L "image") then Image else Text.

Definition IOTypeToConfig (t : IOType) : wstring :=
  match t with Image => L "image" | Text => L "text" end.

Definition HYPHEN : wchar_t := 45%N.

(** The input and output kinds [LoadApiDefinitions] reads off a template
    key: the text before the first hyphen and the text behind it, or the
    whole key twice when it has no hyphen. *)
Definition template_io_of_key (key : wstring) : IOType * IOType :=
  let sep := WString.find key [HYPHEN] 0 in
  let input := match sep with
               | None => key
               | Some sep => WString.substr key 0 sep
               end in
  let output := match sep with
                | None => key
                | Some sep => WString.substr_from key (sep + 1)
                end in
  (ParseIOType input, ParseIOType output).

Definition NormalizeProviderId (raw : wstring) : wstring :=
  if WString.empty raw then raw
  else match WString.find raw [HYPHEN] 0 with
       | Some pos => WString.substr raw 0 pos
       | None => raw
       end.

Fixpoint FindTemplateById (g_providers : list ApiProvider) (id : wstring)
    : option TemplateDefinition :=
  match g_providers with
  | [] => None
  | p :: rest =>
      match find (fun t => WString.eqb (tpl_id t) id) (prov_templates p) with
      | Some t => Some t
      | None => FindTemplateById rest id
      end
  end.

Definition with_providerId (m : ModelConfig) (id : wstring) : ModelConfig :=
  {| name := name m; serverUrl := serverUrl m; modelName := modelName m;
     apiKey := apiKey m; providerId := id |}.

(** [EnsureModelProviders]: the new value of [g_models]. *)
Definition EnsureModelProviders (g_providers : list ApiProvider)
    (g_models : list ModelConfig) : list ModelConfig :=
  match g_providers with
  | [] => g_models
  | front :: _ =>
      let first := prov_id front in
      map (fun m => if WString.empty (providerId m) then with_providerId m first else m)
          g_models
  end.

Definition with_modelIndex (f : FilterDefinition) (i : nat) : FilterDefinition :=
  {| flt_title := flt_title f; flt_input := flt_input f; flt_output := flt_output f;
     flt_modelIndex := i; flt_prompt := flt_prompt f |}.

(** The loop of [LoadConfig] over the loaded filters: an index that is not
    one of the model list becomes 0. *)
Definition LoadConfig_clamp (g_models : list ModelConfig)
    (g_filters : list FilterDefinition) : list FilterDefinition :=
  map (fun f => if length g_models <=? flt_modelIndex f then with_modelIndex f 0 else f)
      g_filters.

(** A value that is neither an object nor an array. *)
Definition is_scalar (v : JsonValue) : bool :=
  match v with
  | JObject _ | JArray _ => false
  | _ => true
  end.

Definition is_clipboard_write (e : Event) : bool :=
  match e with
  | EvSetClipboardText _ | EvSetClipboardBitmap _ => true
  | _ => false
  end.

(** The clipboard writes a run has attempted. *)
Definition clipboard_writes (ev : list Event) : list Event :=
  filter is_clipboard_write ev.

(** A clipboard write that went through on the platform. *)
Definition write_succeeded (plat : Platform) (e : Event) : Prop :=
  match e with
  | EvSetClipboardText text => text <> [] /\ SetClipboardText plat text = None
  | EvSetClipboardBitmap bmp => SetClipboardBitmap plat bmp = None
  | _ => False
  end.

(** Every WinHTTP call of the request succeeded. *)
Definition http_all_ok (o : WinHttpOutcome) : Prop :=
  http_open o = None /\ http_connect o = None /\ http_openRequest o = None
  /\ http_send o = None /\ http_receive o = None.

(* ================================================================== *)
(** ** An image catalog *)

(** A catalog with one image-to-image template. *)
Definition image_provider : ApiProvider :=
  {| prov_id := L "demo"; prov_defaultEndpoint := L "https://api.example.com";
     prov_templates := [upload_template (L "multipart/form-data")];
     prov_modelsEndpoint := []; prov_modelsMethod := []; prov_modelsHeaders := [];
     prov_modelsPayload := []; prov_modelsResultPath := [] |}.

Definition image_filter : FilterDefinition :=
  {| flt_title := L "g"; flt_input := Image; flt_output := Image;
     flt_modelIndex := 0; flt_prompt := L "sharpen" |}.

(** A platform whose clipboard holds the bitmap 7, whose server answers
    with one encoded image, whose decoder gives the bitmap 9, and on which
    [SetClipboardBitmap] throws. *)
Definition image_platform : Platform :=
  {| GetClipboardText := [];
     GetClipboardBitmap := Some 7%N;
     BitmapToBase64Png := fun _ => Some (L "QUJD");
     Base64ToBitmap := fun _ => Some 9%N;
     CryptStringToBinary := decode_demo;
     WinHttp := fun _ => http_answer 200 (Q "{'data':[{'b64_json':'QUJD'}]}");
     SetClipboardText := fun _ => None;
     SetClipboardBitmap := fun _ => Some (L "clipboard busy") |}.

(* ================================================================== *)
(** ** Fetching the model list

    [FetchModels] asks the provider for its models.  [models] and [err] are
    in-out parameters.  The two [winrt::hresult_error] messages the function
    can copy into [err] are the platform's: [parse_failure] for a response
    that is not JSON and [type_mismatch] for an [id] that is not a string. *)

Record FetchResult := {
  fetch_ok : bool;
  fetch_models : list wstring;
  fetch_err : wstring;
  fetch_request : option HttpRequest
}.

(** The walk along [modelsResultPath]: names only, empty parts skipped. *)
Fixpoint FetchModels_walk (parts : list wstring) (cur : JsonValue) : JsonValue + wstring :=
  match parts with
  | [] => inl cur
  | part :: rest =>
      if WString.empty part then FetchModels_walk rest cur
      else match cur with
           | JObject members =>
               match Json.GetNamedValue members part with
               | None => inr (L "models result path missing")
               | Some v => FetchModels_walk rest v
               end
           | _ => inr (L "models result path invalid")
           end
  end.

(** The loop over the array; the flag tells that [GetNamedString] threw,
    which leaves in [models] what was pushed before. *)
Fixpoint FetchModels_collect (arr : list JsonValue) (models : list wstring)
    : list wstring * bool :=
  match arr with
  | [] => (models, false)
  | item :: rest =>
      match item with
      | JObject members =>
          match Json.GetNamedValue members (L "id") with
          | None => FetchModels_collect rest models
          | Some (JString s) => FetchModels_collect rest (models ++ [c_str s])
          | Some _ => (models, true)
          end
      | JString s => FetchModels_collect rest (models ++ [c_str s])
      | _ => FetchModels_collect rest models
      end
  end.

Section FetchModels.

Variable RegexMatchNoCase : wstring -> wstring -> bool.
Variable WinHttp : HttpRequest -> WinHttpOutcome.
Variables parse_failure type_mismatch : wstring.

Definition FetchModels (provider : ApiProvider) (serverUrl apiKey : wstring)
    (models : list wstring) (err : wstring) : FetchResult :=
  if WString.empty (prov_modelsEndpoint provider)
  then {| fetch_ok := false; fetch_models := models;
          fetch_err := L "models endpoint not defined"; fetch_request := None |}
  else
    let dummy := {| name := []; serverUrl := serverUrl; modelName := [];
                    apiKey := apiKey; providerId := prov_id provider |} in
    let endpoint := ReplacePlaceholders (prov_modelsEndpoint provider) dummy [] [] [] []
                                        false in
    let ep := PrepareEndpoint serverUrl endpoint true in
    if negb (ep_valid ep)
    then {| fetch_ok := false; fetch_models := models;
            fetch_err := L "PrepareEndpoint failed"; fetch_request := None |}
    else
      let headers := BuildHeaderString_loop (prov_modelsHeaders provider) dummy [] [] [] []
                                            [] in
      let body := ToUtf8 (ReplacePlaceholders (prov_modelsPayload provider) dummy [] [] [] []
                                              false) in
      let req :=
        if negb (WString.empty (prov_modelsMethod provider))
           && RegexMatchNoCase (prov_modelsMethod provider) (L "post")
        then {| req_host := ep_host ep; req_path := ep_path ep;
                req_useHttps := ep_useHttps ep; req_headers := headers;
                req_body := body; req_method := L "POST" |}
        else {| req_host := ep_host ep; req_path := ep_path ep;
                req_useHttps := ep_useHttps ep; req_headers := headers;
                req_body := []; req_method := L "GET" |} in
      let '(resp, herr) := HttpRequestWithHeaders (WinHttp req) in
      let err := if WString.empty herr then err else herr in
      let stop (models : list wstring) (err : wstring) :=
        {| fetch_ok := false; fetch_models := models; fetch_err := err;
           fetch_request := Some req |} in
      if WString.empty resp then stop models err
      else
        match Json.Parse resp with
        | None => stop models parse_failure
        | Some root =>
            match FetchModels_walk (split_path (prov_modelsResultPath provider)) root with
            | inr e => stop models e
            | inl (JArray arr) =>
                let '(models, threw) := FetchModels_collect arr models in
                if threw then stop models type_mismatch
                else {| fetch_ok := match models with [] => false | _ :: _ => true end;
                        fetch_models := models;
                        fetch_err := err; fetch_request := Some req |}
            | inl _ => stop models err
            end
        end.

End FetchModels.

(** An item of a model list with the identifier [id]: the string itself or
    an object whose [id] member is that string. *)
Definition names_model (item : JsonValue) (id : wstring) : Prop :=
  item = JString id
  \/ exists members, item = JObject members
                     /\ Json.GetNamedValue members (L "id") = Some (JString id).

(** A provider whose list of models is read with GET and found under
    [data]. *)
Definition listing_provider : ApiProvider :=
  {| prov_id := L "demo"; prov_defaultEndpoint := L "https://api.example.com";
     prov_templates := [demo_template];
     prov_modelsEndpoint := L "/v1/models"; prov_modelsMethod := L "GET";
     prov_modelsHeaders := [(L "Authorization", L "Bearer <<api_key>>")];
     prov_modelsPayload := L "{}"; prov_modelsResultPath := L "data" |}.

(* ================================================================== *)
(** ** Protecting the API key

    DPAPI and the base64 functions of [crypt32] are the platform's; each is
    a partial function, [None] for a call that fails.  The [LogLine] calls
    of the two functions write to the debug log only and are left out. *)

Definition N_of_byte (b : byte) : N := N_of_ascii (ascii_of_byte b).

(** The bytes of a wide string in memory: two per code unit, low byte
    first. *)
Definition wchar_bytes (w : wstring) : bstring :=
  flat_map (fun c => [byte_of_N (c mod 256); byte_of_N (c / 256)]) w.

(** [wstring(reinterpret_cast<wchar_t*>(p), n / 2)] for [n] bytes at [p]. *)
Fixpoint bytes_wchars (b : bstring) : wstring :=
  match b with
  | lo :: hi :: r => (N_of_byte lo + 256 * N_of_byte hi)%N :: bytes_wchars r
  | _ => []
  end.

Definition kPrefix : wstring := L "dpapi:".

Section ApiKey.

Variables CryptProtectData CryptUnprotectData : bstring -> option bstring.
Variable CryptBinaryToString : bstring -> option wstring.
Variable CryptStringToBinaryW : wstring -> option bstring.

Definition ProtectApiKey (plain : wstring) : wstring :=
  if WString.empty plain then []
  else
    match CryptProtectData (wchar_bytes plain) with
    | None => []
    | Some out =>
        match CryptBinaryToString out with
        | None => []
        | Some b64 => kPrefix ++ b64
        end
    end.

Definition UnprotectApiKey (stored : wstring) : wstring :=
  if WString.empty stored then []
  else if negb (WString.starts_with kPrefix stored) then stored
  else
    let b64 := WString.substr_from stored (length kPrefix) in
    match CryptStringToBinaryW (c_str b64) with
    | None => []
    | Some buf =>
        match CryptUnprotectData buf with
        | None => []
        | Some out =>
            if Nat.eqb (length out mod 2) 0 then bytes_wchars out else []
        end
    end.

(** The text [SaveConfig] stores for the key of a model. *)
Definition SaveConfig_apiKey (apiKey : wstring) : wstring :=
  let protectedKey := ProtectApiKey apiKey in
  if WString.empty protectedKey && negb (WString.empty apiKey) then apiKey
  else protectedKey.

End ApiKey.

(** A stand-in for the base64 functions: a byte becomes the code unit 256
    above it. *)
Definition encode_demo (b : bstring) : option wstring :=
  Some (map (fun x => (256 + N_of_byte x)%N) b).

Definition decode_units (w : wstring) : option bstring :=
  Some (map (fun c => byte_of_N (c - 256)) w).

(** A stand-in for DPAPI: the blob is the data reversed. *)
Definition reverse_blob (b : bstring) : option bstring := Some (rev b).

(* ================================================================== *)
(** ** Initial setup

    [PerformInitialSetup] fetches the model list of the chosen provider and
    rebuilds the configuration.  The globals it reads and writes are a
    record.  The default configuration comes from a file: its [language]
    member, if it has one, is [def_language], and [LoadFiltersFromJson_def]
    is what [LoadFiltersFromJson(def, g_filters)] makes of [g_filters].  The
    file that the final [SaveConfig] writes is not part of the model; its
    call of [EnsureModelProviders] is. *)

Record SetupDialogState := {
  st_languageCode : wstring;
  st_shift : bool; st_ctrl : bool; st_alt : bool; st_win : bool;
  st_vkCode : N;
  st_providerIndex : nat;
  st_serverUrl : wstring;
  st_apiKey : wstring
}.

Record Globals := {
  g_models : list ModelConfig;
  g_filters : list FilterDefinition;
  g_language : wstring;
  g_hotkeyModifiers : N;
  g_hotkeyKey : N
}.

Definition MOD_ALT : N := 1.
Definition MOD_CONTROL : N := 2.
Definition MOD_SHIFT : N := 4.
Definition MOD_WIN : N := 8.

Definition patternsLLM : list wstring :=
  [L "gpt-.*-nano"; L "gemini-.*-flash-lite"; L "gpt-.*-mini"; L "gemini-.*-flash";
   L "gpt-.*"; L "claude-.*-haiku"; L "gemini-.*-pro"; L "claude-.*-sonnet"].

Definition patternsImage : list wstring :=
  [L "gpt.*image.*mini"; L "gemini.*image"; L "gpt.*image"].

Definition idxFor (input output : IOType) : nat :=
  match input, output with
  | Text, Text => 0
  | Text, Image => 1
  | Image, Text => 2
  | Image, Image => 3
  end.

Section PerformInitialSetup.

Variable RegexMatchNoCase : wstring -> wstring -> bool.
Variable WinHttp : HttpRequest -> WinHttpOutcome.
Variables parse_failure type_mismatch : wstring.
Variable def_language : option wstring.
Variable LoadFiltersFromJson_def : list FilterDefinition -> list FilterDefinition.

Definition PerformInitialSetup (g_providers : list ApiProvider) (G : Globals)
    (st : SetupDialogState) (err : wstring) : bool * wstring * Globals :=
  match g_providers with
  | [] => (false, L "No providers", G)
  | _ :: _ =>
      match nth_error g_providers (st_providerIndex st) with
      | None => (false, L "Invalid provider selection", G)
      | Some provider =>
          let r := FetchModels RegexMatchNoCase WinHttp parse_failure type_mismatch provider
                               (st_serverUrl st) (st_apiKey st) [] err in
          let err := fetch_err r in
          if negb (fetch_ok r) then (false, err, G)
          else
            match fetch_models r with
            | [] => (false, L "No models", G)
            | front :: _ =>
                let modelList := fetch_models r in
                let pick patterns :=
                  let p := PickModelByPatterns RegexMatchNoCase modelList patterns in
                  if WString.empty p then front else p in
                let tt := pick patternsLLM in
                let it := pick patternsLLM in
                let ti := pick patternsImage in
                let ii := pick patternsImage in
                let addModel name modelName :=
                  {| name := name; serverUrl := st_serverUrl st; modelName := modelName;
                     apiKey := st_apiKey st; providerId := prov_id provider |} in
                let models := [addModel (L "Text/Text") tt; addModel (L "Text/Image") ti;
                               addModel (L "Image/Text") it;
                               addModel (L "Image/Image") ii] in
                let language := if WString.empty (st_languageCode st) then g_language G
                                else st_languageCode st in
                let language := match def_language with
                                | Some l => l
                                | None => language
                                end in
                let filters := LoadFiltersFromJson_def (g_filters G) in
                let filters :=
                  match filters with
                  | [] => [{| flt_title := L "Translate"; flt_input := Text;
                               flt_output := Text; flt_modelIndex := 0;
                               flt_prompt := L "Translate into English." |}]
                  | _ :: _ => filters
                  end in
                let filters :=
                  map (fun f =>
                         let idx := idxFor (flt_input f) (flt_output f) in
                         let idx := if length models <=? idx then 0 else idx in
                         with_modelIndex f idx) filters in
                let modifiers := 0%N in
                let modifiers := if st_shift st then N.lor modifiers MOD_SHIFT
                                 else modifiers in
                let modifiers := if st_ctrl st then N.lor modifiers MOD_CONTROL
                                 else modifiers in
                let modifiers := if st_alt st then N.lor modifiers MOD_ALT else modifiers in
                let modifiers := if st_win st then N.lor modifiers MOD_WIN else modifiers in
                (true, err,
                 {| g_models := EnsureModelProviders g_providers models;
                    g_filters := filters;
                    g_language := language;
                    g_hotkeyModifiers := modifiers;
                    g_hotkeyKey := st_vkCode st |})
            end
      end
  end.

End PerformInitialSetup.

(** The name [PerformInitialSetup] gives the model for one kind of filter. *)
Definition kind_name (input output : IOType) : wstring :=
  match input, output with
  | Text, Text => L "Text/Text"
  | Text, Image => L "Text/Image"
  | Image, Text => L "Image/Text"
  | Image, Image => L "Image/Image"
  end.

Definition demo_setup : SetupDialogState :=
  {| st_languageCode := L "ja"; st_shift := true; st_ctrl := false; st_alt := true;
     st_win := false; st_vkCode := 86; st_providerIndex := 0;
     st_serverUrl := L "https://api.example.com"; st_apiKey := L "k" |}.

Definition demo_globals : Globals :=
  {| g_models := []; g_filters := []; g_language := L "en";
     g_hotkeyModifiers := 9; g_hotkeyKey := 86 |}.

(* ================================================================== *)
(** ** Hotkey names

    The virtual-key codes are those of [winuser.h]. *)

Definition VK_LBUTTON : N := 1.
Definition VK_RBUTTON : N := 2.
Definition VK_MBUTTON : N := 4.
Definition VK_BACK : N := 8.
Definition VK_TAB : N := 9.
Definition VK_RETURN : N := 13.
Definition VK_SHIFT : N := 16.
Definition VK_CONTROL : N := 17.
Definition VK_MENU : N := 18.
Definition VK_PAUSE : N := 19.
Definition VK_ESCAPE : N := 27.
Definition VK_SPACE : N := 32.
Definition VK_PRIOR : N := 33.
Definition VK_NEXT : N := 34.
Definition VK_END : N := 35.
Definition VK_HOME : N := 36.
Definition VK_LEFT : N := 37.
Definition VK_UP : N := 38.
Definition VK_RIGHT : N := 39.
Definition VK_DOWN : N := 40.
Definition VK_SNAPSHOT : N := 44.
Definition VK_INSERT : N := 45.
Definition VK_DELETE : N := 46.
Definition VK_LWIN : N := 91.
Definition VK_RWIN : N := 92.
Definition VK_NUMPAD0 : N := 96.
Definition VK_NUMPAD9 : N := 105.
Definition VK_MULTIPLY : N := 106.
Definition VK_ADD : N := 107.
Definition VK_SUBTRACT : N := 109.
Definition VK_DIVIDE : N := 111.
Definition VK_F1 : N := 112.
Definition VK_F12 : N := 123.
Definition VK_F24 : N := 135.

(** The cases of the [switch] of [VKCodeToString], in its order. *)
Definition VKCodeToString_switch : list (N * wstring) :=
  [ (VK_RETURN, L "Enter"); (VK_ESCAPE, L "Escape"); (VK_TAB, L "Tab");
    (VK_SPACE, L "Space"); (VK_BACK, L "Backspace"); (VK_DELETE, L "Delete");
    (VK_INSERT, L "Insert"); (VK_HOME, L "Home"); (VK_END, L "End");
    (VK_PRIOR, L "PageUp"); (VK_NEXT, L "PageDown"); (VK_UP, L "Up");
    (VK_DOWN, L "Down"); (VK_LEFT, L "Left"); (VK_RIGHT, L "Right");
    (VK_SNAPSHOT, L "PrintScreen"); (VK_PAUSE, L "Pause"); (VK_ADD, L "NumPad+");
    (VK_SUBTRACT, L "NumPad-"); (VK_MULTIPLY, L "NumPad*"); (VK_DIVIDE, L "NumPad/");
    (VK_LBUTTON, L "LeftButton"); (VK_RBUTTON, L "RightButton");
    (VK_MBUTTON, L "MiddleButton") ].

Definition VKCodeToString (vk modifiers : N) : wstring :=
  let result := [] in
  let result := if N.eqb (N.land modifiers MOD_SHIFT) 0 then result
                else result ++ L "Shift + " in
  let result := if N.eqb (N.land modifiers MOD_CONTROL) 0 then result
                else result ++ L "Ctrl + " in
  let result := if N.eqb (N.land modifiers MOD_ALT) 0 then result
                else result ++ L "Alt + " in
  let result := if N.eqb (N.land modifiers MOD_WIN) 0 then result
                else result ++ L "Win + " in
  if (wc "A" <=? vk)%N && (vk <=? wc "Z")%N then result ++ [vk]
  else if (wc "0" <=? vk)%N && (vk <=? wc "9")%N then result ++ [vk]
  else if (VK_F1 <=? vk)%N && (vk <=? VK_F12)%N
       then result ++ L "F" ++ to_wstring (vk - VK_F1 + 1)
  else if (VK_NUMPAD0 <=? vk)%N && (vk <=? VK_NUMPAD9)%N
       then result ++ L "NumPad" ++ to_wstring (vk - VK_NUMPAD0)
  else match find (fun kv => N.eqb vk (fst kv)) VKCodeToString_switch with
       | Some kv => result ++ snd kv
       | None => result ++ L "Key" ++ to_wstring vk
       end.

Definition IsValidHotkeyVK (vk : N) : bool :=
  if N.eqb vk VK_LBUTTON || N.eqb vk VK_RBUTTON || N.eqb vk VK_MBUTTON then false
  else if N.eqb vk VK_SHIFT || N.eqb vk VK_CONTROL || N.eqb vk VK_MENU
          || N.eqb vk VK_LWIN || N.eqb vk VK_RWIN then false
  else if ((wc "A" <=? vk)%N && (vk <=? wc "Z")%N)
          || ((wc "0" <=? vk)%N && (vk <=? wc "9")%N) then true
  else if (VK_F1 <=? vk)%N && (vk <=? VK_F24)%N then true
  else if (VK_NUMPAD0 <=? vk)%N && (vk <=? VK_DIVIDE)%N then true
  else existsb (N.eqb vk)
         [VK_RETURN; VK_ESCAPE; VK_TAB; VK_SPACE; VK_BACK; VK_DELETE; VK_INSERT;
          VK_HOME; VK_END; VK_PRIOR; VK_NEXT; VK_UP; VK_DOWN; VK_LEFT; VK_RIGHT;
          VK_SNAPSHOT; VK_PAUSE].

(** The codes below 256, and the modifier sets. *)
Definition key_codes : list N := map N.of_nat (seq 0 256).
Definition modifier_sets : list N := map N.of_nat (seq 0 16).

(** The key has no name of its own: it is shown as [Key] and its number. *)
Definition unnamed (vk : N) : bool :=
  WString.eqb (VKCodeToString vk 0) (L "Key" ++ to_wstring vk).

(** The valid keys without a name of their own: the separator and decimal
    keys of the number pad and F13 to F24. *)
Definition gap_key (vk : N) : bool :=
  N.eqb vk 108 || N.eqb vk 110 || ((124 <=? vk)%N && (vk <=? 135)%N).

(** With the modifiers [modifiers], no two keys are shown alike. *)
Definition names_apart (modifiers : N) : bool :=
  let names := map (fun vk => (vk, VKCodeToString vk modifiers)) key_codes in
  forallb (fun a =>
             forallb (fun b => implb (WString.eqb (snd a) (snd b))
                                     (N.eqb (fst a) (fst b))) names) names.

(** The codes [IsValidHotkeyVK] accepts, as ranges: letters, digits, the
    number pad with its operators, F1 to F24, and the named keys. *)
Definition hotkey_code (vk : N) : bool :=
  ((65 <=? vk)%N && (vk <=? 90)%N) || ((48 <=? vk)%N && (vk <=? 57)%N)
  || ((96 <=? vk)%N && (vk <=? 135)%N)
  || existsb (N.eqb vk) [8; 9; 13; 19; 27; 32; 33; 34; 35; 36; 37; 38; 39; 40; 44; 45; 46]%N.

(* ================================================================== *)
(** ** Definitions for the statements on a whole run *)

(** Wherever [text] holds [needle] in some letter case, it holds it as it
    is written. *)
Definition spelled_as (text needle : wstring) : bool :=
  forallb (fun j => implb (WString.starts_with (toLow needle) (toLow (skipn j text)))
                          (WString.starts_with needle (skipn j text)))
          (seq 0 (S (length text))).

(** What a run has in hand when the acquisition for the input kind
    succeeds: the clipboard text, which is not empty, or the encoded
    clipboard bitmap. *)
Definition acquires (plat : Platform) (input : IOType) (textInput imageB64 : wstring)
    : Prop :=
  match input with
  | Text => GetClipboardText plat = textInput /\ WString.empty textInput = false
            /\ imageB64 = []
  | Image => textInput = []
             /\ exists bmp, GetClipboardBitmap plat = Some bmp
                            /\ BitmapToBase64Png plat bmp = Some imageB64
  end.

(** The clipboard writes of a run, as its result decides them. *)
Definition writes_of (output : IOType) (res : ApiCallResult) : list Event :=
  match output with
  | Text => if WString.empty (res_text res) then [] else [EvSetClipboardText (res_text res)]
  | Image => match res_image res with
             | Some image => [EvSetClipboardBitmap image]
             | None => []
             end
  end.

(** The bitmaps handed to [DeleteObject] and to [BitmapToBase64Png], in
    order. *)
Fixpoint deleted_bitmaps (ev : list Event) : list HBITMAP :=
  match ev with
  | [] => []
  | EvDeleteObject bmp :: r => bmp :: deleted_bitmaps r
  | _ :: r => deleted_bitmaps r
  end.

Fixpoint encoded_bitmaps (ev : list Event) : list HBITMAP :=
  match ev with
  | [] => []
  | EvBitmapToBase64Png bmp :: r => bmp :: encoded_bitmaps r
  | _ :: r => encoded_bitmaps r
  end.

(** A template that sends the key of the model in a header. *)
Definition keyed_template : TemplateDefinition :=
  {| tpl_id := L "text-text"; tpl_providerId := L "demo";
     tpl_input := Text; tpl_output := Text;
     tpl_endpoint := L "/v1/chat/completions"; tpl_resultPath := L "choices[0].message.content";
     tpl_headers := [(L "Authorization", L "Bearer <<api_key>>")];
     tpl_payload := L "<<prompt>>" |}.

Definition keyed_provider : ApiProvider :=
  {| prov_id := L "demo"; prov_defaultEndpoint := L "https://api.example.com";
     prov_templates := [keyed_template];
     prov_modelsEndpoint := []; prov_modelsMethod := []; prov_modelsHeaders := [];
     prov_modelsPayload := []; prov_modelsResultPath := [] |}.

(** [image_platform] with a [SetClipboardBitmap] that succeeds. *)
Definition image_platform_ok : Platform :=
  {| GetClipboardText := [];
     GetClipboardBitmap := Some 7%N;
     BitmapToBase64Png := fun _ => Some (L "QUJD");
     Base64ToBitmap := fun _ => Some 9%N;
     CryptStringToBinary := decode_demo;
     WinHttp := fun _ => http_answer 200 (Q "{'data':[{'id':'x','b64_json':'QUJD'}]}");
     SetClipboardText := fun _ => None;
     SetClipboardBitmap := fun _ => None |}.

(** A provider whose list of models is read with POST. *)
Definition posting_provider : ApiProvider :=
  {| prov_id := L "demo"; prov_defaultEndpoint := L "https://api.example.com";
     prov_templates := [demo_template];
     prov_modelsEndpoint := L "/v1/models"; prov_modelsMethod := L "Post";
     prov_modelsHeaders := []; prov_modelsPayload := L "{}";
     prov_modelsResultPath := L "data" |}.

(* ================================================================== *)
(** * Properties *)

(** ** Facts about [std::wstring] searches *)

Lemma starts_with_app (p s : wstring) : WString.starts_with p (p ++ s) = true.
Proof.
  induction p as [|x p IH]; simpl; [reflexivity|].
  now rewrite N.eqb_refl, IH.
Qed.

Lemma starts_with_split (p s : wstring) :
  WString.starts_with p s = true -> s = p ++ skipn (length p) s.
Proof.
  revert s; induction p as [|x p IH]; intros s H; simpl in *; [reflexivity|].
  destruct s as [|y s]; [discriminate|].
  apply andb_true_iff in H as [Hxy Hp].
  apply N.eqb_eq in Hxy; subst y.
  simpl. f_equal. now apply IH.
Qed.

Lemma starts_with_length (p s : wstring) :
  WString.starts_with p s = true -> length p <= length s.
Proof.
  intros H. rewrite (starts_with_split _ _ H), length_app. lia.
Qed.

Lemma find_at_shift (rest needle : wstring) (p : nat) :
  WString.find_at rest needle p =
  option_map (fun q => p + q) (WString.find_at rest needle 0).
Proof.
  revert p; induction rest as [|c rest IH]; intros p; simpl.
  - destruct (WString.starts_with needle []); simpl; [f_equal; lia|reflexivity].
  - destruct (WString.starts_with needle (c :: rest)); simpl; [f_equal; lia|].
    rewrite (IH (S p)), (IH 1).
    destruct (WString.find_at rest needle 0); simpl; [f_equal; lia|reflexivity].
Qed.

(** What a successful search returns: an index at which [needle] is. *)
Lemma find_at_Some (rest needle : wstring) (q : nat) :
  WString.find_at rest needle 0 = Some q ->
  WString.starts_with needle (skipn q rest) = true /\ q + length needle <= length rest.
Proof.
  revert q; induction rest as [|c rest IH]; intros q; simpl.
  - destruct (WString.starts_with needle []) eqn:E; [|discriminate].
    intros [= <-]. simpl. split; [exact E|]. apply starts_with_length in E. simpl in E. lia.
  - destruct (WString.starts_with needle (c :: rest)) eqn:E.
    + intros [= <-]. simpl. split; [exact E|].
      apply starts_with_length in E. simpl in E. lia.
    + rewrite find_at_shift.
      destruct (WString.find_at rest needle 0) as [q'|] eqn:F; simpl; [|discriminate].
      intros [= <-]. destruct (IH q' eq_refl) as [H1 H2]. simpl. split; [exact H1|lia].
Qed.

Lemma find_shift (s needle : wstring) (pos : nat) :
  pos <= length s ->
  WString.find s needle pos =
  option_map (fun q => pos + q) (WString.find (skipn pos s) needle 0).
Proof.
  intros H. unfold WString.find.
  destruct (Nat.leb_spec pos (length s)) as [_|]; [|lia].
  simpl. rewrite find_at_shift.
  destruct (WString.find_at (skipn pos s) needle 0); reflexivity.
Qed.

Lemma find_0 (s needle : wstring) :
  WString.find s needle 0 = WString.find_at s needle 0.
Proof. reflexivity. Qed.

Lemma find_Some (s needle : wstring) (q : nat) :
  WString.find s needle 0 = Some q ->
  s = firstn q s ++ needle ++ skipn (q + length needle) s /\ q + length needle <= length s.
Proof.
  rewrite find_0. intros H. destruct (find_at_Some _ _ _ H) as [H1 H2]. split; [|exact H2].
  apply starts_with_split in H1. rewrite skipn_skipn in H1.
  rewrite <- (firstn_skipn q s) at 1. f_equal.
  rewrite H1 at 1. f_equal. f_equal. lia.
Qed.

(** ** [ReplaceAll] terminates and replaces from left to right *)

Lemma replace_firstn (s to : wstring) (q n : nat) :
  q <= length s ->
  firstn (q + length to) (WString.replace s q n to) = firstn q s ++ to.
Proof.
  intros H. unfold WString.replace.
  rewrite app_assoc, firstn_app.
  rewrite length_app, length_firstn, Nat.min_l by exact H.
  replace (q + length to - (q + length to)) with 0 by lia.
  rewrite firstn_all2 by (rewrite length_app, length_firstn; lia).
  simpl. now rewrite app_nil_r.
Qed.

Lemma replace_skipn (s to : wstring) (q n : nat) :
  q <= length s ->
  skipn (q + length to) (WString.replace s q n to) = skipn (q + n) s.
Proof.
  intros H. unfold WString.replace.
  rewrite app_assoc, skipn_app.
  rewrite length_app, length_firstn, Nat.min_l by exact H.
  replace (q + length to - (q + length to)) with 0 by lia.
  rewrite skipn_all2 by (rewrite length_app, length_firstn; lia).
  reflexivity.
Qed.

Lemma replace_length (s to : wstring) (q n : nat) :
  q + n <= length s ->
  length (WString.replace s q n to) = length s - n + length to.
Proof.
  intros H. unfold WString.replace.
  rewrite !length_app, length_firstn, length_skipn. lia.
Qed.

(** The loop started at [pos] leaves the first [pos] code units alone and
    works on the rest as a loop started at 0 does. *)
Lemma ReplaceAll_loop_shift (fuel : nat) (s from to : wstring) (pos : nat) :
  pos <= length s ->
  ReplaceAll_loop fuel s from to pos =
  firstn pos s ++ ReplaceAll_loop fuel (skipn pos s) from to 0.
Proof.
  revert s pos; induction fuel as [|fuel IH]; intros s pos Hpos; simpl.
  - now rewrite firstn_skipn.
  - rewrite (find_shift s from pos Hpos).
    destruct (WString.find (skipn pos s) from 0) as [q|] eqn:F; simpl.
    + destruct (find_Some _ _ _ F) as [_ Hq]. rewrite length_skipn in Hq.
      assert (L1 : length (WString.replace s (pos + q) (length from) to)
                   = length s - length from + length to)
        by (apply replace_length; lia).
      assert (L2 : length (WString.replace (skipn pos s) q (length from) to)
                   = length s - pos - length from + length to)
        by (rewrite replace_length; rewrite length_skipn; lia).
      rewrite (IH (WString.replace s (pos + q) (length from) to) (pos + q + length to))
        by lia.
      rewrite (IH (WString.replace (skipn pos s) q (length from) to) (q + length to))
        by lia.
      rewrite !replace_firstn, !replace_skipn by (rewrite ?length_skipn; lia).
      rewrite skipn_skipn, app_assoc. f_equal.
      * rewrite app_assoc. f_equal.
        rewrite <- (firstn_skipn pos (firstn (pos + q) s)) at 1.
        rewrite firstn_firstn, Nat.min_l by lia.
        f_equal. rewrite skipn_firstn_comm. f_equal. lia.
      * f_equal. f_equal. lia.
    + now rewrite firstn_skipn.
Qed.

Lemma ReplaceAll_loop_step (fuel : nat) (s from to : wstring) :
  ReplaceAll_loop (S fuel) s from to 0 =
  match WString.find s from 0 with
  | None => s
  | Some p => firstn p s ++ to ++
              ReplaceAll_loop fuel (skipn (p + length from) s) from to 0
  end.
Proof.
  simpl. destruct (WString.find s from 0) as [p|] eqn:F; [|reflexivity].
  destruct (find_Some _ _ _ F) as [_ Hp].
  rewrite ReplaceAll_loop_shift by (rewrite replace_length; lia).
  rewrite replace_firstn, replace_skipn by lia.
  now rewrite <- app_assoc.
Qed.

(** With a non-empty [from], any fuel above the length of the string gives
    the same result: the loop has ended before the fuel runs out. *)
Lemma ReplaceAll_loop_fuel (from to : wstring) (fuel1 fuel2 : nat) (s : wstring) :
  from <> [] -> length s < fuel1 -> length s < fuel2 ->
  ReplaceAll_loop fuel1 s from to 0 = ReplaceAll_loop fuel2 s from to 0.
Proof.
  intros Hfrom. revert fuel2 s.
  induction fuel1 as [|fuel1 IH]; intros fuel2 s H1 H2; [lia|].
  destruct fuel2 as [|fuel2]; [lia|].
  rewrite !ReplaceAll_loop_step.
  destruct (WString.find s from 0) as [p|] eqn:F; [|reflexivity].
  destruct (find_Some _ _ _ F) as [_ Hp].
  assert (0 < length from) by (destruct from; [congruence|simpl; lia]).
  f_equal. f_equal. apply IH; rewrite length_skipn; lia.
Qed.

(** [ReplaceAll] replaces the first occurrence and goes on behind it; what
    it has put in is not searched again. *)
Lemma ReplaceAll_unfold (s from to : wstring) :
  from <> [] ->
  ReplaceAll s from to =
  match WString.find s from 0 with
  | None => s
  | Some p => firstn p s ++ to ++ ReplaceAll (skipn (p + length from) s) from to
  end.
Proof.
  intros Hfrom. unfold ReplaceAll. rewrite ReplaceAll_loop_step.
  destruct (WString.find s from 0) as [p|] eqn:F; [|reflexivity].
  destruct (find_Some _ _ _ F) as [_ Hp].
  assert (0 < length from) by (destruct from; [congruence|simpl; lia]).
  f_equal. f_equal. apply ReplaceAll_loop_fuel; [exact Hfrom| |]; rewrite ?length_skipn; lia.
Qed.

Lemma ReplaceAll_absent (s from to : wstring) :
  WString.find s from 0 = None -> ReplaceAll s from to = s.
Proof.
  intros H. unfold ReplaceAll. simpl. now rewrite H.
Qed.

Lemma find_absent_char (s needle : wstring) (c : wchar_t) :
  ~ In c s -> WString.find s (c :: needle) 0 = None.
Proof.
  rewrite find_0. induction s as [|x s IH]; intros H; simpl; [reflexivity|].
  destruct (N.eqb_spec c x) as [->|_]; [exfalso; apply H; now left|].
  simpl. rewrite find_at_shift, IH; [reflexivity|].
  intros Hin. apply H. now right.
Qed.

Lemma JsonEscape_char_lt (c : wchar_t) : In LT (JsonEscape_char c) -> c = LT.
Proof.
  unfold JsonEscape_char.
  repeat match goal with
         | |- context [N.eqb c ?k] => destruct (N.eqb_spec c k)
         end; simpl; intros H;
  repeat match goal with
         | H : _ \/ _ |- _ => destruct H
         | H : False |- _ => destruct H
         end; try discriminate; congruence.
Qed.

Lemma JsonEscape_lt (s : wstring) : ~ In LT s -> ~ In LT (JsonEscape s).
Proof.
  intros H Hin. unfold JsonEscape in Hin. apply in_flat_map in Hin as [c [Hc Hlt]].
  apply JsonEscape_char_lt in Hlt. subst c. exact (H Hc).
Qed.

(** ** Placeholder substitution *)

(** The seven replacements are done one after the other, each on the whole
    of what the one before has produced. *)
Lemma ReplacePlaceholders_sequential (src : wstring) (m : ModelConfig)
    (systemPrompt prompt imageB64 imageDataUrl : wstring) (jsonEsc : bool) :
  ReplacePlaceholders src m systemPrompt prompt imageB64 imageDataUrl jsonEsc =
  fold_left (fun out tv => ReplaceAll out (fst tv)
                             (if jsonEsc then JsonEscape (snd tv) else snd tv))
            (placeholder_tokens m systemPrompt prompt imageB64 imageDataUrl) src.
Proof. reflexivity. Qed.

(** A prompt that is the token of the API key is rendered as the key. *)
Lemma ReplacePlaceholders_prompt_is_key (m : ModelConfig)
    (systemPrompt imageB64 imageDataUrl k : wstring) :
  ~ In LT k ->
  ReplacePlaceholders (L "<<prompt>>") (with_apiKey m k) systemPrompt (L "<<api_key>>")
                      imageB64 imageDataUrl true = JsonEscape k.
Proof.
  intros Hk. unfold ReplacePlaceholders. cbn [modelName apiKey with_apiKey].
  rewrite (ReplaceAll_absent (L "<<prompt>>") (L "<<model>>")) by reflexivity.
  rewrite (ReplaceAll_absent (L "<<prompt>>") (L "<<system_prompt>>")) by reflexivity.
  assert (E : ReplaceAll (L "<<prompt>>") (L "<<prompt>>") (JsonEscape (L "<<api_key>>"))
              = L "<<api_key>>") by (vm_compute; reflexivity).
  rewrite E; clear E.
  rewrite (ReplaceAll_absent (L "<<api_key>>") (L "<<input_text>>")) by reflexivity.
  assert (E : ReplaceAll (L "<<api_key>>") (L "<<api_key>>") (JsonEscape k) = JsonEscape k).
  { rewrite ReplaceAll_unfold by discriminate.
    change (WString.find (L "<<api_key>>") (L "<<api_key>>") 0) with (Some 0).
    cbv beta iota.
    change (skipn (0 + length (L "<<api_key>>")) (L "<<api_key>>")) with (@nil wchar_t).
    rewrite (ReplaceAll_absent []) by reflexivity.
    simpl. apply app_nil_r. }
  rewrite E; clear E.
  apply JsonEscape_lt in Hk.
  rewrite (ReplaceAll_absent (JsonEscape k) (L "<<image_url>>"))
    by (apply (find_absent_char _ _ LT); exact Hk).
  apply ReplaceAll_absent. apply (find_absent_char _ _ LT); exact Hk.
Qed.

(** C10.  The tokens are replaced one after the other in a fixed order, each
    over the whole intermediate string, so a token brought in by an earlier
    value is replaced by a later step: a prompt that is the literal
    [<<api_key>>] is rendered as the (escaped) API key although the payload
    template has no such token, and a filter run whose clipboard text is
    that token sends the key in the request body, so that two runs that
    differ in the key alone send different payloads. *)
Theorem ReplacePlaceholders_not_injection_safe :
  (forall src m systemPrompt prompt imageB64 imageDataUrl jsonEsc,
      ReplacePlaceholders src m systemPrompt prompt imageB64 imageDataUrl jsonEsc =
      fold_left (fun out tv => ReplaceAll out (fst tv)
                                 (if jsonEsc then JsonEscape (snd tv) else snd tv))
                (placeholder_tokens m systemPrompt prompt imageB64 imageDataUrl) src)
  /\ Contains (tpl_payload demo_template) (L "<<api_key>>") = false
  /\ (forall m systemPrompt imageB64 imageDataUrl k,
         existsb (N.eqb LT) k = false ->
         BuildBodyFromTemplate demo_template (with_apiKey m k) systemPrompt
                               (L "<<api_key>>") imageB64 imageDataUrl = JsonEscape k)
  /\ (forall k1 k2,
         existsb (N.eqb LT) k1 = false -> existsb (N.eqb LT) k2 = false -> k1 <> k2 ->
         BuildBodyFromTemplate demo_template (demo_model k1) (systemPrompt_of demo_filter)
                               (L "<<api_key>>") [] [] <>
         BuildBodyFromTemplate demo_template (demo_model k2) (systemPrompt_of demo_filter)
                               (L "<<api_key>>") [] [])
  /\ (exists ret ev,
         RunFilter (demo_platform (L "<<api_key>>") 200 (L "x"))
                   [demo_model (L "sk-SECRET-1")] [demo_provider] demo_filter
         = Some (ret, ev)
         /\ map req_body (http_requests ev) = [B "\n\nsk-SECRET-1"]).
Proof.
  assert (NoLt : forall k, existsb (N.eqb LT) k = false -> ~ In LT k).
  { intros k Hk Hin.
    assert (existsb (N.eqb LT) k = true); [|congruence].
    apply existsb_exists. exists LT. split; [exact Hin|apply N.eqb_refl]. }
  assert (Body : forall m systemPrompt imageB64 imageDataUrl k,
             existsb (N.eqb LT) k = false ->
             BuildBodyFromTemplate demo_template (with_apiKey m k) systemPrompt
                                   (L "<<api_key>>") imageB64 imageDataUrl = JsonEscape k).
  { intros. unfold BuildBodyFromTemplate. cbn [tpl_payload demo_template].
    apply ReplacePlaceholders_prompt_is_key. now apply NoLt. }
  split; [intros; apply ReplacePlaceholders_sequential|].
  split; [vm_compute; reflexivity|].
  split; [exact Body|].
  split.
  - intros k1 k2 H1 H2 Hne.
    change (demo_model k1) with (with_apiKey (demo_model []) k1).
    change (demo_model k2) with (with_apiKey (demo_model []) k2).
    rewrite !Body by assumption.
    intros E. apply Hne. clear - E.
    revert k2 E. induction k1 as [|c k1 IH]; intros [|d k2] E.
    + reflexivity.
    + exfalso. revert E. unfold JsonEscape. simpl. unfold JsonEscape_char.
      repeat match goal with
             | |- context [N.eqb d ?k] => destruct (N.eqb d k)
             end; discriminate.
    + exfalso. revert E. unfold JsonEscape. simpl. unfold JsonEscape_char.
      repeat match goal with
             | |- context [N.eqb c ?k] => destruct (N.eqb c k)
             end; discriminate.
    + revert E. unfold JsonEscape. simpl. fold (JsonEscape k1) (JsonEscape k2).
      unfold JsonEscape_char.
      repeat match goal with
             | |- context [N.eqb c ?k] => destruct (N.eqb_spec c k)
             end;
      repeat match goal with
             | |- context [N.eqb d ?k] => destruct (N.eqb_spec d k)
             end; simpl; intros E; inversion E; subst;
      try (f_equal; now apply IH); try congruence;
      try (exfalso; unfold BACKSLASH, DQUOTE, wc in *; simpl in *; congruence).
  - eexists. eexists. split; vm_compute; reflexivity.
Qed.

(** ** Endpoint resolution *)

Lemma find_char_app (h t : wstring) (c : wchar_t) :
  ~ In c h -> WString.find (h ++ c :: t) [c] 0 = Some (length h).
Proof.
  rewrite find_0. induction h as [|x h IH]; intros H; simpl.
  - now rewrite N.eqb_refl.
  - destruct (N.eqb_spec c x) as [->|_]; [exfalso; apply H; now left|].
    simpl. rewrite find_at_shift, IH; [reflexivity|].
    intros Hin. apply H. now right.
Qed.

Lemma find_char_Some (s : wstring) (c : wchar_t) (k : nat) :
  WString.find s [c] 0 = Some k ->
  s = firstn k s ++ c :: skipn (S k) s /\ ~ In c (firstn k s).
Proof.
  rewrite find_0. revert k. induction s as [|x s IH]; intros k; simpl; [discriminate|].
  destruct (N.eqb_spec c x) as [->|Hne]; simpl.
  - intros [= <-]. simpl. split; [reflexivity|tauto].
  - rewrite find_at_shift.
    destruct (WString.find_at s [c] 0) as [k'|] eqn:F; simpl; [|discriminate].
    intros [= <-]. destruct (IH k' eq_refl) as [H1 H2]. simpl. split.
    + f_equal. exact H1.
    + intros [E|Hin]; [congruence|exact (H2 Hin)].
Qed.

Lemma is_absolute_default : is_absolute (L "/v1/chat/completions") = false.
Proof. reflexivity. Qed.


Lemma normalize_path (p : wstring) :
  (if negb (WString.empty p) && negb (match WString.front p with
                                      | Some c => N.eqb c SLASH
                                      | None => false
                                      end)
   then L "/" ++ p else p) =
  match p with
  | [] => []
  | ch :: _ => if N.eqb ch SLASH then p else SLASH :: p
  end.
Proof.
  destruct p as [|ch p]; simpl; [reflexivity|]. now destruct (N.eqb ch SLASH).
Qed.

Lemma empty_or_self (p : wstring) : (if WString.empty p then [] else p) = p.
Proof. now destruct p. Qed.

(** [PrepareEndpoint] in terms of the string that carries the host. *)
Lemma PrepareEndpoint_carrier (serverUrl tplPath : wstring) (useHttps : bool) :
  PrepareEndpoint serverUrl tplPath useHttps =
  let c := carrier serverUrl tplPath in
  let rest := if is_absolute (effective_fragment tplPath) then []
              else effective_fragment tplPath in
  let host0 := strip_scheme c in
  let secure := if WString.starts_with (L "https://") c then true
                else if WString.starts_with (L "http://") c then false else useHttps in
  let hp :=
    match WString.find host0 [SLASH] 0 with
    | Some slash => (firstn slash host0, skipn slash host0 ++ rest)
    | None => (host0, rest)
    end in
  let path := match snd hp with
              | [] => []
              | ch :: _ => if N.eqb ch SLASH then snd hp else SLASH :: snd hp
              end in
  {| ep_valid := negb (WString.empty (fst hp)); ep_host := fst hp; ep_path := path;
     ep_useHttps := secure |}.
Proof.
  unfold PrepareEndpoint, carrier, strip_scheme, is_absolute, effective_fragment.
  set (frag := if WString.empty tplPath then L "/v1/chat/completions" else tplPath).
  unfold WString.substr_from, WString.substr.
  change (skipn 0) with (fun x : wstring => x).
  cbv beta zeta.
  destruct (WString.starts_with (L "http://") frag || WString.starts_with (L "https://") frag).
  - destruct (WString.starts_with (L "https://") frag),
             (WString.starts_with (L "http://") frag);
    match goal with
    | |- context [WString.find ?h [SLASH] 0] =>
        destruct (WString.find h [SLASH] 0) as [k|]
    end; rewrite normalize_path; cbn [fst snd WString.empty]; reflexivity.
  - destruct (WString.starts_with (L "https://") serverUrl),
             (WString.starts_with (L "http://") serverUrl);
    match goal with
    | |- context [WString.find ?h [SLASH] 0] =>
        destruct (WString.find h [SLASH] 0) as [k|]
    end; rewrite normalize_path, ?empty_or_self; cbn [fst snd]; reflexivity.
Qed.



Lemma PrepareEndpoint_host_path (serverUrl tplPath : wstring) (useHttps : bool)
    (h t : wstring) :
  strip_scheme (carrier serverUrl tplPath) = h ++ SLASH :: t -> ~ In SLASH h ->
  ep_host (PrepareEndpoint serverUrl tplPath useHttps) = h /\
  ep_path (PrepareEndpoint serverUrl tplPath useHttps) =
    (SLASH :: t) ++ (if is_absolute (effective_fragment tplPath) then []
                     else effective_fragment tplPath).
Proof.
  intros E Hh. rewrite PrepareEndpoint_carrier. cbv zeta. rewrite E.
  rewrite (find_char_app h t SLASH Hh). cbn [fst snd ep_host ep_path].
  rewrite firstn_app, firstn_all, Nat.sub_diag, skipn_app, skipn_all, Nat.sub_diag.
  simpl. rewrite app_nil_r. split; reflexivity.
Qed.





(** Where the server base has no path of its own, a fragment gives the same
    endpoint with and without its leading slash. *)
Lemma PrepareEndpoint_leading_slash_bare_host (serverUrl fragment : wstring)
    (useHttps : bool) :
  fragment <> [] -> hd_error fragment <> Some SLASH -> is_absolute fragment = false ->
  ~ In SLASH (strip_scheme serverUrl) ->
  PrepareEndpoint serverUrl fragment useHttps =
  PrepareEndpoint serverUrl (SLASH :: fragment) useHttps.
Proof.
  intros Hne Hhd Habs Hbare. rewrite !PrepareEndpoint_carrier. unfold carrier.
  assert (E1 : effective_fragment fragment = fragment)
    by (unfold effective_fragment; destruct fragment; [congruence|reflexivity]).
  assert (E2 : effective_fragment (SLASH :: fragment) = SLASH :: fragment) by reflexivity.
  assert (A2 : is_absolute (SLASH :: fragment) = false) by reflexivity.
  rewrite E1, E2, Habs, A2. cbv zeta.
  rewrite (find_absent_char _ [] SLASH Hbare). cbn [fst snd].
  destruct fragment as [|c f]; [congruence|].
  destruct (N.eqb_spec c SLASH) as [->|_]; [exfalso; now apply Hhd|].
  reflexivity.
Qed.

(** Where the server base has a path, the two paths differ: the fragment
    without the slash is glued to the last segment of the base path. *)
Lemma PrepareEndpoint_leading_slash_base_path (serverUrl fragment h t : wstring)
    (useHttps : bool) :
  fragment <> [] -> hd_error fragment <> Some SLASH -> is_absolute fragment = false ->
  strip_scheme serverUrl = h ++ SLASH :: t -> ~ In SLASH h ->
  ep_path (PrepareEndpoint serverUrl fragment useHttps) = (SLASH :: t) ++ fragment /\
  ep_path (PrepareEndpoint serverUrl (SLASH :: fragment) useHttps)
  = (SLASH :: t) ++ SLASH :: fragment /\
  ep_path (PrepareEndpoint serverUrl fragment useHttps) <>
  ep_path (PrepareEndpoint serverUrl (SLASH :: fragment) useHttps).
Proof.
  intros Hne Hhd Habs E Hh.
  assert (E1 : effective_fragment fragment = fragment)
    by (unfold effective_fragment; destruct fragment; [congruence|reflexivity]).
  assert (C1 : carrier serverUrl fragment = serverUrl)
    by (unfold carrier; now rewrite E1, Habs).
  assert (C2 : carrier serverUrl (SLASH :: fragment) = serverUrl) by reflexivity.
  destruct (PrepareEndpoint_host_path serverUrl fragment useHttps h t) as [_ P1];
    [now rewrite C1|exact Hh|].
  destruct (PrepareEndpoint_host_path serverUrl (SLASH :: fragment) useHttps h t)
    as [_ P2]; [now rewrite C2|exact Hh|].
  rewrite E1, Habs in P1. change (is_absolute _) with false in P2. cbv iota in P2.
  change (effective_fragment (SLASH :: fragment)) with (SLASH :: fragment) in P2.
  rewrite P1, P2. split; [reflexivity|]. split; [reflexivity|].
  intros Heq. apply app_inv_head in Heq.
  destruct fragment as [|c f]; [congruence|].
  injection Heq as -> _. now apply Hhd.
Qed.

(** C2.  With the server base [https://api.openai.com/v1] the fragments
    [v1/x] and [/v1/x] resolve to the same host and to different paths,
    [/v1v1/x] and [/v1/v1/x]. *)
Theorem PrepareEndpoint_leading_slash_not_invariant :
  let a := PrepareEndpoint (L "https://api.openai.com/v1") (L "v1/x") true in
  let b := PrepareEndpoint (L "https://api.openai.com/v1") (L "/v1/x") true in
  ep_host a = L "api.openai.com" /\ ep_host b = L "api.openai.com"
  /\ ep_path a = L "/v1v1/x" /\ ep_path b = L "/v1/v1/x"
  /\ WString.eqb (ep_path a) (ep_path b) = false.
Proof.
  cbv zeta. repeat split; vm_compute; reflexivity.
Qed.

(** ** The heuristic [content] scan *)

Lemma ExtractContent_scan_spec_bounded (n : nat) :
  forall s, length s <= n ->
            ExtractContent_scan s = unescape_n_quote (upto_unescaped_quote s false).
Proof.
  induction n as [|n IH]; intros s Hlen.
  - destruct s; [reflexivity|simpl in Hlen; lia].
  - destruct s as [|c r]; [reflexivity|]. simpl in Hlen.
    cbn [ExtractContent_scan upto_unescaped_quote negb]. rewrite andb_true_r.
    destruct (N.eqb_spec c DQUOTE) as [->|Hq]; [reflexivity|].
    destruct (N.eqb_spec c BACKSLASH) as [->|Hb].
    + destruct r as [|d r']; [reflexivity|]. simpl in Hlen.
      cbn [upto_unescaped_quote negb]. rewrite andb_false_r.
      cbn [unescape_n_quote]. change (N.eqb BACKSLASH BACKSLASH) with true. cbv iota.
      destruct (N.eqb_spec d (wc "n")) as [->|Hn].
      * change (N.eqb (wc "n") BACKSLASH) with false.
        f_equal. apply IH. lia.
      * destruct (N.eqb_spec d DQUOTE) as [->|Hd].
        -- change (N.eqb DQUOTE BACKSLASH) with false. f_equal. apply IH. lia.
        -- f_equal. rewrite (IH (d :: r')) by (simpl; lia).
           cbn [upto_unescaped_quote negb]. rewrite andb_true_r.
           destruct (N.eqb_spec d DQUOTE); [contradiction|]. reflexivity.
    + cbn [unescape_n_quote]. destruct (N.eqb_spec c BACKSLASH); [contradiction|].
      f_equal. apply IH. lia.
Qed.

(** The loop of [ExtractContent] reads up to the next quote that no
    backslash precedes and unescapes backslash-n and backslash-quote only. *)
Lemma ExtractContent_scan_spec (s : wstring) :
  ExtractContent_scan s = unescape_n_quote (upto_unescaped_quote s false).
Proof. apply (ExtractContent_scan_spec_bounded (length s)). lia. Qed.

(** A search returns the first occurrence. *)
Lemma find_first (s needle : wstring) (q : nat) :
  WString.find s needle 0 = Some q ->
  forall j, j < q -> WString.starts_with needle (skipn j s) = false.
Proof.
  rewrite find_0. revert q. induction s as [|c s IH]; intros q; simpl.
  - destruct (WString.starts_with needle []); [|discriminate].
    intros [= <-] j Hj. lia.
  - destruct (WString.starts_with needle (c :: s)) eqn:E.
    + intros [= <-] j Hj. lia.
    + rewrite find_at_shift.
      destruct (WString.find_at s needle 0) as [q'|] eqn:F; simpl; [|discriminate].
      intros [= <-] j Hj. destruct j as [|j]; [exact E|].
      simpl. apply (IH q' eq_refl). lia.
Qed.

Lemma ExtractContent_found (json : wstring) (p q : nat) :
  WString.find json (Q "'content'") 0 = Some p ->
  WString.find json [DQUOTE] (p + 9) = Some q ->
  ExtractContent json = unescape_n_quote (upto_unescaped_quote (skipn (S q) json) false).
Proof.
  intros Hp Hq. unfold ExtractContent. rewrite Hp, Hq. apply ExtractContent_scan_spec.
Qed.

Lemma CallTemplate_extract_text_fallback (plat : Platform) (tpl : TemplateDefinition)
    (resp : wstring) :
  tpl_output tpl = Text ->
  tpl_resultPath tpl = [] \/ ExtractByPath resp (tpl_resultPath tpl) = [] ->
  fst (CallTemplate_extract plat tpl resp)
  = {| res_text := ExtractContent resp; res_image := None |}.
Proof.
  intros Hout Hpath. unfold CallTemplate_extract. rewrite Hout. cbn [fst].
  destruct Hpath as [E|E].
  - rewrite E. reflexivity.
  - rewrite E. destruct (negb (WString.empty (tpl_resultPath tpl))); reflexivity.
Qed.

(** C7.  For a text template whose result path is empty or yields nothing,
    the text is what [ExtractContent] finds: the value that follows the
    first [content] name, read up to the next double quote that no backslash
    precedes, with backslash-n and backslash-quote unescaped and nothing
    else; on the response of the specification this is the text hi 'there'
    (the apostrophes stand for double quotes), for an empty path and for a
    path the response does not have. *)
Theorem ExtractContent_fallback :
  (forall plat tpl resp,
      tpl_output tpl = Text ->
      tpl_resultPath tpl = [] \/ ExtractByPath resp (tpl_resultPath tpl) = [] ->
      fst (CallTemplate_extract plat tpl resp)
      = {| res_text := ExtractContent resp; res_image := None |})
  /\ (forall json p q,
         WString.find json (Q "'content'") 0 = Some p ->
         WString.find json [DQUOTE] (p + 9) = Some q ->
         (forall j, j < p -> WString.starts_with (Q "'content'") (skipn j json) = false)
         /\ ExtractContent json
            = unescape_n_quote (upto_unescaped_quote (skipn (S q) json) false))
  /\ (forall json, WString.find json (Q "'content'") 0 = None -> ExtractContent json = [])
  /\ ExtractContent (Q "{'message':{'content':'hi \'there\''}}") = Q "hi 'there'"
  /\ (forall plat,
         fst (CallTemplate_extract plat (text_template [])
                                   (Q "{'message':{'content':'hi \'there\''}}"))
         = {| res_text := Q "hi 'there'"; res_image := None |})
  /\ (forall plat,
         fst (CallTemplate_extract plat (text_template (L "choices[0].message.content"))
                                   (Q "{'message':{'content':'hi \'there\''}}"))
         = {| res_text := Q "hi 'there'"; res_image := None |})
  /\ fst (CallTemplate (demo_platform [] 200 (Q "{'message':{'content':'hi \'there\''}}"))
                       (text_template (L "choices[0].message.content")) (demo_model [])
                       [] [] [] [])
     = {| res_text := Q "hi 'there'"; res_image := None |}.
Proof.
  split; [exact CallTemplate_extract_text_fallback|].
  split; [intros json p q Hp Hq; split;
          [exact (find_first _ _ _ Hp)|exact (ExtractContent_found _ _ _ Hp Hq)]|].
  split; [intros json H; unfold ExtractContent; now rewrite H|].
  split; [vm_compute; reflexivity|].
  split; [intros plat; rewrite CallTemplate_extract_text_fallback;
          [vm_compute; reflexivity|reflexivity|left; reflexivity]|].
  split; [intros plat; rewrite CallTemplate_extract_text_fallback;
          [vm_compute; reflexivity|reflexivity|right; vm_compute; reflexivity]|].
  vm_compute; reflexivity.
Qed.

(** ** Structured path extraction *)

(** The syntax of a result path: segments between dots, a segment being a
    name with an optional index in brackets. *)
Lemma split_path_segment (a b : wstring) :
  ~ In (wc ".") a -> split_path (a ++ wc "." :: b) = a :: split_path b.
Proof.
  induction a as [|c a IH]; intros H; cbn [app split_path].
  - now rewrite N.eqb_refl.
  - destruct (N.eqb_spec c (wc ".")) as [->|_]; [exfalso; apply H; now left|].
    rewrite IH; [reflexivity|]. intros Hin. apply H. now right.
Qed.

Lemma split_path_last (a : wstring) : ~ In (wc ".") a -> split_path a = [a].
Proof.
  induction a as [|c a IH]; intros H; cbn [split_path]; [reflexivity|].
  destruct (N.eqb_spec c (wc ".")) as [->|_]; [exfalso; apply H; now left|].
  rewrite IH; [reflexivity|]. intros Hin. apply H. now right.
Qed.

Lemma parse_segment_plain (p : wstring) :
  ~ In (wc "[") p -> parse_segment p = (p, (-1)%Z).
Proof.
  intros H. unfold parse_segment. now rewrite (find_absent_char p [] _ H).
Qed.

Lemma parse_segment_indexed (key digits : wstring) :
  ~ In (wc "[") key ->
  parse_segment (key ++ wc "[" :: digits ++ [wc "]"]) = (key, _wtoi digits).
Proof.
  intros H. unfold parse_segment. rewrite (find_char_app key _ _ H).
  replace (last (key ++ wc "[" :: digits ++ [wc "]"]) 0%N) with (wc "]").
  2:{ change (key ++ wc "[" :: digits ++ [wc "]"])
        with (key ++ (wc "[" :: digits) ++ [wc "]"]).
      rewrite app_assoc. now rewrite last_last. }
  rewrite N.eqb_refl. unfold WString.substr. f_equal.
  - simpl skipn. rewrite firstn_app, firstn_all, Nat.sub_diag. simpl. apply app_nil_r.
  - f_equal. rewrite skipn_app, skipn_all2 by lia.
    replace (length key + 1 - length key) with 1 by lia. simpl.
    rewrite length_app. simpl. rewrite length_app. simpl.
    replace (length key + S (length digits + 1) - length key - 2) with (length digits)
      by lia.
    rewrite firstn_app, firstn_all, Nat.sub_diag. simpl. apply app_nil_r.
Qed.

(** What the path walker does get right: a name the object does not have, a
    segment without a name on an object, and an index out of range on an
    array all give the empty result. *)
Lemma walk_path_missing_key (p : wstring) (parts : list wstring)
    (members : list (wstring * JsonValue)) :
  Json.GetNamedValue members (fst (parse_segment p)) = None ->
  walk_path (p :: parts) (JObject members) = None.
Proof.
  intros H. cbn [walk_path]. destruct (parse_segment p) as [key idx]. cbn [fst] in H.
  rewrite H. now destruct (negb (WString.empty key)).
Qed.

Lemma walk_path_empty_key (p : wstring) (parts : list wstring)
    (members : list (wstring * JsonValue)) :
  fst (parse_segment p) = [] -> walk_path (p :: parts) (JObject members) = None.
Proof.
  intros H. cbn [walk_path]. destruct (parse_segment p) as [key idx]. cbn [fst] in H.
  now rewrite H.
Qed.

Lemma walk_path_array_out_of_range (p : wstring) (parts : list wstring)
    (items : list JsonValue) :
  (snd (parse_segment p) < 0 \/ Z.of_nat (length items) <= snd (parse_segment p))%Z ->
  walk_path (p :: parts) (JArray items) = None.
Proof.
  intros H. cbn [walk_path]. destruct (parse_segment p) as [key idx]. cbn [snd] in H.
  unfold GetAt.
  destruct (Z.leb_spec 0 idx), (Z.ltb_spec idx (Z.of_nat (length items)));
    simpl; try reflexivity; lia.
Qed.

(** What it gets wrong: an index out of range behind a name leaves the
    whole array as the current value. *)
Lemma walk_path_member_out_of_range (p : wstring) (parts : list wstring)
    (members : list (wstring * JsonValue)) (items : list JsonValue) :
  fst (parse_segment p) <> [] ->
  Json.GetNamedValue members (fst (parse_segment p)) = Some (JArray items) ->
  (Z.of_nat (length items) <= snd (parse_segment p))%Z ->
  walk_path (p :: parts) (JObject members) = walk_path parts (JArray items).
Proof.
  intros Hk Hv Hi. cbn [walk_path]. destruct (parse_segment p) as [key idx].
  cbn [fst snd] in *. rewrite Hv.
  destruct key; [congruence|]. cbn [WString.empty negb].
  unfold GetAt.
  destruct (Z.leb_spec 0 idx), (Z.ltb_spec idx (Z.of_nat (length items)));
    simpl; try reflexivity; lia.
Qed.

(** C3.  On an object whose member [choices] is an array of one string, the
    path [choices[3]], whose index is out of range, gives the text of the
    whole array and not the empty result;
    the same index on the array itself gives the empty result; the
    response of the specification with [choices[0].message.content] gives
    [hello]. *)
Theorem ExtractByPath_index_out_of_range :
  ExtractByPath (Q "{'choices':['a']}") (L "choices[3]") = Q "['a']"
  /\ ExtractByPath (Q "['a']") (L "[3]") = []
  /\ ExtractByPath (Q "{'choices':['a']}") (L "nope") = []
  /\ ExtractByPath (Q "{'choices':['a']}") (L "choices..x") = []
  /\ ExtractByPath (Q "{'choices':[{'message':{'content':'hello'}}]}")
                   (L "choices[0].message.content") = L "hello"
  /\ (forall plat,
         fst (CallTemplate_extract plat (text_template (L "choices[3]"))
                                   (Q "{'choices':['a'],'content':'b'}"))
         = {| res_text := Q "['a']"; res_image := None |}).
Proof.
  repeat split; vm_compute; reflexivity.
Qed.

(** ** Transport errors *)

Lemma CallTemplate_unfold (plat : Platform) (tpl : TemplateDefinition) (m : ModelConfig)
    (systemPrompt prompt imageB64 imageDataUrl : wstring) (req : HttpRequest) :
  CallTemplate_request (CryptStringToBinary plat) tpl m systemPrompt prompt imageB64
                       imageDataUrl = Some req ->
  let resp := fst (HttpRequestWithHeaders (WinHttp plat req)) in
  let err := snd (HttpRequestWithHeaders (WinHttp plat req)) in
  let ev := [EvLog (Log (L "request host: " ++ req_host req));
             EvLog (Log (L "request path: " ++ req_path req));
             EvLog (LogBody (req_body req)); EvHttp req]
            ++ (if WString.empty err then []
                else [EvLog (Log (L "template request error: " ++ err))]) in
  CallTemplate plat tpl m systemPrompt prompt imageB64 imageDataUrl =
  if WString.empty resp then (ApiCallResult_default, ev)
  else (fst (CallTemplate_extract plat tpl resp),
        ev ++ snd (CallTemplate_extract plat tpl resp)).
Proof.
  intros Hreq. cbv zeta. unfold CallTemplate. rewrite Hreq.
  destruct (HttpRequestWithHeaders (WinHttp plat req)) as [resp err]. cbn [fst snd].
  destruct (WString.empty err), (WString.empty resp); cbn [negb];
    try reflexivity;
    destruct (CallTemplate_extract plat tpl resp) as [result ev']; cbn [fst snd];
    rewrite <- ?app_assoc; reflexivity.
Qed.

Lemma HttpRequestWithHeaders_status (status : N) (data : wstring) :
  (400 <= status)%N ->
  HttpRequestWithHeaders (http_answer status data)
  = (data, L "HTTP status " ++ to_wstring status).
Proof.
  intros H. unfold HttpRequestWithHeaders, http_answer. cbn.
  destruct (N.leb_spec 400 status); [reflexivity|lia].
Qed.

(** When the request cannot be sent or no response is received, the
    response text is empty and the error is set. *)
Lemma HttpRequestWithHeaders_transport_failure (o : WinHttpOutcome) :
  http_open o = None -> http_connect o = None -> http_openRequest o = None ->
  http_send o <> None \/ http_receive o <> None ->
  fst (HttpRequestWithHeaders o) = [] /\ snd (HttpRequestWithHeaders o) <> [].
Proof.
  intros H1 H2 H3 H. unfold HttpRequestWithHeaders. rewrite H1, H2, H3.
  destruct (http_send o) as [e|]; cbn.
  - split; [reflexivity|discriminate].
  - destruct (http_receive o) as [e|]; cbn; [split; [reflexivity|discriminate]|].
    destruct H; congruence.
Qed.

(** C8.  A transport error or a status of 400 or more does not end the
    call: the error goes to the log and the result is what extraction
    gives on the response text; with an empty response text the call ends
    with the empty result, and neither an extraction log line nor a bitmap
    decoding follows the request.  A status of 400 or more leaves the
    response text as it is; a failed send or receive leaves it empty. *)
Theorem CallTemplate_transport_errors (plat : Platform) (tpl : TemplateDefinition)
    (m : ModelConfig) (systemPrompt prompt imageB64 imageDataUrl : wstring)
    (req : HttpRequest) :
  CallTemplate_request (CryptStringToBinary plat) tpl m systemPrompt prompt imageB64
                       imageDataUrl = Some req ->
  let out := CallTemplate plat tpl m systemPrompt prompt imageB64 imageDataUrl in
  let resp := fst (HttpRequestWithHeaders (WinHttp plat req)) in
  let err := snd (HttpRequestWithHeaders (WinHttp plat req)) in
  (err <> [] -> In (EvLog (Log (L "template request error: " ++ err))) (snd out))
  /\ (resp <> [] -> fst out = fst (CallTemplate_extract plat tpl resp))
  /\ (resp = [] ->
      fst out = ApiCallResult_default
      /\ existsb is_extraction_event (snd out) = false
      /\ http_requests (snd out) = [req])
  /\ (forall status data,
         WinHttp plat req = http_answer status data -> (400 <= status)%N ->
         resp = data /\ err = L "HTTP status " ++ to_wstring status)
  /\ (http_open (WinHttp plat req) = None -> http_connect (WinHttp plat req) = None ->
      http_openRequest (WinHttp plat req) = None ->
      http_send (WinHttp plat req) <> None \/ http_receive (WinHttp plat req) <> None ->
      resp = [] /\ err <> [])
  /\ (exists ev,
         RunFilter (demo_platform (L "hello") 500
                                  (Q "{'choices':[{'message':{'content':'ok'}}]}"))
                   [demo_model []] [demo_provider] demo_filter = Some (true, ev)
         /\ In (EvLog (Log (L "template request error: HTTP status 500"))) ev
         /\ In (EvSetClipboardText (L "ok")) ev).
Proof.
  intros Hreq. cbv zeta.
  assert (Run : exists ev,
             RunFilter (demo_platform (L "hello") 500
                                      (Q "{'choices':[{'message':{'content':'ok'}}]}"))
                       [demo_model []] [demo_provider] demo_filter = Some (true, ev)
             /\ In (EvLog (Log (L "template request error: HTTP status 500"))) ev
             /\ In (EvSetClipboardText (L "ok")) ev).
  { eexists. split; [vm_compute; reflexivity|].
    split; [do 6 right; left; vm_compute; reflexivity
           |do 7 right; left; vm_compute; reflexivity]. }
  rewrite (CallTemplate_unfold _ _ _ _ _ _ _ _ Hreq). cbv zeta.
  destruct (HttpRequestWithHeaders (WinHttp plat req)) as [resp err] eqn:Hh. cbn [fst snd].
  split.
  { intros Herr. destruct err as [|c err]; [congruence|]. cbn [WString.empty].
    destruct (WString.empty resp); cbn [snd].
    - apply in_or_app. right. now left.
    - apply in_or_app. left. apply in_or_app. right. now left. }
  split.
  { intros Hresp. destruct resp; [congruence|]. reflexivity. }
  split.
  { intros ->. cbn [WString.empty fst snd]. split; [reflexivity|].
    destruct (WString.empty err); split; reflexivity. }
  split.
  { intros status data Ho Hs. rewrite Ho, (HttpRequestWithHeaders_status _ _ Hs) in Hh.
    injection Hh as <- <-. split; reflexivity. }
  split; [|exact Run].
  intros H1 H2 H3 H.
  destruct (HttpRequestWithHeaders_transport_failure _ H1 H2 H3 H) as [E1 E2].
  rewrite Hh in E1, E2. cbn [fst snd] in E1, E2. now split.
Qed.

(** ** Resolving the model, the provider and the template *)

Lemma WString_eqb_eq (a b : wstring) : WString.eqb a b = true <-> a = b.
Proof.
  revert b; induction a as [|x a IH]; intros [|y b]; simpl; split; try congruence.
  - intros H. apply andb_true_iff in H as [Hxy Hab].
    apply N.eqb_eq in Hxy. apply IH in Hab. congruence.
  - intros [= -> ->]. rewrite N.eqb_refl. now apply IH.
Qed.

Lemma modelRef_total (g_models : list ModelConfig) (f : FilterDefinition) :
  g_models <> [] ->
  exists m, modelRef g_models f = Some m
            /\ (flt_modelIndex f < length g_models ->
                nth_error g_models (flt_modelIndex f) = Some m)
            /\ (length g_models <= flt_modelIndex f -> nth_error g_models 0 = Some m).
Proof.
  intros Hne. unfold modelRef.
  destruct (Nat.ltb_spec (flt_modelIndex f) (length g_models)) as [Hlt|Hge].
  - destruct (nth_error g_models (flt_modelIndex f)) as [m|] eqn:E.
    + exists m. split; [reflexivity|]. split; [intros _; reflexivity|lia].
    + apply nth_error_None in E. lia.
  - destruct g_models as [|m0 rest]; [congruence|].
    exists m0. split; [reflexivity|]. split; [simpl in *; lia|reflexivity].
Qed.

Lemma resolve_provider_spec (g_providers : list ApiProvider) (m : ModelConfig)
    (p : ApiProvider) :
  resolve_provider g_providers m = Some p ->
  In p g_providers /\
  (prov_id p = providerId m \/
   ((forall q, In q g_providers -> prov_id q <> providerId m)
    /\ hd_error g_providers = Some p)).
Proof.
  unfold resolve_provider, FindProviderById.
  destruct (find _ g_providers) as [p'|] eqn:F.
  - intros [= <-]. apply find_some in F as [Hin Hid].
    apply WString_eqb_eq in Hid. split; [exact Hin|now left].
  - intros Hhd. split.
    + destruct g_providers; [discriminate|]. injection Hhd as <-. now left.
    + right. split; [|exact Hhd].
      intros q Hq Hid. apply (find_none _ _ F) in Hq.
      apply WString_eqb_eq in Hid. congruence.
Qed.

Lemma FindTemplateByIO_None (p : ApiProvider) (input output : IOType) :
  FindTemplateByIO p input output = None <->
  forall t, In t (prov_templates p) -> matches_io input output t = false.
Proof.
  unfold FindTemplateByIO. split.
  - intros H t Ht. exact (find_none _ _ H t Ht).
  - intros H. destruct (find _ (prov_templates p)) as [t|] eqn:F; [|reflexivity].
    apply find_some in F as [Hin Hm]. unfold matches_io in H. rewrite (H t Hin) in Hm.
    discriminate.
Qed.

Lemma FindTemplateByIO_Some (p : ApiProvider) (input output : IOType)
    (t : TemplateDefinition) :
  FindTemplateByIO p input output = Some t ->
  In t (prov_templates p) /\ tpl_input t = input /\ tpl_output t = output.
Proof.
  unfold FindTemplateByIO. intros F. apply find_some in F as [Hin Hm].
  apply andb_true_iff in Hm as [H1 H2]. split; [exact Hin|].
  destruct (tpl_input t), input, (tpl_output t), output; try discriminate; now split.
Qed.

(** [FindTemplateAny] goes through the catalog in order. *)
Lemma FindTemplateAny_first (pre post : list ApiProvider) (p : ApiProvider)
    (input output : IOType) (t : TemplateDefinition) :
  (forall q, In q pre -> FindTemplateByIO q input output = None) ->
  FindTemplateByIO p input output = Some t ->
  FindTemplateAny (pre ++ p :: post) input output = Some t.
Proof.
  induction pre as [|q pre IH]; intros Hpre Hp; simpl.
  - now rewrite Hp.
  - rewrite (Hpre q) by now left. apply IH; [|exact Hp].
    intros q' Hq'. apply Hpre. now right.
Qed.

Lemma FindTemplateAny_None (g_providers : list ApiProvider) (input output : IOType) :
  FindTemplateAny g_providers input output = None <->
  forall p, In p g_providers -> FindTemplateByIO p input output = None.
Proof.
  induction g_providers as [|q rest IH]; simpl.
  - split; [intros _ p []|reflexivity].
  - destruct (FindTemplateByIO q input output) as [t|] eqn:F.
    + split; [discriminate|]. intros H. rewrite (H q) in F by now left. discriminate.
    + rewrite IH. split.
      * intros H p [<-|Hp]; [exact F|now apply H].
      * intros H p Hp. apply H. now right.
Qed.

Lemma resolve_template_None (g_providers : list ApiProvider) (m : ModelConfig)
    (f : FilterDefinition) :
  resolve_template g_providers m f = None <-> no_template_matches g_providers f.
Proof.
  unfold resolve_template, no_template_matches. split.
  - intros H p t Hp Ht.
    assert (A : FindTemplateAny g_providers (flt_input f) (flt_output f) = None).
    { destruct (resolve_provider g_providers m) as [pr|];
        [destruct (FindTemplateByIO pr (flt_input f) (flt_output f))|];
        [discriminate|exact H|exact H]. }
    rewrite FindTemplateAny_None in A.
    exact (proj1 (FindTemplateByIO_None p _ _) (A p Hp) t Ht).
  - intros H.
    assert (A : forall p, In p g_providers ->
                          FindTemplateByIO p (flt_input f) (flt_output f) = None).
    { intros p Hp. apply FindTemplateByIO_None. intros t Ht. exact (H p t Hp Ht). }
    destruct (resolve_provider g_providers m) as [pr|] eqn:R.
    + apply resolve_provider_spec in R as [Hin _]. rewrite (A pr Hin).
      now apply FindTemplateAny_None.
    + now apply FindTemplateAny_None.
Qed.

(** A run that has its template starts by reading the clipboard. *)
Lemma RunFilter_with_reads_clipboard (plat : Platform) (tpl : TemplateDefinition)
    (m : ModelConfig) (f : FilterDefinition) :
  exists ev, snd (RunFilter_with plat tpl m f) = EvGetClipboardText :: ev
             \/ snd (RunFilter_with plat tpl m f) = EvGetClipboardBitmap :: ev.
Proof.
  unfold RunFilter_with.
  destruct (tpl_input tpl).
  - destruct (WString.empty (GetClipboardText plat)); [eexists; left; reflexivity|].
    destruct (CallTemplate _ _ _ _ _ _ _) as [res ev'].
    destruct (tpl_output tpl).
    + destruct (WString.empty (res_text res)); [eexists; left; reflexivity|].
      destruct (SetClipboardText plat (res_text res)); eexists; left; reflexivity.
    + destruct (res_image res) as [image|]; [|eexists; left; reflexivity].
      destruct (SetClipboardBitmap plat image); eexists; left; reflexivity.
  - destruct (GetClipboardBitmap plat) as [bmp|]; [|eexists; right; reflexivity].
    destruct (BitmapToBase64Png plat bmp) as [b64|]; [|eexists; right; reflexivity].
    destruct (CallTemplate _ _ _ _ _ _ _) as [res ev'].
    destruct (tpl_output tpl).
    + destruct (WString.empty (res_text res)); [eexists; right; reflexivity|].
      destruct (SetClipboardText plat (res_text res)); eexists; right; reflexivity.
    + destruct (res_image res) as [image|]; [|eexists; right; reflexivity].
      destruct (SetClipboardBitmap plat image); eexists; right; reflexivity.
Qed.

Lemma RunFilter_no_template (plat : Platform) (g_models : list ModelConfig)
    (g_providers : list ApiProvider) (f : FilterDefinition) :
  g_models <> [] ->
  (RunFilter plat g_models g_providers f = Some (no_matching_template f)
   <-> no_template_matches g_providers f).
Proof.
  intros Hne. destruct (modelRef_total g_models f Hne) as [m [Hm _]].
  unfold RunFilter. rewrite Hm. rewrite <- (resolve_template_None g_providers m f).
  destruct (resolve_template g_providers m f) as [tpl|]; [|split; reflexivity].
  split; [|discriminate].
  destruct (RunFilter_with_reads_clipboard plat tpl m f) as [ev [E|E]];
    destruct (RunFilter_with plat tpl m f) as [ret ev0]; cbn [snd] in E; subst ev0;
    unfold no_matching_template; intros H; discriminate H.
Qed.

(** ** Picking a model *)

Lemma find_as_filter {A : Type} (p : A -> bool) (l : list A) :
  find p l = hd_error (filter p l).
Proof.
  induction l as [|x l IH]; simpl; [reflexivity|]. now destruct (p x).
Qed.

Lemma existsb_as_find {A : Type} (p : A -> bool) (l : list A) :
  existsb p l = match find p l with Some _ => true | None => false end.
Proof.
  induction l as [|x l IH]; simpl; [reflexivity|]. now destruct (p x).
Qed.

Lemma PickModelByPatterns_pick_spec (rx : wstring -> wstring -> bool)
    (models patterns : list wstring) :
  PickModelByPatterns rx models patterns = pick_spec rx models patterns.
Proof.
  unfold PickModelByPatterns, pick_spec.
  induction patterns as [|pat rest IH]; simpl.
  - now destruct models.
  - rewrite existsb_as_find.
    destruct (find (fun m => rx m pat) models) as [m|] eqn:F.
    + rewrite find_as_filter in F.
      destruct (filter (fun m => rx m pat) models); [discriminate|].
      now injection F as ->.
    + exact IH.
Qed.

Lemma find_first_match {A : Type} (p : A -> bool) (pre post : list A) (x : A) :
  (forall y, In y pre -> p y = false) -> p x = true ->
  find p (pre ++ x :: post) = Some x.
Proof.
  induction pre as [|y pre IH]; intros Hpre Hx; simpl.
  - now rewrite Hx.
  - rewrite (Hpre y) by now left. apply IH; [|exact Hx].
    intros z Hz. apply Hpre. now right.
Qed.

(** C9.  [PickModelByPatterns] tries the patterns in order and returns the
    first model of the list that the current pattern matches; when no
    pattern matches any model it returns the first model, and the empty
    string for an empty list; on the models [gpt-4o], [gpt-4o-mini] and the
    patterns [gpt-.*-mini], [gpt-.*] it returns [gpt-4o-mini]. *)
Theorem PickModelByPatterns_correct :
  (forall rx models patterns,
      PickModelByPatterns rx models patterns = pick_spec rx models patterns)
  /\ (forall rx models patterns ppre pat ppost mpre m mpost,
         patterns = ppre ++ pat :: ppost ->
         models = mpre ++ m :: mpost ->
         (forall pat' m', In pat' ppre -> In m' models -> rx m' pat' = false) ->
         (forall m', In m' mpre -> rx m' pat = false) ->
         rx m pat = true ->
         PickModelByPatterns rx models patterns = m)
  /\ (forall rx models patterns,
         (forall pat m, In pat patterns -> In m models -> rx m pat = false) ->
         PickModelByPatterns rx models patterns = hd [] models)
  /\ (forall rx patterns, PickModelByPatterns rx [] patterns = [])
  /\ PickModelByPatterns Regex.RegexMatchNoCase [L "gpt-4o"; L "gpt-4o-mini"]
                         [L "gpt-.*-mini"; L "gpt-.*"] = L "gpt-4o-mini"
  /\ Regex.RegexMatchNoCase (L "GPT-4o-Mini") (L "gpt-.*-mini") = true.
Proof.
  assert (NoMatch : forall (rx : wstring -> wstring -> bool) models patterns,
             (forall pat m, In pat patterns -> In m models -> rx m pat = false) ->
             PickModelByPatterns_loop rx models patterns = None).
  { intros rx models patterns H. induction patterns as [|pat rest IH]; simpl;
      [reflexivity|].
    destruct (find (fun m => rx m pat) models) as [m|] eqn:F.
    - apply find_some in F as [Hin Hm]. rewrite (H pat m) in Hm; [discriminate| |exact Hin].
      now left.
    - apply IH. intros pat' m Hp Hm. apply H; [now right|exact Hm]. }
  split; [exact PickModelByPatterns_pick_spec|].
  split.
  { intros rx models patterns ppre pat ppost mpre m mpost -> Hm Hpre Hmpre Hmatch.
    unfold PickModelByPatterns.
    assert (E : PickModelByPatterns_loop rx models (ppre ++ pat :: ppost) = Some m).
    { induction ppre as [|q ppre IH]; simpl.
      - rewrite Hm. now rewrite (find_first_match _ mpre mpost m Hmpre Hmatch).
      - destruct (find (fun m0 => rx m0 q) models) as [m0|] eqn:F.
        + apply find_some in F as [Hin Hq].
          rewrite (Hpre q m0) in Hq; [discriminate|now left|exact Hin].
        + apply IH. intros pat' m' Hp Hm'. apply Hpre; [now right|exact Hm']. }
    now rewrite E. }
  split.
  { intros rx models patterns H. unfold PickModelByPatterns.
    rewrite (NoMatch rx models patterns H). now destruct models. }
  split.
  { intros rx patterns. unfold PickModelByPatterns.
    rewrite NoMatch; [reflexivity|]. intros pat m _ []. }
  split; vm_compute; reflexivity.
Qed.

(** ** The single-flight guard *)

(** While the progress window is there, the hotkey and the filter menu
    start nothing. *)
Lemma guard_rejects (st : UiState) (selected : option nat) (w : nat) :
  g_progressWnd st = Some w ->
  WndProc_WM_HOTKEY st selected = st /\ ShowFilterMenuAndRun st selected = (false, st).
Proof.
  intros H. unfold WndProc_WM_HOTKEY, ShowFilterMenuAndRun. now rewrite H.
Qed.

Lemma single_flight_step (st : UiState) (e : UiEvent) :
  is_escape e = false -> single_flight st -> single_flight (ui_step st e).
Proof.
  unfold single_flight. destruct st as [wnd fl started].
  destruct e as [sel|sel|w|]; intros He Inv; try discriminate; cbn in *.
  - unfold WndProc_WM_HOTKEY, ShowFilterMenuAndRun; cbn.
    destruct wnd as [w|]; cbn; [exact Inv|].
    destruct sel; cbn; [subst fl; now left|exact Inv].
  - unfold ShowFilterMenuAndRun; cbn.
    destruct wnd as [w|]; cbn; [exact Inv|].
    destruct sel; cbn; [subst fl; now left|exact Inv].
  - unfold worker_complete; cbn.
    destruct wnd as [w'|]; cbn.
    + destruct (Nat.eqb_spec w w') as [->|Hne]; cbn.
      * destruct Inv as [-> | ->]; cbn; [now rewrite Nat.eqb_refl|reflexivity].
      * destruct Inv as [-> | ->]; cbn; [|now right].
        destruct (Nat.eqb_spec w' w); [congruence|]. now left.
    + now subst fl.
Qed.

(** When the progress window is never closed from the keyboard, at most one
    run is in flight. *)
Lemma single_flight_without_escape (events : list UiEvent) :
  forallb (fun e => negb (is_escape e)) events = true ->
  single_flight (ui_run events) /\ length (in_flight (ui_run events)) <= 1.
Proof.
  intros H.
  assert (Inv : forall st, single_flight st -> single_flight (fold_left ui_step events st)).
  { induction events as [|e events IH]; intros st Hst; [exact Hst|].
    simpl in H. apply andb_true_iff in H as [He Hrest]. simpl.
    apply IH; [exact Hrest|]. apply single_flight_step; [|exact Hst].
    now destruct (is_escape e). }
  assert (I0 : single_flight (ui_run events)) by (apply Inv; reflexivity).
  split; [exact I0|]. unfold single_flight in I0.
  destruct (g_progressWnd (ui_run events)); [destruct I0 as [-> | ->]|rewrite I0];
    simpl; lia.
Qed.

(** C5.  After the hotkey has started a run, the Escape key closes the
    progress window while the worker is still running; the next hotkey is
    then accepted and starts a second worker, so that two runs are in
    flight. *)
Theorem single_flight_broken_by_escape :
  let st1 := ui_run [Hotkey (Some 0)] in
  let st2 := ui_run [Hotkey (Some 0); EscapeKey] in
  let st3 := ui_run [Hotkey (Some 0); EscapeKey; Hotkey (Some 1)] in
  (g_progressWnd st1 = Some 0 /\ in_flight st1 = [0])
  /\ ui_run [Hotkey (Some 0); Hotkey (Some 1)] = st1
  /\ ui_run [Hotkey (Some 0); FilterMenu (Some 1)] = st1
  /\ (g_progressWnd st2 = None /\ in_flight st2 = [0])
  /\ (g_progressWnd st3 = Some 1 /\ in_flight st3 = [1; 0] /\ started st3 = [1; 0])
  /\ length (in_flight st3) = 2.
Proof.
  cbv zeta. repeat split; reflexivity.
Qed.

(** ** Multipart requests *)

Lemma BuildMultipartBody_parts (dec : wstring -> option bstring)
    (bnd model prompt imageB64 : wstring) :
  BuildMultipartBody dec bnd model prompt imageB64 =
  text_part (ToUtf8 bnd) (B "model") (ToUtf8 model)
    ++ text_part (ToUtf8 bnd) (B "prompt") (ToUtf8 prompt)
    ++ image_part (ToUtf8 bnd) (multipart_image imageB64 (dec imageB64))
    ++ B "--" ++ ToUtf8 bnd ++ B "--" ++ CRLF.
Proof.
  unfold BuildMultipartBody, addText, text_part, image_part.
  destruct (multipart_image imageB64 (dec imageB64)) as [|b img];
    rewrite ?app_nil_l; repeat rewrite <- app_assoc; reflexivity.
Qed.

(** ** The theorems at concrete inputs *)

Ltac not_in_literal :=
  let H := fresh in
  intros H; cbv in H;
  repeat (destruct H as [H|H]; [discriminate H|]); exact H.

Lemma ReplacePlaceholders_not_injection_safe_witness :
  Contains (tpl_payload demo_template) (L "<<api_key>>") = false
  /\ BuildBodyFromTemplate demo_template (with_apiKey (demo_model []) (L "sk-SECRET-1"))
                           [] (L "<<api_key>>") [] [] = JsonEscape (L "sk-SECRET-1")
  /\ BuildBodyFromTemplate demo_template (demo_model (L "sk-SECRET-1"))
                           (systemPrompt_of demo_filter) (L "<<api_key>>") [] [] <>
     BuildBodyFromTemplate demo_template (demo_model (L "sk-SECRET-2"))
                           (systemPrompt_of demo_filter) (L "<<api_key>>") [] [].
Proof.
  destruct ReplacePlaceholders_not_injection_safe as (_ & H1 & H2 & H3 & _).
  split; [exact H1|]. split.
  - apply H2. reflexivity.
  - apply H3; [reflexivity|reflexivity|discriminate].
Defined.


Lemma ExtractContent_fallback_witness :
  (forall plat,
      fst (CallTemplate_extract plat (text_template [])
                                (Q "{'message':{'content':'hi \'there\''}}"))
      = {| res_text := ExtractContent (Q "{'message':{'content':'hi \'there\''}}");
           res_image := None |})
  /\ ExtractContent (Q "{'message':{'content':'hi \'there\''}}")
     = unescape_n_quote
         (upto_unescaped_quote (skipn 23 (Q "{'message':{'content':'hi \'there\''}}"))
                               false)
  /\ ExtractContent (L "{}") = [].
Proof.
  destruct ExtractContent_fallback as (H1 & H2 & H3 & _).
  split; [intros plat; apply H1; [reflexivity|left; reflexivity]|].
  split; [apply (H2 _ 12 22); reflexivity|].
  apply H3. reflexivity.
Defined.

Lemma CallTemplate_transport_errors_witness :
  (exists req,
      CallTemplate_request (fun _ => None) demo_template (demo_model []) [] (L "hi") [] []
      = Some req
      /\ In (EvLog (Log (L "template request error: HTTP status 500")))
            (snd (CallTemplate (demo_platform [] 500 (Q "{'content':'ok'}")) demo_template
                               (demo_model []) [] (L "hi") [] []))
      /\ fst (CallTemplate (demo_platform [] 500 (Q "{'content':'ok'}")) demo_template
                           (demo_model []) [] (L "hi") [] [])
         = fst (CallTemplate_extract (demo_platform [] 500 (Q "{'content':'ok'}"))
                                     demo_template (Q "{'content':'ok'}"))
      /\ fst (CallTemplate offline_platform demo_template (demo_model []) [] (L "hi") [] [])
         = ApiCallResult_default
      /\ existsb is_extraction_event
                 (snd (CallTemplate offline_platform demo_template (demo_model []) []
                                    (L "hi") [] [])) = false).
Proof.
  eexists. split; [vm_compute; reflexivity|].
  pose proof (CallTemplate_transport_errors (demo_platform [] 500 (Q "{'content':'ok'}"))
                demo_template (demo_model []) [] (L "hi") [] [] _ eq_refl) as A.
  pose proof (CallTemplate_transport_errors offline_platform
                demo_template (demo_model []) [] (L "hi") [] [] _ eq_refl) as B.
  cbv zeta in A, B.
  destruct A as (A1 & A2 & _). destruct B as (_ & _ & B3 & _ & B5 & _).
  split; [apply A1; vm_compute; discriminate|].
  split; [apply A2; vm_compute; discriminate|].
  destruct B5 as [Hresp _]; [reflexivity|reflexivity|reflexivity|left; discriminate|].
  destruct (B3 Hresp) as (B31 & B32 & _).
  split; [exact B31|exact B32].
Defined.

Lemma PickModelByPatterns_correct_witness :
  PickModelByPatterns Regex.RegexMatchNoCase [L "gpt-4o"; L "gpt-4o-mini"]
                      [L "gpt-.*-mini"; L "gpt-.*"] = L "gpt-4o-mini"
  /\ PickModelByPatterns Regex.RegexMatchNoCase [L "llama3"; L "mistral"]
                         [L "gpt-.*-mini"; L "gpt-.*"] = L "llama3".
Proof.
  destruct PickModelByPatterns_correct as (_ & H2 & H3 & _).
  split.
  - apply (H2 Regex.RegexMatchNoCase _ _ [] (L "gpt-.*-mini") [L "gpt-.*"]
              [L "gpt-4o"] (L "gpt-4o-mini") []); try reflexivity.
    + intros pat' m' [].
    + intros m' [<-|[]]. reflexivity.
  - apply (H3 Regex.RegexMatchNoCase [L "llama3"; L "mistral"]
              [L "gpt-.*-mini"; L "gpt-.*"]).
    intros pat m [<-|[<-|[]]] [<-|[<-|[]]]; reflexivity.
Defined.

(* ================================================================== *)
(** * Further properties of the code *)

(** ** Case folding and kinds *)

Lemma towlower_idempotent (c : wchar_t) : towlower (towlower c) = towlower c.
Proof.
  unfold towlower.
  destruct ((65 <=? c)%N && (c <=? 90)%N) eqn:E; [|now rewrite E].
  apply andb_true_iff in E as [E1 E2]. apply N.leb_le in E1.
  destruct (N.leb_spec (c + 32) 90) as [H|H]; [lia|].
  now rewrite andb_false_r.
Qed.

Lemma toLow_idempotent (s : wstring) : toLow (toLow s) = toLow s.
Proof.
  unfold toLow. rewrite map_map. apply map_ext. intros c. apply towlower_idempotent.
Qed.

(** X1.  [ParseIOType] reads back what [IOTypeToConfig] (and [SaveConfig])
    writes, does not look at letter case, and takes every text other than
    [image] for the text kind. *)
Theorem ParseIOType_roundtrip :
  (forall t, ParseIOType (IOTypeToConfig t) = t)
  /\ (forall s, ParseIOType (toLow s) = ParseIOType s)
  /\ (forall s, ParseIOType s = Image <-> toLow s = L "image")
  /\ (forall s, toLow s <> L "image" -> ParseIOType s = Text).
Proof.
  split; [intros []; reflexivity|].
  split; [intros s; unfold ParseIOType; now rewrite toLow_idempotent|].
  assert (A : forall s, ParseIOType s = Image <-> toLow s = L "image").
  { intros s. unfold ParseIOType.
    destruct (WString.eqb (toLow s) (L "image")) eqn:E.
    - apply WString_eqb_eq in E. split; [intros _; exact E|reflexivity].
    - split; [discriminate|]. intros H. apply WString_eqb_eq in H. congruence. }
  split; [exact A|].
  intros s H. destruct (ParseIOType s) eqn:E; [reflexivity|].
  exfalso. apply H. now apply A.
Qed.

Lemma ParseIOType_roundtrip_witness :
  ParseIOType (L "IMAGE") = Image /\ ParseIOType (L "images") = Text.
Proof.
  destruct ParseIOType_roundtrip as (_ & _ & H3 & H4).
  split; [apply H3; reflexivity|apply H4; discriminate].
Defined.

(** X2.  A template key [in-out] gives the kinds of the text before its
    first hyphen and of all the text behind it; a key without a hyphen
    gives the kind of the whole key twice.  So [text-image] is text to
    image, and a key such as [text-image-hd] has the output kind text. *)
Theorem template_io_of_key_convention :
  (forall input output,
      ~ In HYPHEN input ->
      template_io_of_key (input ++ HYPHEN :: output)
      = (ParseIOType input, ParseIOType output))
  /\ (forall key, ~ In HYPHEN key ->
                  template_io_of_key key = (ParseIOType key, ParseIOType key))
  /\ (forall a b,
         template_io_of_key (IOTypeToConfig a ++ HYPHEN :: IOTypeToConfig b) = (a, b))
  /\ (forall suffix,
         suffix <> [] ->
         template_io_of_key (L "text-image" ++ suffix) = (Text, Text)).
Proof.
  assert (A : forall input output,
             ~ In HYPHEN input ->
             template_io_of_key (input ++ HYPHEN :: output)
             = (ParseIOType input, ParseIOType output)).
  { intros input output H. unfold template_io_of_key.
    rewrite (find_char_app input output HYPHEN H). cbv zeta.
    unfold WString.substr, WString.substr_from. simpl skipn at 1.
    rewrite firstn_app, firstn_all, Nat.sub_diag. simpl firstn. rewrite app_nil_r.
    rewrite skipn_app, skipn_all2 by lia.
    replace (length input + 1 - length input) with 1 by lia. reflexivity. }
  split; [exact A|].
  split.
  { intros key H. unfold template_io_of_key.
    now rewrite (find_absent_char key [] HYPHEN H). }
  split.
  { intros a b. rewrite A; [destruct a, b; reflexivity|].
    destruct a; cbv; intros H;
      repeat (destruct H as [H|H]; [discriminate H|]); exact H. }
  intros suffix Hs.
  change (L "text-image" ++ suffix) with (L "text" ++ HYPHEN :: (L "image" ++ suffix)).
  rewrite A.
  - f_equal. unfold ParseIOType. destruct suffix as [|c suffix]; [congruence|].
    reflexivity.
  - cbv. intros H. repeat (destruct H as [H|H]; [discriminate H|]). exact H.
Qed.

Lemma template_io_of_key_convention_witness :
  template_io_of_key (L "image-text") = (Image, Text)
  /\ template_io_of_key (L "image") = (Image, Image)
  /\ template_io_of_key (L "text-image-hd") = (Text, Text).
Proof.
  destruct template_io_of_key_convention as (H1 & H2 & _ & H4).
  split; [apply (H1 (L "image") (L "text")); not_in_literal|].
  split; [apply H2; not_in_literal|].
  apply (H4 (L "-hd")). discriminate.
Defined.

(** ** Provider ids *)

Lemma find_char_None (s : wstring) (c : wchar_t) :
  WString.find s [c] 0 = None -> ~ In c s.
Proof.
  rewrite find_0. induction s as [|x s IH]; simpl; [tauto|].
  destruct (N.eqb_spec c x) as [->|Hne]; simpl; [discriminate|].
  rewrite find_at_shift.
  destruct (WString.find_at s [c] 0) eqn:F; simpl; [discriminate|].
  intros _ [E|Hin]; [congruence|]. now apply IH.
Qed.

Lemma NormalizeProviderId_no_hyphen (raw : wstring) :
  ~ In HYPHEN (NormalizeProviderId raw).
Proof.
  unfold NormalizeProviderId. destruct raw as [|c raw]; [simpl; tauto|].
  cbn [WString.empty].
  destruct (WString.find (c :: raw) [HYPHEN] 0) as [pos|] eqn:F.
  - apply find_char_Some in F as [_ H]. exact H.
  - now apply find_char_None.
Qed.

Lemma NormalizeProviderId_fixed (raw : wstring) :
  ~ In HYPHEN raw -> NormalizeProviderId raw = raw.
Proof.
  intros H. unfold NormalizeProviderId. destruct (WString.empty raw); [reflexivity|].
  now rewrite (find_absent_char raw [] HYPHEN H).
Qed.

(** X3.  [NormalizeProviderId] keeps the text before the first hyphen: the
    result has no hyphen and is a prefix of the id, an id without a hyphen
    is unchanged, and normalizing twice is normalizing once.  A provider
    whose id has a hyphen is therefore never found under a normalized id. *)
Theorem NormalizeProviderId_prefix (raw : wstring) :
  ~ In HYPHEN (NormalizeProviderId raw)
  /\ (exists rest, raw = NormalizeProviderId raw ++ rest)
  /\ (~ In HYPHEN raw -> NormalizeProviderId raw = raw)
  /\ (forall before behind, ~ In HYPHEN before ->
                            NormalizeProviderId (before ++ HYPHEN :: behind) = before)
  /\ NormalizeProviderId (NormalizeProviderId raw) = NormalizeProviderId raw
  /\ (forall g_providers p,
         FindProviderById g_providers (NormalizeProviderId raw) = Some p ->
         ~ In HYPHEN (prov_id p)).
Proof.
  split; [apply NormalizeProviderId_no_hyphen|].
  split.
  { unfold NormalizeProviderId. destruct (WString.empty raw); [exists []; now rewrite app_nil_r|].
    destruct (WString.find raw [HYPHEN] 0) as [pos|].
    - exists (skipn pos raw). unfold WString.substr. simpl skipn at 1.
      now rewrite firstn_skipn.
    - exists []. now rewrite app_nil_r. }
  split; [apply NormalizeProviderId_fixed|].
  split.
  { intros before behind H. unfold NormalizeProviderId.
    destruct (before ++ HYPHEN :: behind) as [|c s] eqn:E;
      [destruct before; discriminate|].
    cbn [WString.empty]. rewrite <- E. rewrite (find_char_app before behind HYPHEN H).
    unfold WString.substr. simpl skipn.
    rewrite firstn_app, firstn_all, Nat.sub_diag. simpl. apply app_nil_r. }
  split; [apply NormalizeProviderId_fixed, NormalizeProviderId_no_hyphen|].
  intros g_providers p F. unfold FindProviderById in F.
  apply find_some in F as [_ E]. apply WString_eqb_eq in E. rewrite E.
  apply NormalizeProviderId_no_hyphen.
Qed.

Lemma NormalizeProviderId_prefix_witness :
  NormalizeProviderId (L "OpenAI-v2") = L "OpenAI"
  /\ NormalizeProviderId (L "OpenAI") = L "OpenAI"
  /\ FindProviderById [demo_provider] (NormalizeProviderId (L "demo-2")) = Some demo_provider
  /\ ~ In HYPHEN (prov_id demo_provider).
Proof.
  destruct (NormalizeProviderId_prefix (L "OpenAI-v2")) as (_ & _ & _ & H4 & _).
  destruct (NormalizeProviderId_prefix (L "OpenAI")) as (_ & _ & H3 & _).
  destruct (NormalizeProviderId_prefix (L "demo-2")) as (_ & _ & _ & _ & _ & H6).
  split; [apply (H4 (L "OpenAI") (L "v2")); not_in_literal|].
  split; [apply H3; not_in_literal|].
  split; [reflexivity|].
  apply (H6 [demo_provider]). reflexivity.
Defined.

(** X4.  [FindTemplateById] returns a template of the catalog that has the
    id asked for, and returns none only when no template of the catalog has
    it. *)
Theorem FindTemplateById_sound_complete (g_providers : list ApiProvider) (id : wstring) :
  (forall t, FindTemplateById g_providers id = Some t ->
             tpl_id t = id /\ exists p, In p g_providers /\ In t (prov_templates p))
  /\ (FindTemplateById g_providers id = None <->
      forall p t, In p g_providers -> In t (prov_templates p) -> tpl_id t <> id).
Proof.
  induction g_providers as [|q rest [IH1 IH2]]; simpl.
  - split; [discriminate|]. split; [intros _ p t []|reflexivity].
  - destruct (find (fun t => WString.eqb (tpl_id t) id) (prov_templates q)) as [t0|] eqn:F.
    + apply find_some in F as [Hin E]. apply WString_eqb_eq in E. split.
      * intros t [= <-]. split; [exact E|]. exists q. split; [now left|exact Hin].
      * split; [discriminate|]. intros H. exfalso. apply (H q t0); [now left|exact Hin|exact E].
    + split.
      * intros t Ht. destruct (IH1 t Ht) as [E [p [Hp Hin]]].
        split; [exact E|]. exists p. split; [now right|exact Hin].
      * rewrite IH2. split.
        -- intros H p t [<-|Hp] Ht; [|now apply (H p t)].
           intros E. apply (find_none _ _ F) in Ht.
           apply WString_eqb_eq in E. congruence.
        -- intros H p t Hp. apply H. now right.
Qed.

Lemma FindTemplateById_sound_complete_witness :
  FindTemplateById [demo_provider] (L "text-text") = Some demo_template
  /\ FindTemplateById [demo_provider] (L "image-text") = None.
Proof.
  destruct (FindTemplateById_sound_complete [demo_provider] (L "image-text")) as [_ H].
  split; [reflexivity|].
  apply H. intros p t [<-|[]] [<-|[]]. discriminate.
Defined.

(** ** Model providers and filter indices *)

Lemma FindProviderById_front (front : ApiProvider) (rest : list ApiProvider) :
  FindProviderById (front :: rest) (prov_id front) = Some front.
Proof.
  unfold FindProviderById. simpl.
  now rewrite (proj2 (WString_eqb_eq (prov_id front) (prov_id front)) eq_refl).
Qed.

(** X5.  [EnsureModelProviders] gives every model without a provider id the
    id of the first provider and touches nothing else: models that have an
    id are unchanged, without a provider nothing changes, a second call
    changes nothing, and with a catalog whose ids are not empty no model is
    left without an id, while a run resolves each model to the same provider
    as before. *)
Theorem EnsureModelProviders_backfill (g_providers : list ApiProvider)
    (g_models : list ModelConfig) :
  length (EnsureModelProviders g_providers g_models) = length g_models
  /\ EnsureModelProviders g_providers (EnsureModelProviders g_providers g_models)
     = EnsureModelProviders g_providers g_models
  /\ ((forall m, In m g_models -> providerId m <> []) ->
      EnsureModelProviders g_providers g_models = g_models)
  /\ (forall i m, nth_error g_models i = Some m ->
                  exists m', nth_error (EnsureModelProviders g_providers g_models) i
                             = Some m'
                             /\ name m' = name m /\ serverUrl m' = serverUrl m
                             /\ modelName m' = modelName m /\ apiKey m' = apiKey m
                             /\ (providerId m <> [] -> m' = m)
                             /\ ((forall p, In p g_providers -> prov_id p <> []) ->
                                 resolve_provider g_providers m'
                                 = resolve_provider g_providers m)
                             /\ (providerId m = [] ->
                                 forall front, hd_error g_providers = Some front ->
                                               providerId m' = prov_id front)
                             /\ (g_providers = [] -> m' = m))
  /\ (g_providers <> [] -> (forall p, In p g_providers -> prov_id p <> []) ->
      forall m, In m (EnsureModelProviders g_providers g_models) -> providerId m <> []).
Proof.
  unfold EnsureModelProviders. destruct g_providers as [|front rest].
  - split; [reflexivity|]. split; [reflexivity|]. split; [reflexivity|].
    split; [|intros H; congruence].
    intros i m Hm. exists m. repeat split; try reflexivity; try exact Hm.
    intros _ front Hf. discriminate Hf.
  - cbv zeta. set (fill := fun m => if WString.empty (providerId m)
                                    then with_providerId m (prov_id front) else m).
    assert (Fill2 : forall m, fill (fill m) = fill m).
    { intros m. unfold fill. destruct (WString.empty (providerId m)) eqn:E; [|now rewrite E].
      cbn [providerId with_providerId].
      destruct (WString.empty (prov_id front)); reflexivity. }
    split; [apply length_map|].
    split; [rewrite map_map; apply map_ext; exact Fill2|].
    split.
    { intros H. rewrite <- (map_id g_models) at 2. apply map_ext_in.
      intros m Hm. unfold fill. specialize (H m Hm).
      destruct (providerId m); [congruence|reflexivity]. }
    split.
    { intros i m Hm. exists (fill m). split; [now apply map_nth_error|].
      unfold fill. destruct (WString.empty (providerId m)) eqn:E.
      - split; [reflexivity|]. split; [reflexivity|]. split; [reflexivity|].
        split; [reflexivity|]. split.
        { intros H. destruct (providerId m); [congruence|discriminate]. }
        split.
        { intros Hids. unfold resolve_provider. cbn [providerId with_providerId].
          rewrite FindProviderById_front.
          destruct (providerId m) as [|c s] eqn:Ep; [|discriminate].
          destruct (FindProviderById (front :: rest) []) as [p|] eqn:F; [|reflexivity].
          unfold FindProviderById in F. apply find_some in F as [Hin Hid].
          apply WString_eqb_eq in Hid. exfalso. exact (Hids p Hin Hid). }
        split; [|discriminate].
        intros _ front' [= <-]. reflexivity.
      - split; [reflexivity|]. split; [reflexivity|]. split; [reflexivity|].
        split; [reflexivity|]. split; [reflexivity|]. split; [reflexivity|].
        split; [|discriminate].
        intros Hp. rewrite Hp in E. discriminate E. }
    intros _ Hids m Hm. apply in_map_iff in Hm as [m0 [<- Hm0]].
    unfold fill. destruct (WString.empty (providerId m0)) eqn:E.
    + cbn [providerId with_providerId]. apply Hids. now left.
    + destruct (providerId m0); [discriminate|congruence].
Qed.

Lemma EnsureModelProviders_backfill_witness :
  EnsureModelProviders [demo_provider] [with_providerId (demo_model []) []; demo_model []]
  = [demo_model []; demo_model []]
  /\ resolve_provider [demo_provider] (with_providerId (demo_model []) [])
     = Some demo_provider
  /\ (exists m', nth_error (EnsureModelProviders [demo_provider]
                              [with_providerId (demo_model []) []; demo_model []]) 0
                 = Some m'
                 /\ providerId m' = L "demo").
Proof.
  destruct (EnsureModelProviders_backfill [demo_provider]
              [with_providerId (demo_model []) []; demo_model []])
    as (_ & _ & _ & H4 & H5).
  destruct (H4 0 _ eq_refl) as (m' & Hm' & _ & _ & _ & _ & _ & Hres & Hfill & _).
  split; [reflexivity|]. split.
  - rewrite <- Hres.
    + injection Hm' as <-. reflexivity.
    + intros p [<-|[]]. discriminate.
  - exists m'. split; [exact Hm'|]. exact (Hfill eq_refl demo_provider eq_refl).
Defined.

(** X6.  After the loop of [LoadConfig] every filter index is an index of
    the model list (when there is a model), nothing else of a filter has
    changed, and a run takes the same model for the filter as it would have
    taken before: the clamping at load time and the one in [RunFilter]
    agree. *)
Theorem LoadConfig_clamp_valid (g_models : list ModelConfig)
    (g_filters : list FilterDefinition) :
  length (LoadConfig_clamp g_models g_filters) = length g_filters
  /\ (g_models <> [] ->
      forall f, In f (LoadConfig_clamp g_models g_filters) ->
                flt_modelIndex f < length g_models)
  /\ (forall i f, nth_error g_filters i = Some f ->
                  exists f', nth_error (LoadConfig_clamp g_models g_filters) i = Some f'
                             /\ flt_title f' = flt_title f /\ flt_input f' = flt_input f
                             /\ flt_output f' = flt_output f /\ flt_prompt f' = flt_prompt f
                             /\ (flt_modelIndex f < length g_models -> f' = f)
                             /\ modelRef g_models f' = modelRef g_models f)
  /\ LoadConfig_clamp g_models (LoadConfig_clamp g_models g_filters)
     = LoadConfig_clamp g_models g_filters.
Proof.
  unfold LoadConfig_clamp.
  set (clamp := fun f => if length g_models <=? flt_modelIndex f
                         then with_modelIndex f 0 else f).
  split; [apply length_map|].
  split.
  { intros Hne f Hf. apply in_map_iff in Hf as [f0 [<- _]]. unfold clamp.
    destruct (Nat.leb_spec (length g_models) (flt_modelIndex f0)); [|assumption].
    cbn. destruct g_models; [congruence|simpl; lia]. }
  split.
  { intros i f Hf. exists (clamp f). split; [now apply map_nth_error|]. unfold clamp.
    destruct (Nat.leb_spec (length g_models) (flt_modelIndex f)) as [Hge|Hlt].
    - repeat split; try reflexivity; [lia|].
      unfold modelRef. cbn [flt_modelIndex with_modelIndex].
      destruct (Nat.ltb_spec (flt_modelIndex f) (length g_models)); [lia|].
      now destruct (0 <? length g_models).
    - repeat split; reflexivity. }
  rewrite map_map. apply map_ext. intros f. unfold clamp.
  destruct (Nat.leb_spec (length g_models) (flt_modelIndex f)) as [Hge|Hlt].
  - cbn [flt_modelIndex with_modelIndex].
    destruct (Nat.leb_spec (length g_models) 0); reflexivity.
  - destruct (Nat.leb_spec (length g_models) (flt_modelIndex f)); [lia|reflexivity].
Qed.

Lemma LoadConfig_clamp_valid_witness :
  (forall f, In f (LoadConfig_clamp [demo_model []] [filter_with_index 7; demo_filter]) ->
             flt_modelIndex f < 1)
  /\ LoadConfig_clamp [demo_model []] [filter_with_index 7; demo_filter]
     = [demo_filter; demo_filter].
Proof.
  destruct (LoadConfig_clamp_valid [demo_model []] [filter_with_index 7; demo_filter])
    as (_ & H2 & _).
  split; [apply H2; discriminate|reflexivity].
Defined.

(** ** Replacing and escaping *)

(** X7.  With a non-empty [from], the loop of [ReplaceAll] ends within the
    iteration bound whatever [to] is, the result replaces the occurrences
    of [from] from left to right without overlap, and the text put in is
    not searched again: replacing [from] in [from] itself gives [to], also
    when [to] contains [from]. *)
Theorem ReplaceAll_left_to_right (s from to : wstring) :
  from <> [] ->
  (forall fuel, length s < fuel ->
                ReplaceAll_loop fuel s from to 0 = ReplaceAll s from to)
  /\ (WString.find s from 0 = None -> ReplaceAll s from to = s)
  /\ (forall p, WString.find s from 0 = Some p ->
                s = firstn p s ++ from ++ skipn (p + length from) s
                /\ ReplaceAll s from to
                   = firstn p s ++ to ++ ReplaceAll (skipn (p + length from) s) from to)
  /\ ReplaceAll from from to = to
  /\ ReplaceAll (from ++ from) from to = to ++ to.
Proof.
  intros Hfrom.
  assert (Self : forall rest, ReplaceAll (from ++ rest) from to
                              = to ++ ReplaceAll rest from to).
  { intros rest. rewrite ReplaceAll_unfold by exact Hfrom.
    assert (F : WString.find (from ++ rest) from 0 = Some 0).
    { rewrite find_0. destruct from as [|c from']; [congruence|].
      cbn [app WString.find_at]. change (c :: from' ++ rest) with ((c :: from') ++ rest).
      now rewrite starts_with_app. }
    rewrite F. cbn [firstn app Nat.add].
    now rewrite skipn_app, skipn_all, Nat.sub_diag. }
  assert (Nil : ReplaceAll [] from to = []).
  { apply ReplaceAll_absent. rewrite find_0. destruct from; [congruence|reflexivity]. }
  split.
  { intros fuel Hfuel. unfold ReplaceAll.
    apply ReplaceAll_loop_fuel; [exact Hfrom|exact Hfuel|lia]. }
  split; [apply ReplaceAll_absent|].
  split.
  { intros p Hp. split; [exact (proj1 (find_Some _ _ _ Hp))|].
    rewrite ReplaceAll_unfold at 1 by exact Hfrom. now rewrite Hp. }
  split.
  { rewrite <- (app_nil_r from) at 1. rewrite Self, Nil. apply app_nil_r. }
  rewrite Self. rewrite <- (app_nil_r from) at 1. rewrite Self, Nil.
  now rewrite app_nil_r.
Qed.

Lemma ReplaceAll_left_to_right_witness :
  ReplaceAll (L "<<x>>") (L "<<x>>") (L "<<x>><<x>>") = L "<<x>><<x>>"
  /\ ReplaceAll (L "a<<x>>b") (L "<<x>>") (L "<<x>>!")
     = L "a" ++ L "<<x>>!" ++ ReplaceAll (L "b") (L "<<x>>") (L "<<x>>!").
Proof.
  destruct (ReplaceAll_left_to_right (L "<<x>>") (L "<<x>>") (L "<<x>><<x>>"))
    as (_ & _ & _ & H4 & _); [discriminate|].
  destruct (ReplaceAll_left_to_right (L "a<<x>>b") (L "<<x>>") (L "<<x>>!"))
    as (_ & _ & H3 & _); [discriminate|].
  split; [exact H4|]. exact (proj2 (H3 1 eq_refl)).
Defined.

Lemma JsonEscape_cons (c : wchar_t) (s : wstring) :
  JsonEscape (c :: s) = JsonEscape_char c ++ JsonEscape s.
Proof. reflexivity. Qed.

Lemma JsonEscape_char_cases (c : wchar_t) :
  (c = BACKSLASH /\ JsonEscape_char c = [BACKSLASH; BACKSLASH])
  \/ (c = DQUOTE /\ JsonEscape_char c = [BACKSLASH; DQUOTE])
  \/ (c = 10%N /\ JsonEscape_char c = [BACKSLASH; wc "n"])
  \/ (c = 13%N /\ JsonEscape_char c = [BACKSLASH; wc "r"])
  \/ (c = 9%N /\ JsonEscape_char c = [BACKSLASH; wc "t"])
  \/ (c <> BACKSLASH /\ c <> DQUOTE /\ c <> 10%N /\ c <> 13%N /\ c <> 9%N
      /\ JsonEscape_char c = [c]).
Proof.
  unfold JsonEscape_char.
  destruct (N.eqb_spec c BACKSLASH); [now left|].
  destruct (N.eqb_spec c DQUOTE); [right; now left|].
  destruct (N.eqb_spec c 10); [do 2 right; now left|].
  destruct (N.eqb_spec c 13); [do 3 right; now left|].
  destruct (N.eqb_spec c 9); [do 4 right; now left|].
  do 5 right. repeat split; assumption.
Qed.

Ltac escape_cases c H :=
  destruct (JsonEscape_char_cases c)
    as [[-> H]|[[-> H]|[[-> H]|[[-> H]|[[-> H]|(? & ? & ? & ? & ? & H)]]]]].

(** X8.  [JsonEscape] loses nothing and leaves nothing raw: different
    texts have different escaped texts, the escaped text has no line feed,
    carriage return or tab, and in the escaped text of a text without a
    backslash every double quote follows a backslash, so that a scan for
    the next quote that no backslash precedes runs exactly to its end. *)
Theorem JsonEscape_injective_and_clean :
  (forall a b, JsonEscape a = JsonEscape b -> a = b)
  /\ (forall s, ~ In 10%N (JsonEscape s) /\ ~ In 13%N (JsonEscape s)
                /\ ~ In 9%N (JsonEscape s))
  /\ (forall s rest, ~ In BACKSLASH s ->
                     upto_unescaped_quote (JsonEscape s ++ DQUOTE :: rest) false
                     = JsonEscape s).
Proof.
  split.
  { intros a. induction a as [|c a IH]; intros [|d b] E.
    - reflexivity.
    - exfalso. revert E. unfold JsonEscape. simpl. unfold JsonEscape_char.
      repeat match goal with
             | |- context [N.eqb d ?k] => destruct (N.eqb d k)
             end; discriminate.
    - exfalso. revert E. unfold JsonEscape. simpl. unfold JsonEscape_char.
      repeat match goal with
             | |- context [N.eqb c ?k] => destruct (N.eqb c k)
             end; discriminate.
    - revert E. unfold JsonEscape. simpl. fold (JsonEscape a) (JsonEscape b).
      unfold JsonEscape_char.
      repeat match goal with
             | |- context [N.eqb c ?k] => destruct (N.eqb_spec c k)
             end;
      repeat match goal with
             | |- context [N.eqb d ?k] => destruct (N.eqb_spec d k)
             end; simpl; intros E; inversion E; subst;
      try (f_equal; now apply IH); try congruence;
      try (exfalso; unfold BACKSLASH, DQUOTE, wc in *; simpl in *; congruence). }
  split.
  { intros s. induction s as [|c s (I1 & I2 & I3)]; [simpl; tauto|].
    rewrite JsonEscape_cons. escape_cases c H; rewrite H; repeat split;
      intros Hin; apply in_app_or in Hin as [Hin|Hin]; try tauto;
      cbn in Hin; repeat (destruct Hin as [Hin|Hin]; try discriminate Hin; try congruence). }
  intros s rest. induction s as [|c s IH]; intros Hs; [reflexivity|].
  assert (Hc : c <> BACKSLASH) by (intros ->; apply Hs; now left).
  assert (IH' : upto_unescaped_quote (JsonEscape s ++ DQUOTE :: rest) false = JsonEscape s)
    by (apply IH; intros Hin; apply Hs; now right).
  rewrite JsonEscape_cons. escape_cases c H; rewrite H; try congruence;
    cbn [app upto_unescaped_quote]; simpl N.eqb; cbn [andb negb]; rewrite ?IH';
    try reflexivity.
  destruct (N.eqb_spec c DQUOTE); [contradiction|].
  destruct (N.eqb_spec c BACKSLASH); [contradiction|].
  cbn [andb]. now rewrite IH'.
Qed.

Lemma JsonEscape_injective_and_clean_witness :
  upto_unescaped_quote (JsonEscape (Q "say 'hi'") ++ DQUOTE :: L "}") false
  = JsonEscape (Q "say 'hi'")
  /\ L "a" = L "a".
Proof.
  destruct JsonEscape_injective_and_clean as (H1 & _ & H3).
  split; [apply H3; not_in_literal|apply H1; reflexivity].
Defined.

(** X9.  What [JsonEscape] writes, the heuristic scanners read back, within
    their limits: the content scan gives the original text when it has no
    backslash, carriage return or tab, and the [b64_json] scan when it has
    no line feed, carriage return or tab; so a text of the first kind that
    comes back escaped as the first [content] value of a response is what
    [ExtractContent] returns. *)
Theorem JsonEscape_scan_roundtrip (s rest : wstring) :
  (~ In BACKSLASH s -> ~ In 13%N s -> ~ In 9%N s ->
   ExtractContent_scan (JsonEscape s ++ DQUOTE :: rest) = s
   /\ ExtractContent (Q "{'content':'" ++ JsonEscape s ++ DQUOTE :: rest) = s)
  /\ (~ In 10%N s -> ~ In 13%N s -> ~ In 9%N s ->
      ExtractB64Image_scan (JsonEscape s ++ DQUOTE :: rest) = s
      /\ ExtractB64Image (Q "{'b64_json':'" ++ JsonEscape s ++ DQUOTE :: rest) = s).
Proof.
  split.
  - intros Hb Hr Ht.
    assert (Scan : ExtractContent_scan (JsonEscape s ++ DQUOTE :: rest) = s).
    { induction s as [|c s IH]; [reflexivity|].
      assert (IH' : ExtractContent_scan (JsonEscape s ++ DQUOTE :: rest) = s).
      { apply IH; intros Hin; [apply Hb|apply Hr|apply Ht]; now right. }
      assert (c <> BACKSLASH) by (intros ->; apply Hb; now left).
      assert (c <> 13%N) by (intros ->; apply Hr; now left).
      assert (c <> 9%N) by (intros ->; apply Ht; now left).
      rewrite JsonEscape_cons. escape_cases c Esc; rewrite Esc; try congruence.
      + cbn [app ExtractContent_scan]. simpl N.eqb. cbv iota. now rewrite IH'.
      + cbn [app ExtractContent_scan]. simpl N.eqb. cbv iota. now rewrite IH'.
      + cbn [app ExtractContent_scan].
        destruct (N.eqb_spec c DQUOTE); [contradiction|].
        destruct (N.eqb_spec c BACKSLASH); [contradiction|]. now rewrite IH'. }
    split; [exact Scan|].
    unfold ExtractContent. cbn -[ExtractContent_scan JsonEscape]. exact Scan.
  - intros Hn Hr Ht.
    assert (Scan : ExtractB64Image_scan (JsonEscape s ++ DQUOTE :: rest) = s).
    { induction s as [|c s IH]; [reflexivity|].
      assert (IH' : ExtractB64Image_scan (JsonEscape s ++ DQUOTE :: rest) = s).
      { apply IH; intros Hin; [apply Hn|apply Hr|apply Ht]; now right. }
      assert (c <> 10%N) by (intros ->; apply Hn; now left).
      assert (c <> 13%N) by (intros ->; apply Hr; now left).
      assert (c <> 9%N) by (intros ->; apply Ht; now left).
      rewrite JsonEscape_cons. escape_cases c Esc; rewrite Esc; try congruence.
      + cbn [app ExtractB64Image_scan]. simpl N.eqb. cbv iota. now rewrite IH'.
      + cbn [app ExtractB64Image_scan]. simpl N.eqb. cbv iota. now rewrite IH'.
      + cbn [app ExtractB64Image_scan].
        destruct (N.eqb_spec c DQUOTE); [contradiction|].
        destruct (N.eqb_spec c BACKSLASH); [contradiction|]. now rewrite IH'. }
    split; [exact Scan|].
    unfold ExtractB64Image. cbn -[ExtractB64Image_scan JsonEscape]. exact Scan.
Qed.

Lemma JsonEscape_scan_roundtrip_witness :
  ExtractContent (Q "{'content':'" ++ JsonEscape (Q "say 'hi'") ++ DQUOTE :: L "}")
  = Q "say 'hi'"
  /\ ExtractB64Image (Q "{'b64_json':'" ++ JsonEscape (L "a\b/c") ++ DQUOTE :: L "}")
     = L "a\b/c".
Proof.
  destruct (JsonEscape_scan_roundtrip (Q "say 'hi'") (L "}")) as [H1 _].
  destruct (JsonEscape_scan_roundtrip (L "a\b/c") (L "}")) as [_ H2].
  split.
  - apply H1; not_in_literal.
  - apply H2; not_in_literal.
Defined.

(** X10.  The escaped text is the inside of a JSON string exactly for the
    texts without other control characters: for a text whose code units
    are 32 or more, or line feed, carriage return or tab, a parser of JSON
    strings reads the escaped text, closed by a quote, back to the text. *)
Theorem JsonEscape_parse_roundtrip (s rest : wstring) :
  (forall c, In c s -> (32 <= c)%N \/ c = 10%N \/ c = 13%N \/ c = 9%N) ->
  Json.parse_string (JsonEscape s ++ DQUOTE :: rest) = Some (s, rest).
Proof.
  intros Hs. induction s as [|c s IH]; [reflexivity|].
  assert (IH' : Json.parse_string (JsonEscape s ++ DQUOTE :: rest) = Some (s, rest)).
  { apply IH. intros d Hd. apply Hs. now right. }
  assert (Hc : (32 <= c)%N \/ c = 10%N \/ c = 13%N \/ c = 9%N) by (apply Hs; now left).
  rewrite JsonEscape_cons. escape_cases c Esc; rewrite Esc;
    cbn [app Json.parse_string]; simpl N.eqb; cbv iota;
    try (cbn [Json.simple_escape]; simpl N.eqb; cbv iota; now rewrite IH').
  destruct (N.eqb_spec c DQUOTE); [contradiction|].
  destruct (N.eqb_spec c BACKSLASH); [contradiction|].
  destruct (N.ltb_spec c 32) as [Hlt|_]; [|now rewrite IH'].
  exfalso. destruct Hc as [Hc|[Hc|[Hc|Hc]]]; try contradiction; lia.
Qed.

Lemma JsonEscape_parse_roundtrip_witness :
  Json.parse_string (JsonEscape (Q "say 'hi'\") ++ DQUOTE :: L "}")
  = Some (Q "say 'hi'\", L "}").
Proof.
  apply (JsonEscape_parse_roundtrip (Q "say 'hi'\") (L "}")).
  intros c Hc. left. cbv in Hc.
  repeat (destruct Hc as [Hc|Hc]; [subst c; discriminate|]). destruct Hc.
Defined.

(** ** Containment without case *)

Lemma find_occurrence (a needle b : wstring) :
  exists p, WString.find (a ++ needle ++ b) needle 0 = Some p /\ p <= length a.
Proof.
  rewrite find_0. induction a as [|x a [p [IH Hp]]].
  - exists 0. split; [|lia]. cbn [app].
    destruct (needle ++ b) eqn:E; unfold WString.find_at;
      rewrite <- E, starts_with_app; reflexivity.
  - cbn [app WString.find_at].
    destruct (WString.starts_with needle (x :: a ++ needle ++ b)).
    + exists 0. split; [reflexivity|lia].
    + exists (S p). rewrite find_at_shift, IH. split; [reflexivity|simpl; lia].
Qed.

Lemma starts_with_map (f : wchar_t -> wchar_t) (p s : wstring) :
  WString.starts_with p s = true -> WString.starts_with (map f p) (map f s) = true.
Proof.
  intros H. apply starts_with_split in H. rewrite H, map_app. apply starts_with_app.
Qed.

(** X11.  [ContainsNoCase] finds the needle in any letter case and nothing
    else: it holds exactly when some part of the text equals the needle
    after lower-casing both; lower-casing either argument beforehand
    changes nothing, and it holds whenever the case-sensitive search
    does. *)
Theorem ContainsNoCase_any_case (hay needle : wstring) :
  (ContainsNoCase hay needle = true <->
   exists a part b, hay = a ++ part ++ b /\ toLow part = toLow needle)
  /\ ContainsNoCase (toLow hay) needle = ContainsNoCase hay needle
  /\ ContainsNoCase hay (toLow needle) = ContainsNoCase hay needle
  /\ (Contains hay needle = true -> ContainsNoCase hay needle = true).
Proof.
  assert (Fwd : forall a part b, toLow part = toLow needle ->
                                 ContainsNoCase (a ++ part ++ b) needle = true).
  { intros a part b E. unfold ContainsNoCase, toLow in *. rewrite !map_app, E.
    destruct (find_occurrence (map towlower a) (map towlower needle) (map towlower b))
      as [p [F _]].
    now rewrite F. }
  split.
  { split.
    - unfold ContainsNoCase.
      destruct (WString.find (toLow hay) (toLow needle) 0) as [p|] eqn:F; [|discriminate].
      intros _. rewrite find_0 in F. destruct (find_at_Some _ _ _ F) as [E Hlen].
      apply starts_with_split in E.
      exists (firstn p hay), (firstn (length needle) (skipn p hay)),
        (skipn (p + length needle) hay).
      unfold toLow in *. rewrite !length_map in Hlen. rewrite length_map in E. split.
      + rewrite <- (firstn_skipn p hay) at 1. f_equal.
        rewrite <- (firstn_skipn (length needle) (skipn p hay)) at 1. f_equal.
        rewrite skipn_skipn. f_equal. lia.
      + rewrite <- firstn_map, <- skipn_map, E.
        rewrite firstn_app, firstn_all2 by (rewrite length_map; lia).
        rewrite length_map, Nat.sub_diag. cbn [firstn]. apply app_nil_r.
    - intros (a & part & b & -> & E). now apply Fwd. }
  split; [unfold ContainsNoCase; now rewrite toLow_idempotent|].
  split; [unfold ContainsNoCase; now rewrite toLow_idempotent|].
  unfold Contains. destruct (WString.find hay needle 0) as [p|] eqn:F; [|discriminate].
  intros _. destruct (find_Some _ _ _ F) as [E _]. rewrite E. now apply Fwd.
Qed.

Lemma ContainsNoCase_any_case_witness :
  ContainsNoCase (L "Content-Type: Multipart/Form-Data") (L "multipart/form-data") = true.
Proof.
  destruct (ContainsNoCase_any_case (L "Content-Type: Multipart/Form-Data")
                                    (L "multipart/form-data")) as [[_ H] _].
  apply H. exists (L "Content-Type: "), (L "Multipart/Form-Data"), [].
  split; reflexivity.
Defined.

(** ** The resolved endpoint *)

(** X12.  The host [PrepareEndpoint] returns never contains a slash, and
    nothing is lost in the split: for an absolute fragment, host and path
    together are the fragment without its scheme; for a fragment that
    begins with a slash, they are the server base without its scheme
    followed by the fragment. *)
Theorem PrepareEndpoint_host_clean (serverUrl tplPath : wstring) (useHttps : bool) :
  let r := PrepareEndpoint serverUrl tplPath useHttps in
  let fragment := effective_fragment tplPath in
  ~ In SLASH (ep_host r)
  /\ (is_absolute fragment = true -> ep_host r ++ ep_path r = strip_scheme fragment)
  /\ (is_absolute fragment = false -> hd_error fragment = Some SLASH ->
      ep_host r ++ ep_path r = strip_scheme serverUrl ++ fragment).
Proof.
  cbv zeta. rewrite PrepareEndpoint_carrier. cbv zeta. unfold carrier.
  cbn [ep_host ep_path].
  destruct (is_absolute (effective_fragment tplPath)).
  - set (host0 := strip_scheme (effective_fragment tplPath)).
    destruct (WString.find host0 [SLASH] 0) as [k|] eqn:F; cbn [fst snd].
    + destruct (find_char_Some _ _ _ F) as [E Hno].
      split; [exact Hno|]. split; [intros _|discriminate].
      rewrite app_nil_r.
      assert (Sk : skipn k host0 = SLASH :: skipn (S k) host0).
      { rewrite E at 1. rewrite skipn_app, skipn_all2 by (rewrite length_firstn; lia).
        assert (Hk : k <= length host0).
        { apply find_Some in F as [_ Hk]. simpl in Hk. lia. }
        rewrite length_firstn, Nat.min_l, Nat.sub_diag by exact Hk. reflexivity. }
      rewrite Sk. cbv iota. change (N.eqb SLASH SLASH) with true. cbv iota.
      rewrite <- Sk. apply firstn_skipn.
    + split; [now apply find_char_None|]. split; [intros _; apply app_nil_r|discriminate].
  - set (host0 := strip_scheme serverUrl).
    destruct (WString.find host0 [SLASH] 0) as [k|] eqn:F; cbn [fst snd].
    + destruct (find_char_Some _ _ _ F) as [E Hno].
      split; [exact Hno|]. split; [discriminate|intros _ Hhd].
      assert (Sk : skipn k host0 = SLASH :: skipn (S k) host0).
      { rewrite E at 1. rewrite skipn_app, skipn_all2 by (rewrite length_firstn; lia).
        assert (Hk : k <= length host0).
        { apply find_Some in F as [_ Hk]. simpl in Hk. lia. }
        rewrite length_firstn, Nat.min_l, Nat.sub_diag by exact Hk. reflexivity. }
      rewrite Sk. cbn [app]. change (N.eqb SLASH SLASH) with true. cbv iota.
      change (SLASH :: skipn (S k) host0 ++ effective_fragment tplPath)
        with ((SLASH :: skipn (S k) host0) ++ effective_fragment tplPath).
      rewrite <- Sk. rewrite app_assoc. now rewrite firstn_skipn.
    + split; [now apply find_char_None|]. split; [discriminate|intros _ Hhd].
      destruct (effective_fragment tplPath) as [|c f]; [discriminate|].
      injection Hhd as ->. reflexivity.
Qed.

Lemma PrepareEndpoint_host_clean_witness :
  ep_host (PrepareEndpoint (L "https://api.openai.com/v1") (L "/chat/completions") true)
    ++ ep_path (PrepareEndpoint (L "https://api.openai.com/v1") (L "/chat/completions")
                                true)
  = L "api.openai.com/v1/chat/completions"
  /\ ep_host (PrepareEndpoint [] (L "http://localhost:8080/api") true)
       ++ ep_path (PrepareEndpoint [] (L "http://localhost:8080/api") true)
     = L "localhost:8080/api".
Proof.
  destruct (PrepareEndpoint_host_clean (L "https://api.openai.com/v1")
                                       (L "/chat/completions") true) as (_ & _ & H3).
  destruct (PrepareEndpoint_host_clean [] (L "http://localhost:8080/api") true)
    as (_ & H2 & _).
  split; [apply H3; reflexivity|apply H2; reflexivity].
Defined.

(** ** Walking a result path *)

Lemma walk_path_app (a b : list wstring) (cur : JsonValue) :
  walk_path (a ++ b) cur =
  match walk_path a cur with
  | Some v => walk_path b v
  | None => None
  end.
Proof.
  revert cur. induction a as [|p a IH]; intros cur; [reflexivity|].
  cbn [app walk_path]. destruct (parse_segment p) as [key idx].
  match goal with
  | |- match ?first with _ => _ end = _ => destruct first as [[v i]|]
  end; [|reflexivity].
  destruct (0 <=? i)%Z; [|apply IH].
  destruct v; try reflexivity.
  destruct (GetAt items i); apply IH.
Qed.

Lemma split_path_nonempty (path : wstring) : split_path path <> [].
Proof.
  destruct path as [|c r]; cbn [split_path]; [discriminate|].
  destruct (N.eqb c (wc ".")); [discriminate|].
  destruct (split_path r); discriminate.
Qed.

Lemma split_path_app_dot (a b : wstring) :
  split_path (a ++ wc "." :: b) = split_path a ++ split_path b.
Proof.
  induction a as [|c a IH]; cbn [app split_path].
  - now rewrite N.eqb_refl.
  - destruct (N.eqb c (wc ".")); [now rewrite IH|].
    rewrite IH. pose proof (split_path_nonempty a) as Hne.
    destruct (split_path a); [congruence|reflexivity].
Qed.

Lemma split_path_parts (path p : wstring) :
  In p (split_path path) -> forall c, In c p -> In c path /\ c <> wc ".".
Proof.
  revert p. induction path as [|x path IH]; intros p Hp c Hc; cbn [split_path] in Hp.
  - destruct Hp as [<-|[]]. destruct Hc.
  - destruct (N.eqb_spec x (wc ".")) as [->|Hx].
    + destruct Hp as [<-|Hp]; [destruct Hc|].
      destruct (IH p Hp c Hc). split; [now right|assumption].
    + pose proof (split_path_nonempty path) as Hne.
      destruct (split_path path) as [|p0 ps] eqn:E; [congruence|].
      destruct Hp as [<-|Hp].
      * destruct Hc as [<-|Hc]; [split; [now left|assumption]|].
        destruct (IH p0 (or_introl eq_refl) c Hc). split; [now right|assumption].
      * destruct (IH p (or_intror Hp) c Hc). split; [now right|assumption].
Qed.

Lemma walk_path_scalar (parts : list wstring) (cur : JsonValue) :
  is_scalar cur = true ->
  (forall p, In p parts -> (snd (parse_segment p) < 0)%Z) ->
  walk_path parts cur = Some cur.
Proof.
  intros Hs. induction parts as [|p parts IH]; intros Hp; [reflexivity|].
  cbn [walk_path]. pose proof (Hp p (or_introl eq_refl)) as Hneg.
  destruct (parse_segment p) as [key idx]. cbn [snd] in Hneg.
  assert (E : (0 <=? idx)%Z = false) by (apply Z.leb_gt; exact Hneg).
  destruct cur; try discriminate; rewrite E; apply IH; intros q Hq; apply Hp; now right.
Qed.

(** X13.  Walking a path is walking its parts one after the other, and once
    the walk stands on a string, number, boolean or null every further
    segment without an index is ignored: a path that is too long for the
    response still gives the value found on the way, not the empty
    result. *)
Theorem ExtractByPath_ignores_segments_behind_scalar (json path extra : wstring)
    (root v : JsonValue) :
  Json.Parse json = Some root ->
  walk_path (split_path path) root = Some v ->
  is_scalar v = true ->
  ~ In (wc "[") extra ->
  walk_path (split_path (path ++ wc "." :: extra)) root = Some v
  /\ ExtractByPath json (path ++ wc "." :: extra) = ExtractByPath json path.
Proof.
  intros Hparse Hwalk Hs Hextra.
  assert (W : walk_path (split_path (path ++ wc "." :: extra)) root = Some v).
  { rewrite split_path_app_dot, walk_path_app, Hwalk.
    apply walk_path_scalar; [exact Hs|].
    intros p Hp. rewrite parse_segment_plain; [reflexivity|].
    intros Hin. apply Hextra. exact (proj1 (split_path_parts _ _ Hp _ Hin)). }
  split; [exact W|]. unfold ExtractByPath. now rewrite Hparse, W, Hwalk.
Qed.

Lemma ExtractByPath_ignores_segments_behind_scalar_witness :
  ExtractByPath (Q "{'a':'x'}") (L "a.b.c") = ExtractByPath (Q "{'a':'x'}") (L "a").
Proof.
  apply (ExtractByPath_ignores_segments_behind_scalar
           (Q "{'a':'x'}") (L "a") (L "b.c") (JObject [(L "a", JString (L "x"))])
           (JString (L "x"))); try reflexivity.
  not_in_literal.
Defined.

(** X14.  Splitting a path at its dots loses nothing: the parts joined
    with dots are the path, no part contains a dot, and there is one part
    more than there are dots, so that an empty path has the one empty
    part. *)
Theorem split_path_join (path : wstring) :
  Json.join (L ".") (split_path path) = path
  /\ length (split_path path) = S (count_occ N.eq_dec path (wc "."))
  /\ (forall p, In p (split_path path) -> ~ In (wc ".") p).
Proof.
  split; [|split].
  - induction path as [|c path IH]; [reflexivity|].
    cbn [split_path]. pose proof (split_path_nonempty path) as Hne.
    destruct (N.eqb_spec c (wc ".")) as [->|Hc].
    + destruct (split_path path) as [|p0 ps] eqn:E; [congruence|].
      change (Json.join (L ".") ([] :: p0 :: ps))
        with ([] ++ L "." ++ Json.join (L ".") (p0 :: ps)).
      rewrite IH. reflexivity.
    + destruct (split_path path) as [|p0 ps] eqn:E; [congruence|].
      rewrite <- IH. destruct ps as [|p1 ps]; reflexivity.
  - induction path as [|c path IH]; [reflexivity|].
    cbn [split_path count_occ]. pose proof (split_path_nonempty path) as Hne.
    destruct (N.eqb_spec c (wc ".")) as [->|Hc].
    + destruct (N.eq_dec (wc ".") (wc ".")); [|congruence]. simpl. now rewrite IH.
    + destruct (N.eq_dec c (wc ".")); [congruence|].
      destruct (split_path path) as [|p0 ps] eqn:E; [congruence|].
      rewrite <- IH. reflexivity.
  - intros p Hp Hin. exact (proj2 (split_path_parts _ _ Hp _ Hin) eq_refl).
Qed.

(** X15.  How a segment is read: without an opening bracket it is a name
    and has no index; with one and a closing bracket at its end, the name
    is the text before the first opening bracket and the index is [_wtoi]
    of everything between that bracket and the last character; with an
    opening bracket and no closing bracket at the end the whole segment is
    the name. *)
Theorem parse_segment_syntax (key inner : wstring) (c : wchar_t) :
  ~ In (wc "[") key ->
  parse_segment key = (key, (-1)%Z)
  /\ parse_segment (key ++ wc "[" :: inner ++ [wc "]"]) = (key, _wtoi inner)
  /\ (c <> wc "]" ->
      parse_segment (key ++ wc "[" :: inner ++ [c])
      = (key ++ wc "[" :: inner ++ [c], (-1)%Z)).
Proof.
  intros Hkey. split; [now apply parse_segment_plain|].
  split; [now apply parse_segment_indexed|].
  intros Hc. unfold parse_segment. rewrite (find_char_app key _ _ Hkey).
  replace (last (key ++ wc "[" :: inner ++ [c]) 0%N) with c.
  2:{ change (key ++ wc "[" :: inner ++ [c]) with (key ++ (wc "[" :: inner) ++ [c]).
      rewrite app_assoc. now rewrite last_last. }
  destruct (N.eqb_spec c (wc "]")); [contradiction|reflexivity].
Qed.

Lemma parse_segment_syntax_witness :
  parse_segment (L "choices[0]") = (L "choices", 0%Z)
  /\ parse_segment (L "a[1][2]") = (L "a", 1%Z)
  /\ parse_segment (L "a[1") = (L "a[1", (-1)%Z).
Proof.
  destruct (parse_segment_syntax (L "choices") (L "0") 0%N) as (_ & H2 & _);
    [not_in_literal|].
  destruct (parse_segment_syntax (L "a") (L "1][2") 0%N) as (_ & H2' & _);
    [not_in_literal|].
  destruct (parse_segment_syntax (L "a") [] (wc "1")) as (_ & _ & H3);
    [not_in_literal|].
  split; [exact H2|]. split; [exact H2'|]. apply H3. discriminate.
Defined.

Lemma split_path_join_witness : ~ In (wc ".") (L "message").
Proof.
  apply (proj2 (proj2 (split_path_join (L "choices[0].message")))).
  right. left. reflexivity.
Defined.

(** ** Effects of a call and of a run *)

Lemma http_requests_app (a b : list Event) :
  http_requests (a ++ b) = http_requests a ++ http_requests b.
Proof.
  induction a as [|e a IH]; [reflexivity|].
  destruct e; cbn [app http_requests]; rewrite IH; reflexivity.
Qed.

Lemma clipboard_writes_app (a b : list Event) :
  clipboard_writes (a ++ b) = clipboard_writes a ++ clipboard_writes b.
Proof. apply filter_app. Qed.

(** The events of the extraction step: no request, no clipboard write, no
    release of a bitmap. *)
Lemma CallTemplate_extract_events (plat : Platform) (tpl : TemplateDefinition)
    (resp : wstring) :
  let out := CallTemplate_extract plat tpl resp in
  http_requests (snd out) = [] /\ clipboard_writes (snd out) = []
  /\ (forall e, In e (snd out) ->
                (exists msg, e = EvLog (Log msg)) \/ (exists b64, e = EvBase64ToBitmap b64))
  /\ (tpl_output tpl = Text -> res_image (fst out) = None)
  /\ (tpl_output tpl = Image -> res_text (fst out) = [])
  /\ (forall h, res_image (fst out) = Some h ->
                exists b64, b64 <> [] /\ Base64ToBitmap plat b64 = Some h
                            /\ In (EvBase64ToBitmap b64) (snd out)).
Proof.
  cbv zeta. unfold CallTemplate_extract. destruct (tpl_output tpl).
  - cbn [fst snd res_image res_text].
    match goal with |- context [if WString.empty ?t then [EvLog _] else []] =>
      destruct (WString.empty t) end;
      (split; [reflexivity|]; split; [reflexivity|]; split;
       [intros e He; try destruct He as [<-|[]]; try destruct He; left; eexists; reflexivity|];
       split; [reflexivity|]; split; [discriminate|discriminate]).
  - match goal with |- context [if negb (WString.empty ?b) then _ else _] =>
      set (b64 := b); destruct b64 as [|c0 b0] eqn:Eb end; cbn [WString.empty negb].
    + cbn [fst snd res_image res_text app].
      split; [reflexivity|]. split; [reflexivity|]. split.
      { intros e [<-|[]]. left. eexists; reflexivity. }
      split; [discriminate|]. split; [reflexivity|discriminate].
    + destruct (Base64ToBitmap plat (c0 :: b0)) as [h|] eqn:Eh;
        cbn [fst snd res_image res_text app];
        (split; [reflexivity|]; split; [reflexivity|]; split;
         [intros e He; destruct He as [<-|He];
          [right; eexists; reflexivity
          |try destruct He as [<-|[]]; try destruct He; left; eexists; reflexivity]|];
         split; [discriminate|]; split; [reflexivity|]).
      * intros h' [= <-]. exists (c0 :: b0). split; [discriminate|].
        split; [exact Eh|now left].
      * discriminate.
Qed.

Lemma CallTemplate_events (plat : Platform) (tpl : TemplateDefinition) (m : ModelConfig)
    (systemPrompt prompt imageB64 imageDataUrl : wstring) :
  let out := CallTemplate plat tpl m systemPrompt prompt imageB64 imageDataUrl in
  http_requests (snd out)
  = match CallTemplate_request (CryptStringToBinary plat) tpl m systemPrompt prompt
                               imageB64 imageDataUrl with
    | Some req => [req]
    | None => []
    end
  /\ clipboard_writes (snd out) = []
  /\ (forall bmp, ~ In (EvDeleteObject bmp) (snd out))
  /\ (tpl_output tpl = Text -> res_image (fst out) = None)
  /\ (tpl_output tpl = Image -> res_text (fst out) = [])
  /\ (forall h, res_image (fst out) = Some h ->
                exists b64, b64 <> [] /\ Base64ToBitmap plat b64 = Some h
                            /\ In (EvBase64ToBitmap b64) (snd out))
  /\ (CallTemplate_request (CryptStringToBinary plat) tpl m systemPrompt prompt
                           imageB64 imageDataUrl = None ->
      fst out = ApiCallResult_default).
Proof.
  cbv zeta.
  destruct (CallTemplate_request (CryptStringToBinary plat) tpl m systemPrompt prompt
                                 imageB64 imageDataUrl) as [req|] eqn:Hreq.
  - rewrite (CallTemplate_unfold _ _ _ _ _ _ _ _ Hreq). cbv zeta.
    destruct (HttpRequestWithHeaders (WinHttp plat req)) as [resp err]. cbn [fst snd].
    destruct (CallTemplate_extract_events plat tpl resp) as (X1 & X2 & X3 & X4 & X5 & X6).
    cbv zeta in *.
    assert (Pre : forall tail,
               http_requests
                 ([EvLog (Log (L "request host: " ++ req_host req));
                   EvLog (Log (L "request path: " ++ req_path req));
                   EvLog (LogBody (req_body req)); EvHttp req] ++ tail)
               = req :: http_requests tail) by reflexivity.
    destruct (WString.empty resp); cbn [fst snd].
    + destruct (WString.empty err); cbn [app];
        (split; [reflexivity|]; split; [reflexivity|]; split;
         [intros bmp Hin; cbn in Hin;
          repeat (destruct Hin as [Hin|Hin]; [discriminate Hin|]); exact Hin|];
         split; [reflexivity|]; split; [reflexivity|]; split; discriminate).
    + rewrite http_requests_app, clipboard_writes_app, X1, X2.
      split; [destruct (WString.empty err); reflexivity|].
      split; [destruct (WString.empty err); reflexivity|].
      split.
      { intros bmp Hin. apply in_app_or in Hin as [Hin|Hin].
        - destruct (WString.empty err); cbn in Hin;
            repeat (destruct Hin as [Hin|Hin]; [discriminate Hin|]); exact Hin.
        - destruct (X3 _ Hin) as [[msg E]|[b E]]; discriminate E. }
      split; [exact X4|]. split; [exact X5|]. split; [|discriminate].
      intros h Hh. destruct (X6 h Hh) as (b & B1 & B2 & B3).
      exists b. split; [exact B1|]. split; [exact B2|].
      apply in_or_app. now right.
  - unfold CallTemplate. rewrite Hreq. cbn [fst snd].
    split; [reflexivity|]. split; [reflexivity|]. split.
    { intros bmp [H|[]]. discriminate H. }
    split; [reflexivity|]. split; [reflexivity|]. split; [discriminate|reflexivity].
Qed.

(** X16.  A call gives a text or an image, never both: a text template
    gives no image and an image template no text, and an image is what
    [Base64ToBitmap] made of a non-empty text.  The call sends exactly one
    request when the endpoint is valid and none when it is not, and it
    never writes to the clipboard. *)
Theorem CallTemplate_result_shape (plat : Platform) (tpl : TemplateDefinition)
    (m : ModelConfig) (systemPrompt prompt imageB64 imageDataUrl : wstring) :
  let out := CallTemplate plat tpl m systemPrompt prompt imageB64 imageDataUrl in
  let ep := PrepareEndpoint (serverUrl m)
              (ReplacePlaceholders (tpl_endpoint tpl) m systemPrompt prompt imageB64
                                   imageDataUrl false) true in
  (res_text (fst out) = [] \/ res_image (fst out) = None)
  /\ (forall h, res_image (fst out) = Some h ->
                exists b64, b64 <> [] /\ Base64ToBitmap plat b64 = Some h)
  /\ (ep_valid ep = true -> length (http_requests (snd out)) = 1)
  /\ (ep_valid ep = false ->
      http_requests (snd out) = [] /\ fst out = ApiCallResult_default)
  /\ clipboard_writes (snd out) = [].
Proof.
  cbv zeta.
  destruct (CallTemplate_events plat tpl m systemPrompt prompt imageB64 imageDataUrl)
    as (E1 & E2 & _ & E4 & E5 & E6 & _). cbv zeta in *.
  split; [destruct (tpl_output tpl); [right; now apply E4|left; now apply E5]|].
  split.
  { intros h Hh. destruct (E6 h Hh) as (b & B1 & B2 & _). now exists b. }
  split.
  { intros Hv. rewrite E1. unfold CallTemplate_request. rewrite Hv. cbn [negb].
    now destruct (ContainsNoCase _ MULTIPART). }
  split; [|exact E2].
  intros Hv. split.
  - rewrite E1. unfold CallTemplate_request. now rewrite Hv.
  - unfold CallTemplate, CallTemplate_request. now rewrite Hv.
Qed.

Lemma CallTemplate_result_shape_witness :
  length (http_requests
            (snd (CallTemplate offline_platform demo_template (demo_model []) []
                               (L "hi") [] []))) = 1
  /\ http_requests
       (snd (CallTemplate offline_platform demo_template
                          (with_providerId
                             {| name := []; serverUrl := L "https://"; modelName := [];
                                apiKey := []; providerId := [] |} [])
                          [] (L "hi") [] [])) = [].
Proof.
  destruct (CallTemplate_result_shape offline_platform demo_template (demo_model []) []
              (L "hi") [] []) as (_ & _ & H3 & _).
  destruct (CallTemplate_result_shape offline_platform demo_template
              (with_providerId
                 {| name := []; serverUrl := L "https://"; modelName := [];
                    apiKey := []; providerId := [] |} [])
              [] (L "hi") [] []) as (_ & _ & _ & H4 & _).
  split; [apply H3; reflexivity|]. apply H4. reflexivity.
Defined.

Lemma resolve_template_io (g_providers : list ApiProvider) (m : ModelConfig)
    (f : FilterDefinition) (t : TemplateDefinition) :
  resolve_template g_providers m f = Some t ->
  tpl_input t = flt_input f /\ tpl_output t = flt_output f.
Proof.
  unfold resolve_template.
  assert (Any : FindTemplateAny g_providers (flt_input f) (flt_output f) = Some t ->
                tpl_input t = flt_input f /\ tpl_output t = flt_output f).
  { induction g_providers as [|q rest IH]; simpl; [discriminate|].
    destruct (FindTemplateByIO q (flt_input f) (flt_output f)) as [t'|] eqn:F; [|exact IH].
    intros [= <-]. now apply FindTemplateByIO_Some in F. }
  destruct (resolve_provider g_providers m) as [p|]; [|exact Any].
  destruct (FindTemplateByIO p (flt_input f) (flt_output f)) as [t'|] eqn:F; [|exact Any].
  intros [= <-]. now apply FindTemplateByIO_Some in F.
Qed.

Ltac run_cases plat tpl m f :=
  unfold RunFilter_with;
  destruct (tpl_input tpl);
  [ destruct (WString.empty (GetClipboardText plat)) eqn:Eclip
  | destruct (GetClipboardBitmap plat) as [bmp|] eqn:Ebmp;
    [ destruct (BitmapToBase64Png plat bmp) as [b64|] eqn:Eb64 | ] ];
  try match goal with
      | |- context [CallTemplate ?p ?t ?mm ?sp ?pr ?img ?url] =>
          let E1 := fresh "E1" in let E2 := fresh "E2" in let E3 := fresh "E3" in
          let E4 := fresh "E4" in let E5 := fresh "E5" in let E6 := fresh "E6" in
          let E7 := fresh "E7" in
          destruct (CallTemplate_events p t mm sp pr img url)
            as (E1 & E2 & E3 & E4 & E5 & E6 & E7);
          cbv zeta in E1, E2, E3, E4, E5, E6, E7;
          destruct (CallTemplate p t mm sp pr img url) as [res ev'];
          cbn [fst snd] in E1, E2, E3, E4, E5, E6, E7;
          destruct (tpl_output tpl);
          [ destruct (WString.empty (res_text res)) eqn:Etext;
            [ | destruct (SetClipboardText plat (res_text res)) as [what|] eqn:Eset ]
          | destruct (res_image res) as [image|] eqn:Eimg;
            [ destruct (SetClipboardBitmap plat image) as [what|] eqn:Eset | ] ];
          destruct (CallTemplate_request (CryptStringToBinary p) t mm sp pr img url)
            as [req|];
          try (specialize (E7 eq_refl); subst res;
               cbn [ApiCallResult_default res_text res_image WString.empty] in *;
               discriminate)
      end.

Lemma RunFilter_with_effects (plat : Platform) (tpl : TemplateDefinition)
    (m : ModelConfig) (f : FilterDefinition) :
  let ret := fst (RunFilter_with plat tpl m f) in
  let ev := snd (RunFilter_with plat tpl m f) in
  length (http_requests ev) <= 1
  /\ length (clipboard_writes ev) <= 1
  /\ (clipboard_writes ev <> [] -> length (http_requests ev) = 1)
  /\ (ret = true <-> exists w, clipboard_writes ev = [w] /\ write_succeeded plat w)
  /\ (ret = true -> exists init w, ev = init ++ [w] /\ is_clipboard_write w = true).
Proof.
  cbv zeta. run_cases plat tpl m f; cbn [fst snd].
  all: rewrite ?http_requests_app, ?clipboard_writes_app, ?E1, ?E2.
  all: cbn [http_requests clipboard_writes filter is_clipboard_write app length].
  all: split; [lia|]; split; [lia|]; split;
         [ intros W; try reflexivity; now elim W | ].
  all: split; [ split | ].
  all: try discriminate.
  all: try (intros (w & W1 & W2); try discriminate W1;
            injection W1 as <-; cbn [write_succeeded] in W2;
            match type of W2 with
            | _ /\ _ => destruct W2 as [_ W2]
            | _ => idtac
            end; rewrite W2 in Eset; discriminate Eset).
  all: try reflexivity.
  all: try (intros _; eexists; split; [reflexivity|]; cbn [write_succeeded];
            try split; try exact Eset;
            intros Z; rewrite Z in Etext; discriminate Etext).
  all: intros _.
  all: match goal with
       | |- context [EvDeleteObject ?b :: ?l ++ [?e]] =>
           exists (EvGetClipboardBitmap :: EvBitmapToBase64Png b :: EvDeleteObject b :: l), e
       | |- context [EvGetClipboardText :: ?l ++ [?e]] =>
           exists (EvGetClipboardText :: l), e
       end.
  all: split; reflexivity.
Qed.

Lemma CallTemplate_extract_decoded (plat : Platform) (tpl : TemplateDefinition)
    (resp b64 : wstring) :
  In (EvBase64ToBitmap b64) (snd (CallTemplate_extract plat tpl resp)) ->
  tpl_output tpl = Image
  /\ res_image (fst (CallTemplate_extract plat tpl resp)) = Base64ToBitmap plat b64.
Proof.
  unfold CallTemplate_extract. destruct (tpl_output tpl).
  - cbn [fst snd].
    match goal with |- context [if WString.empty ?t then [EvLog _] else []] =>
      destruct (WString.empty t) end; cbn; intros H;
      repeat (destruct H as [H|H]; [discriminate H|]); destruct H.
  - match goal with |- context [if negb (WString.empty ?b) then _ else _] =>
      set (bb := b); destruct bb as [|c0 b0] eqn:Eb end; cbn [WString.empty negb].
    + cbn. intros H. repeat (destruct H as [H|H]; [discriminate H|]). destruct H.
    + destruct (Base64ToBitmap plat (c0 :: b0)) as [h|] eqn:Eh;
        cbn [fst snd res_image app]; intros [H|H].
      * injection H as <-. now rewrite Eh.
      * destruct H.
      * injection H as <-. now rewrite Eh.
      * destruct H as [H|[]]. discriminate H.
Qed.

Lemma CallTemplate_decoded (plat : Platform) (tpl : TemplateDefinition) (m : ModelConfig)
    (systemPrompt prompt imageB64 imageDataUrl : wstring) :
  let out := CallTemplate plat tpl m systemPrompt prompt imageB64 imageDataUrl in
  (forall bmp, ~ In (EvBitmapToBase64Png bmp) (snd out))
  /\ (forall b64, In (EvBase64ToBitmap b64) (snd out) ->
                  tpl_output tpl = Image
                  /\ res_image (fst out) = Base64ToBitmap plat b64).
Proof.
  cbv zeta.
  destruct (CallTemplate_request (CryptStringToBinary plat) tpl m systemPrompt prompt
                                 imageB64 imageDataUrl) as [req|] eqn:Hreq.
  - rewrite (CallTemplate_unfold _ _ _ _ _ _ _ _ Hreq). cbv zeta.
    destruct (HttpRequestWithHeaders (WinHttp plat req)) as [resp err]. cbn [fst snd].
    destruct (CallTemplate_extract_events plat tpl resp) as (_ & _ & X3 & _).
    cbv zeta in X3.
    assert (Pre : forall e,
               In e ([EvLog (Log (L "request host: " ++ req_host req));
                      EvLog (Log (L "request path: " ++ req_path req));
                      EvLog (LogBody (req_body req)); EvHttp req]
                       ++ (if WString.empty err then []
                           else [EvLog (Log (L "template request error: " ++ err))])) ->
               (exists l, e = EvLog l) \/ e = EvHttp req).
    { intros e H. destruct (WString.empty err); cbn in H;
        repeat (destruct H as [<-|H]; [eauto|]); destruct H. }
    destruct (WString.empty resp); cbn [fst snd]; split.
    + intros bmp H. destruct (Pre _ H) as [[l E]|E]; discriminate E.
    + intros b64 H. destruct (Pre _ H) as [[l E]|E]; discriminate E.
    + intros bmp H. apply in_app_or in H as [H|H].
      * destruct (Pre _ H) as [[l E]|E]; discriminate E.
      * destruct (X3 _ H) as [[msg E]|[b E]]; discriminate E.
    + intros b64 H. apply in_app_or in H as [H|H].
      * destruct (Pre _ H) as [[l E]|E]; discriminate E.
      * now apply CallTemplate_extract_decoded.
  - unfold CallTemplate. rewrite Hreq. cbn [fst snd].
    split; [intros bmp [H|[]]; discriminate H | intros b64 [H|[]]; discriminate H].
Qed.

Lemma RunFilter_with_bitmaps (plat : Platform) (tpl : TemplateDefinition)
    (m : ModelConfig) (f : FilterDefinition) :
  let ret := fst (RunFilter_with plat tpl m f) in
  let ev := snd (RunFilter_with plat tpl m f) in
  (forall bmp, In (EvBitmapToBase64Png bmp) ev -> In (EvDeleteObject bmp) ev)
  /\ (forall b64 h, In (EvBase64ToBitmap b64) ev -> Base64ToBitmap plat b64 = Some h ->
        In (EvSetClipboardBitmap h) ev /\ (ret = false -> In (EvDeleteObject h) ev)).
Proof.
  cbv zeta. unfold RunFilter_with.
  destruct (tpl_input tpl);
  [ destruct (WString.empty (GetClipboardText plat)) eqn:Eclip
  | destruct (GetClipboardBitmap plat) as [bmp|] eqn:Ebmp;
    [ destruct (BitmapToBase64Png plat bmp) as [b64|] eqn:Eb64 | ] ].
  all: try match goal with
      | |- context [CallTemplate ?p ?t ?mm ?sp ?pr ?img ?url] =>
          destruct (CallTemplate_decoded p t mm sp pr img url) as (D1 & D2);
          cbv zeta in D1, D2;
          destruct (CallTemplate p t mm sp pr img url) as [res ev'];
          cbn [fst snd] in D1, D2;
          destruct (tpl_output tpl) eqn:Eout;
          [ destruct (WString.empty (res_text res)) eqn:Etext;
            [ | destruct (SetClipboardText plat (res_text res)) as [what|] eqn:Eset ]
          | destruct (res_image res) as [image|] eqn:Eimg;
            [ destruct (SetClipboardBitmap plat image) as [what|] eqn:Eset | ] ]
      end.
  all: cbn [fst snd]; split.
  all: intros; cbn [app] in *.
  all: repeat match goal with
       | H : In _ (_ ++ _) |- _ => apply in_app_or in H; destruct H as [H|H]
       | H : In _ (_ :: _) |- _ => destruct H as [H|H]; [try discriminate H|]
       | H : In _ [] |- _ => destruct H
       end.
  all: try (exfalso; eapply D1; eassumption).
  all: try match goal with
       | H : EvBitmapToBase64Png _ = EvBitmapToBase64Png _ |- _ =>
           injection H as <-; right; right; left; reflexivity
       end.
  all: match goal with
       | H : In (EvBase64ToBitmap _) _ |- _ =>
           destruct (D2 _ H) as [DO DI]; try congruence
       end.
  all: match goal with
       | B : Base64ToBitmap _ _ = Some _ |- _ => rewrite B in DI; try discriminate DI
       end.
  all: injection DI as <-.
  all: split; [ apply in_cons; try apply in_cons; try apply in_cons;
                apply in_or_app; right; left; reflexivity | ].
  all: try discriminate.
  all: intros _; apply in_cons; try apply in_cons; try apply in_cons;
       apply in_or_app; right; right; left; reflexivity.
Qed.

Lemma RunFilter_cases (plat : Platform) (g_models : list ModelConfig)
    (g_providers : list ApiProvider) (f : FilterDefinition) (ret : bool)
    (ev : list Event) :
  RunFilter plat g_models g_providers f = Some (ret, ev) ->
  (ret = false
   /\ ev = [EvLog (LogRunFilter f); EvLog (Log (L "fail: no matching template"))])
  \/ (exists m tpl,
        resolve_template g_providers m f = Some tpl
        /\ ret = fst (RunFilter_with plat tpl m f)
        /\ ev = EvLog (LogRunFilter f) :: snd (RunFilter_with plat tpl m f)).
Proof.
  unfold RunFilter. destruct (modelRef g_models f) as [m|]; [|discriminate].
  destruct (resolve_template g_providers m f) as [tpl|] eqn:R.
  - destruct (RunFilter_with plat tpl m f) as [r e] eqn:W. intros [= <- <-].
    right. exists m, tpl. rewrite W. split; [exact R|]. split; reflexivity.
  - intros [= <- <-]. left. split; reflexivity.
Qed.

Lemma RunFilter_with_needs_input (plat : Platform) (tpl : TemplateDefinition)
    (m : ModelConfig) (f : FilterDefinition) :
  match tpl_input tpl with
  | Text => WString.empty (GetClipboardText plat) = true
  | Image => forall bmp, GetClipboardBitmap plat = Some bmp ->
                         BitmapToBase64Png plat bmp = None
  end ->
  fst (RunFilter_with plat tpl m f) = false
  /\ http_requests (snd (RunFilter_with plat tpl m f)) = []
  /\ clipboard_writes (snd (RunFilter_with plat tpl m f)) = [].
Proof.
  unfold RunFilter_with. destruct (tpl_input tpl); intros H.
  - rewrite H. cbn. auto.
  - destruct (GetClipboardBitmap plat) as [bmp|].
    + rewrite (H bmp eq_refl). cbn. auto.
    + cbn. auto.
Qed.

(** X17.  One run of a filter sends at most one request and writes the
    clipboard at most once, and it writes only when it has sent its
    request. *)
Theorem RunFilter_one_request_one_write (plat : Platform) (g_models : list ModelConfig)
    (g_providers : list ApiProvider) (f : FilterDefinition) (ret : bool)
    (ev : list Event) :
  RunFilter plat g_models g_providers f = Some (ret, ev) ->
  length (http_requests ev) <= 1
  /\ length (clipboard_writes ev) <= 1
  /\ (clipboard_writes ev <> [] -> length (http_requests ev) = 1).
Proof.
  intros H. apply RunFilter_cases in H as [[-> ->]|(m & tpl & _ & -> & ->)].
  - cbn. split; [lia|]. split; [lia|]. intros W. now elim W.
  - destruct (RunFilter_with_effects plat tpl m f) as (A & B & C & _).
    cbv zeta in A, B, C. cbn [http_requests clipboard_writes filter is_clipboard_write].
    split; [exact A|]. split; [exact B|exact C].
Qed.

Lemma RunFilter_one_request_one_write_witness :
  exists ret ev,
    RunFilter (demo_platform (L "hello") 200
                 (Q "{'choices':[{'message':{'content':'hi'}}]}"))
              [demo_model []] [demo_provider] demo_filter = Some (ret, ev)
    /\ length (http_requests ev) = 1 /\ clipboard_writes ev = [EvSetClipboardText (L "hi")].
Proof.
  eexists _, _. split; [vm_compute; reflexivity|].
  split.
  - apply (RunFilter_one_request_one_write
             (demo_platform (L "hello") 200
                (Q "{'choices':[{'message':{'content':'hi'}}]}"))
             [demo_model []] [demo_provider] demo_filter true);
      [vm_compute; reflexivity|discriminate].
  - reflexivity.
Defined.

(** X18.  [RunFilter] returns true exactly when its one clipboard write
    took place and did not throw (for a text, a non-empty text); that write
    is then the last thing the run does. *)
Theorem RunFilter_true_iff_written (plat : Platform) (g_models : list ModelConfig)
    (g_providers : list ApiProvider) (f : FilterDefinition) (ret : bool)
    (ev : list Event) :
  RunFilter plat g_models g_providers f = Some (ret, ev) ->
  (ret = true <-> exists w, clipboard_writes ev = [w] /\ write_succeeded plat w)
  /\ (ret = true -> exists init w, ev = init ++ [w] /\ is_clipboard_write w = true).
Proof.
  intros H. apply RunFilter_cases in H as [[-> ->]|(m & tpl & _ & -> & ->)].
  - cbn. split; [split|]; try discriminate. intros (w & W & _). discriminate W.
  - destruct (RunFilter_with_effects plat tpl m f) as (_ & _ & _ & D & E).
    cbv zeta in D, E. cbn [http_requests clipboard_writes filter is_clipboard_write].
    split; [exact D|]. intros T. destruct (E T) as (init & w & -> & W).
    exists (EvLog (LogRunFilter f) :: init), w. split; [reflexivity|exact W].
Qed.

Lemma RunFilter_true_iff_written_witness :
  exists ev,
    RunFilter (demo_platform (L "hello") 200
                 (Q "{'choices':[{'message':{'content':'hi'}}]}"))
              [demo_model []] [demo_provider] demo_filter = Some (true, ev)
    /\ exists w, clipboard_writes ev = [w]
                 /\ write_succeeded (demo_platform (L "hello") 200
                       (Q "{'choices':[{'message':{'content':'hi'}}]}")) w.
Proof.
  eexists. split; [vm_compute; reflexivity|].
  apply (proj1 (proj1 (RunFilter_true_iff_written
                         (demo_platform (L "hello") 200
                            (Q "{'choices':[{'message':{'content':'hi'}}]}"))
                         [demo_model []] [demo_provider] demo_filter true _
                         ltac:(vm_compute; reflexivity)))).
  reflexivity.
Defined.

(** X20.  Without input there is no request: when a text filter finds the
    clipboard text empty, or an image filter finds no bitmap or cannot
    encode it, the run fails without sending a request and without writing
    to the clipboard.  The template that is used has the input kind of the
    filter. *)
Theorem RunFilter_needs_input (plat : Platform) (g_models : list ModelConfig)
    (g_providers : list ApiProvider) (f : FilterDefinition) (ret : bool)
    (ev : list Event) :
  RunFilter plat g_models g_providers f = Some (ret, ev) ->
  match flt_input f with
  | Text => WString.empty (GetClipboardText plat) = true
  | Image => forall bmp, GetClipboardBitmap plat = Some bmp ->
                         BitmapToBase64Png plat bmp = None
  end ->
  ret = false /\ http_requests ev = [] /\ clipboard_writes ev = [].
Proof.
  intros H Hin. apply RunFilter_cases in H as [[-> ->]|(m & tpl & R & -> & ->)].
  - cbn. auto.
  - apply resolve_template_io in R as [Ri _]. rewrite <- Ri in Hin.
    destruct (RunFilter_with_needs_input plat tpl m f Hin) as (A & B & C).
    cbn [http_requests clipboard_writes filter is_clipboard_write]. auto.
Qed.

Lemma RunFilter_needs_input_witness :
  exists ev,
    RunFilter (demo_platform [] 200 (Q "{'choices':[{'message':{'content':'hi'}}]}"))
              [demo_model []] [demo_provider] demo_filter = Some (false, ev)
    /\ http_requests ev = [] /\ clipboard_writes ev = [].
Proof.
  eexists. split; [vm_compute; reflexivity|].
  apply (RunFilter_needs_input
           (demo_platform [] 200 (Q "{'choices':[{'message':{'content':'hi'}}]}"))
           [demo_model []] [demo_provider] demo_filter false);
    [vm_compute; reflexivity|reflexivity].
Defined.

Lemma byte_of_N_zero (n : N) : (n < 256)%N -> byte_of_N n = "000"%byte -> n = 0%N.
Proof.
  intros Hn H. unfold byte_of_N in H.
  apply (f_equal ascii_of_byte) in H. rewrite ascii_of_byte_of_ascii in H.
  apply (f_equal N_of_ascii) in H. rewrite N_ascii_embedding in H by exact Hn.
  exact H.
Qed.

Lemma c_str_app_zero (a b : wstring) : c_str (a ++ 0%N :: b) = c_str a.
Proof.
  induction a as [|c a IH]; [reflexivity|].
  cbn [app c_str]. destruct (N.eqb c 0); [reflexivity|]. now rewrite IH.
Qed.

Lemma c_str_no_zero (w : wstring) : Forall (fun c => c <> 0%N) (c_str w).
Proof.
  induction w as [|c w IH]; [constructor|].
  cbn [c_str]. destruct (N.eqb_spec c 0); [constructor|].
  constructor; assumption.
Qed.

Lemma c_str_Forall (P : wchar_t -> Prop) (w : wstring) :
  Forall P w -> Forall P (c_str w).
Proof.
  induction 1 as [|c w Hc Hw IH]; [constructor|].
  cbn [c_str]. destruct (N.eqb c 0); [constructor|]. constructor; assumption.
Qed.

Lemma c_str_fixed (w : wstring) : Forall (fun c => c <> 0%N) w -> c_str w = w.
Proof.
  induction 1 as [|c w Hc Hw IH]; [reflexivity|].
  cbn [c_str]. destruct (N.eqb_spec c 0); [contradiction|]. now rewrite IH.
Qed.

Ltac bound :=
  repeat match goal with
         | |- context [(?a mod ?b)%N] =>
             let q := fresh "q" in set (q := (a mod b)%N) in *; clearbody q
         | |- context [(?a / ?b)%N] =>
             let q := fresh "q" in set (q := (a / b)%N) in *; clearbody q
         end;
  lia.

Lemma utf8_encode_no_zero_fuel (n : nat) (w : wstring) :
  length w <= n ->
  Forall (fun c => c <> 0%N /\ (c < 65536)%N) w ->
  ~ In "000"%byte (utf8_encode w).
Proof.
  revert w. induction n as [|n IH]; intros w Hl Hw.
  - destruct w; [intros []|cbn in Hl; lia].
  - destruct w as [|c r]; [intros []|].
    cbn [length] in Hl. inversion Hw as [|? ? [Hc0 Hc] Hr]; subst.
    assert (IHr : ~ In "000"%byte (utf8_encode r)) by (apply IH; [lia|exact Hr]).
    assert (NZ : forall k, (0 < k < 256)%N -> byte_of_N k <> "000"%byte).
    { intros k Hk E. apply byte_of_N_zero in E; lia. }
    cbn [utf8_encode].
    destruct (N.ltb_spec c 128).
    { intros [E|E]; [|now apply IHr]. apply (NZ c); [lia|exact E]. }
    destruct (N.ltb_spec c 2048).
    { assert (c / 64 < 32)%N by (apply N.Div0.div_lt_upper_bound; lia).
      assert (c mod 64 < 64)%N by (apply N.mod_lt; lia).
      intros [E|[E|E]]; [| |now apply IHr]; (eapply NZ; [|exact E]); bound. }
    destruct (is_high_surrogate c) eqn:Hs.
    { unfold is_high_surrogate in Hs. apply andb_prop in Hs as [S1 S2].
      apply N.leb_le in S1, S2.
      destruct r as [|d r'].
      - cbn. intros [E|[E|[E|[]]]]; discriminate E.
      - destruct (is_low_surrogate d) eqn:Hd.
        + unfold is_low_surrogate in Hd. apply andb_prop in Hd as [D1 D2].
          apply N.leb_le in D1, D2.
          inversion Hr as [|? ? _ Hr']; subst.
          assert (IHr' : ~ In "000"%byte (utf8_encode r')).
          { apply IH; [cbn [length] in Hl; lia|exact Hr']. }
          cbv zeta.
          set (cp := (65536 + (c - 55296) * 1024 + (d - 56320))%N).
          assert (Hcp : (65536 <= cp < 1114112)%N) by (unfold cp; lia).
          assert (cp / 262144 < 5)%N by (apply N.Div0.div_lt_upper_bound; lia).
          assert ((cp / 4096) mod 64 < 64)%N by (apply N.mod_lt; lia).
          assert ((cp / 64) mod 64 < 64)%N by (apply N.mod_lt; lia).
          assert (cp mod 64 < 64)%N by (apply N.mod_lt; lia).
          intros [E|[E|[E|[E|E]]]]; [| | | |now apply IHr'];
            (eapply NZ; [|exact E]); bound.
        + intros E. apply in_app_or in E as [E|E]; [|now apply IHr].
          cbn in E. destruct E as [E|[E|[E|[]]]]; discriminate E. }
    destruct (is_low_surrogate c).
    { intros E. apply in_app_or in E as [E|E]; [|now apply IHr].
      cbn in E. destruct E as [E|[E|[E|[]]]]; discriminate E. }
    assert (c / 4096 < 16)%N by (apply N.Div0.div_lt_upper_bound; lia).
    assert ((c / 64) mod 64 < 64)%N by (apply N.mod_lt; lia).
    assert (c mod 64 < 64)%N by (apply N.mod_lt; lia).
    intros [E|[E|[E|E]]]; [| | |now apply IHr]; (eapply NZ; [|exact E]); bound.
Qed.

Lemma utf8_encode_ascii (w : wstring) :
  Forall (fun c => (c < 128)%N) w -> utf8_encode w = map byte_of_N w.
Proof.
  induction 1 as [|c w Hc Hw IH]; [reflexivity|].
  cbn [utf8_encode map]. destruct (N.ltb_spec c 128); [|lia]. now rewrite IH.
Qed.

(** X21.  [ToUtf8] converts up to the first zero code unit only: what
    follows a zero is dropped, so the result never holds a zero byte; a
    text of ASCII characters without a zero is converted unit by unit. *)
Theorem ToUtf8_stops_at_zero (a b w : wstring) :
  Forall (fun c => (c < 65536)%N) w ->
  ToUtf8 (a ++ 0%N :: b) = ToUtf8 a
  /\ ~ In "000"%byte (ToUtf8 w)
  /\ (Forall (fun c => c <> 0%N /\ (c < 128)%N) w -> ToUtf8 w = map byte_of_N w).
Proof.
  intros Hw. unfold ToUtf8. split; [now rewrite c_str_app_zero|]. split.
  - apply (utf8_encode_no_zero_fuel (length (c_str w))); [lia|].
    pose proof (c_str_no_zero w) as Z.
    pose proof (c_str_Forall _ w Hw) as R.
    rewrite Forall_forall in *. intros c Hc. split; [now apply Z|now apply R].
  - intros A. rewrite c_str_fixed.
    + apply utf8_encode_ascii. rewrite Forall_forall in *. intros c Hc. now apply A.
    + rewrite Forall_forall in *. intros c Hc. now apply A.
Qed.

Lemma ToUtf8_stops_at_zero_witness :
  ToUtf8 (L "ab" ++ 0%N :: L "cd") = ToUtf8 (L "ab")
  /\ ToUtf8 (L "ab") = B "ab".
Proof.
  destruct (ToUtf8_stops_at_zero (L "ab") (L "cd") (L "ab")) as (H1 & _ & H3).
  - repeat constructor.
  - split; [exact H1|]. apply H3. repeat constructor; discriminate.
Defined.

(** X22.  [HttpRequestWithHeaders] gives a non-empty text only when all
    five WinHTTP calls succeeded, and then the text that was read; it leaves
    the error empty exactly when all calls succeeded and the status, if
    known, is below 400.  A failure of [WinHttpSendRequest] is reported under
    the name of [WinHttpReceiveResponse]. *)
Theorem HttpRequestWithHeaders_outcomes (o : WinHttpOutcome) :
  (fst (HttpRequestWithHeaders o) <> [] ->
   http_all_ok o /\ fst (HttpRequestWithHeaders o) = http_data o)
  /\ (snd (HttpRequestWithHeaders o) = [] <->
      http_all_ok o /\ (forall s, http_status o = Some s -> (s < 400)%N))
  /\ (forall e, http_open o = None -> http_connect o = None ->
                http_openRequest o = None -> http_send o = Some e ->
                HttpRequestWithHeaders o
                = ([], L "WinHttpReceiveResponse failed: " ++ to_wstring e)).
Proof.
  unfold HttpRequestWithHeaders, http_all_ok.
  destruct (http_open o) as [e1|]; [cbn|].
  { split; [intros X; now elim X|]. split; [|discriminate].
    split; [discriminate|]. intros [[X _] _]. discriminate X. }
  destruct (http_connect o) as [e2|]; [cbn|].
  { split; [intros X; now elim X|]. split; [|discriminate].
    split; [discriminate|]. intros [(_ & X & _) _]. discriminate X. }
  destruct (http_openRequest o) as [e3|]; [cbn|].
  { split; [intros X; now elim X|]. split; [|discriminate].
    split; [discriminate|]. intros [(_ & _ & X & _) _]. discriminate X. }
  destruct (http_send o) as [e4|]; [cbn|].
  { split; [intros X; now elim X|]. split.
    - split; [discriminate|]. intros [(_ & _ & _ & X & _) _]. discriminate X.
    - intros e _ _ _ [= <-]. reflexivity. }
  destruct (http_receive o) as [e5|]; [cbn|].
  { split; [intros X; now elim X|]. split; [|discriminate].
    split; [discriminate|]. intros [(_ & _ & _ & _ & X) _]. discriminate X. }
  cbn [fst snd negb]. split; [intros _; repeat split|]. split; [|discriminate].
  destruct (http_status o) as [s|].
  - destruct (N.leb_spec 400 s).
    + split; [discriminate|]. intros [_ X]. specialize (X s eq_refl). lia.
    + split; [|reflexivity]. intros _. split; [repeat split|].
      intros s' [= <-]. exact H.
  - split; [|reflexivity]. intros _. split; [repeat split|]. discriminate.
Qed.

Lemma HttpRequestWithHeaders_outcomes_witness :
  HttpRequestWithHeaders (WinHttp offline_platform
                            {| req_host := []; req_path := []; req_useHttps := true;
                               req_headers := []; req_body := []; req_method := [] |})
  = ([], L "WinHttpReceiveResponse failed: 12029").
Proof.
  exact (proj2 (proj2 (HttpRequestWithHeaders_outcomes
                         (WinHttp offline_platform
                            {| req_host := []; req_path := []; req_useHttps := true;
                               req_headers := []; req_body := []; req_method := [] |})))
               12029%N eq_refl eq_refl eq_refl eq_refl).
Defined.

Lemma FetchModels_collect_prefix (arr : list JsonValue) (models : list wstring) :
  exists more, fst (FetchModels_collect arr models) = models ++ more.
Proof.
  revert models. induction arr as [|item arr IH]; intros models; cbn [FetchModels_collect].
  - exists []. now rewrite app_nil_r.
  - assert (Push : forall s, exists more,
               fst (FetchModels_collect arr (models ++ [c_str s])) = models ++ more).
    { intros s. destruct (IH (models ++ [c_str s])) as [more E].
      exists ([c_str s] ++ more). now rewrite E, app_assoc. }
    destruct item as [| | | s | |members]; try apply IH; try apply Push.
    destruct (Json.GetNamedValue members (L "id")) as [[| | | s | |]|];
      try apply IH; try apply Push; exists []; now rewrite app_nil_r.
Qed.

Lemma FetchModels_collect_ids (arr : list JsonValue) (ids models : list wstring) :
  Forall2 names_model arr ids ->
  FetchModels_collect arr models = (models ++ map c_str ids, false).
Proof.
  intros H. revert models.
  induction H as [|item id arr ids Hid _ IH]; intros models; cbn [FetchModels_collect map].
  - now rewrite app_nil_r.
  - destruct Hid as [->|(members & -> & Hm)]; [|rewrite Hm];
      rewrite IH, <- app_assoc; reflexivity.
Qed.

(** X23.  [FetchModels] only adds to the list it is given.  It returns
    true only with a non-empty list and after a request.  When it sends no
    request it fails, leaves the list as it was and names the reason.  The
    request goes to the host and path of [PrepareEndpoint]; it is POST with
    the payload of the provider as body when the method of the provider is
    set and matches post, and GET with an empty body, whatever the payload,
    otherwise. *)
Theorem FetchModels_outcome (rx : wstring -> wstring -> bool)
    (WinHttp : HttpRequest -> WinHttpOutcome) (parse_failure type_mismatch : wstring)
    (provider : ApiProvider) (serverUrl apiKey : wstring) (models : list wstring)
    (err : wstring) :
  let r := FetchModels rx WinHttp parse_failure type_mismatch provider serverUrl apiKey
                       models err in
  (exists more, fetch_models r = models ++ more)
  /\ (fetch_ok r = true -> fetch_models r <> [] /\ fetch_request r <> None)
  /\ (fetch_request r = None ->
      fetch_ok r = false /\ fetch_models r = models /\ fetch_err r <> [])
  /\ (forall req, fetch_request r = Some req ->
        let dummy := {| name := []; serverUrl := serverUrl; modelName := [];
                        apiKey := apiKey; providerId := prov_id provider |} in
        let ep := PrepareEndpoint serverUrl
                    (ReplacePlaceholders (prov_modelsEndpoint provider) dummy [] [] [] []
                                         false) true in
        req_host req = ep_host ep /\ req_path req = ep_path ep
        /\ req_useHttps req = ep_useHttps ep
        /\ if negb (WString.empty (prov_modelsMethod provider))
              && rx (prov_modelsMethod provider) (L "post")
           then req_method req = L "POST"
                /\ req_body req
                   = ToUtf8 (ReplacePlaceholders (prov_modelsPayload provider) dummy
                                                 [] [] [] [] false)
           else req_method req = L "GET" /\ req_body req = []).
Proof.
  cbv zeta. unfold FetchModels.
  assert (Same : exists more : list wstring, models = models ++ more)
    by (exists []; now rewrite app_nil_r).
  destruct (WString.empty (prov_modelsEndpoint provider)); cbn [fetch_ok fetch_models
    fetch_err fetch_request].
  { split; [exact Same|]. split; [discriminate|].
    split; [intros _; split; [reflexivity|split; [reflexivity|discriminate]]|discriminate]. }
  match goal with |- context [negb (ep_valid ?e)] => set (ep := e) end.
  destruct (ep_valid ep); cbn [negb fetch_ok fetch_models fetch_err fetch_request].
  2:{ split; [exact Same|]. split; [discriminate|].
      split; [intros _; split; [reflexivity|split; [reflexivity|discriminate]]
             |discriminate]. }
  match goal with |- context [HttpRequestWithHeaders (WinHttp ?q)] => set (req := q) end.
  match goal with
  | |- context [ToUtf8 ?p] => set (body := ToUtf8 p) in *
  end.
  assert (Req : forall q, Some req = Some q ->
            req_host q = ep_host ep /\ req_path q = ep_path ep
            /\ req_useHttps q = ep_useHttps ep
            /\ if negb (WString.empty (prov_modelsMethod provider))
                  && rx (prov_modelsMethod provider) (L "post")
               then req_method q = L "POST" /\ req_body q = body
               else req_method q = L "GET" /\ req_body q = []).
  { intros q [= <-]. unfold req.
    destruct (negb (WString.empty (prov_modelsMethod provider))
              && rx (prov_modelsMethod provider) (L "post"));
      cbn [req_host req_path req_useHttps req_method req_body];
      (split; [reflexivity|]; split; [reflexivity|]; split; [reflexivity|];
       split; reflexivity). }
  clearbody req.
  destruct (HttpRequestWithHeaders (WinHttp req)) as [resp herr].
  assert (Stop : forall e,
            let r := {| fetch_ok := false; fetch_models := models; fetch_err := e;
                        fetch_request := Some req |} in
            (exists more, fetch_models r = models ++ more)
            /\ (fetch_ok r = true -> fetch_models r <> [] /\ fetch_request r <> None)
            /\ (fetch_request r = None ->
                fetch_ok r = false /\ fetch_models r = models /\ fetch_err r <> [])
            /\ (forall q, fetch_request r = Some q ->
                  req_host q = ep_host ep /\ req_path q = ep_path ep
                  /\ req_useHttps q = ep_useHttps ep
                  /\ if negb (WString.empty (prov_modelsMethod provider))
                        && rx (prov_modelsMethod provider) (L "post")
                     then req_method q = L "POST" /\ req_body q = body
                     else req_method q = L "GET" /\ req_body q = [])).
  { intros e. cbv zeta. cbn [fetch_ok fetch_models fetch_err fetch_request].
    split; [exact Same|]. split; [discriminate|].
    split; [discriminate|exact Req]. }
  destruct (WString.empty resp); [apply Stop|].
  destruct (Json.Parse resp) as [root|]; [|apply Stop].
  destruct (FetchModels_walk (split_path (prov_modelsResultPath provider)) root)
    as [[| | | | arr |]|e]; try apply Stop.
  destruct (FetchModels_collect_prefix arr models) as [more Hmore].
  destruct (FetchModels_collect arr models) as [models' threw]. cbn [fst] in Hmore.
  destruct threw; cbn [fetch_ok fetch_models fetch_err fetch_request].
  - split; [now exists more|]. split; [discriminate|]. split; [discriminate|exact Req].
  - split; [now exists more|]. split; [|split; [discriminate|exact Req]].
    destruct models'; [discriminate|]. intros _. split; discriminate.
Qed.

Lemma FetchModels_outcome_witness :
  fetch_ok (FetchModels Regex.RegexMatchNoCase
              (fun _ => http_answer 200 (Q "{'data':[{'id':'gpt-4o'},{'id':'gpt-4o-mini'}]}"))
              [] [] listing_provider (L "https://api.example.com") (L "k") [] []) = true
  /\ fetch_models (FetchModels Regex.RegexMatchNoCase
              (fun _ => http_answer 200 (Q "{'data':[{'id':'gpt-4o'},{'id':'gpt-4o-mini'}]}"))
              [] [] listing_provider (L "https://api.example.com") (L "k") [] []) <> []
  /\ (exists req,
         fetch_request (FetchModels Regex.RegexMatchNoCase (fun _ => http_answer 200 [])
                          [] [] posting_provider (L "https://api.example.com") (L "k") [] [])
         = Some req
         /\ req_method req = L "POST" /\ req_body req = B "{}")
  /\ (exists req,
         fetch_request (FetchModels Regex.RegexMatchNoCase (fun _ => http_answer 200 [])
                          [] [] listing_provider (L "https://api.example.com") (L "k") [] [])
         = Some req
         /\ req_method req = L "GET" /\ req_body req = []).
Proof.
  split; [vm_compute; reflexivity|]. split.
  - exact (proj1 (proj1 (proj2 (FetchModels_outcome Regex.RegexMatchNoCase
             (fun _ => http_answer 200 (Q "{'data':[{'id':'gpt-4o'},{'id':'gpt-4o-mini'}]}"))
             [] [] listing_provider (L "https://api.example.com") (L "k") [] []))
                  ltac:(vm_compute; reflexivity))).
  - split.
    + eexists. split; [vm_compute; reflexivity|].
      exact (proj2 (proj2 (proj2
               (proj2 (proj2 (proj2 (FetchModels_outcome Regex.RegexMatchNoCase
                                       (fun _ => http_answer 200 []) [] [] posting_provider
                                       (L "https://api.example.com") (L "k") [] [])))
                      _ eq_refl)))).
    + eexists. split; [vm_compute; reflexivity|].
      exact (proj2 (proj2 (proj2
               (proj2 (proj2 (proj2 (FetchModels_outcome Regex.RegexMatchNoCase
                                       (fun _ => http_answer 200 []) [] [] listing_provider
                                       (L "https://api.example.com") (L "k") [] [])))
                      _ eq_refl)))).
Defined.

(** X24.  From a response whose result path leads to an array,
    [FetchModels] appends the identifiers of the items in the order of the
    array, each cut at its first zero code unit; an item is a string or an
    object with a string [id]. *)
Theorem FetchModels_lists_ids (rx : wstring -> wstring -> bool)
    (WinHttp : HttpRequest -> WinHttpOutcome) (parse_failure type_mismatch : wstring)
    (provider : ApiProvider) (serverUrl apiKey : wstring) (models : list wstring)
    (err resp : wstring) (root : JsonValue) (arr : list JsonValue) (ids : list wstring) :
  let r := FetchModels rx WinHttp parse_failure type_mismatch provider serverUrl apiKey
                       models err in
  fetch_request r <> None ->
  (forall req, fst (HttpRequestWithHeaders (WinHttp req)) = resp) ->
  resp <> [] ->
  Json.Parse resp = Some root ->
  FetchModels_walk (split_path (prov_modelsResultPath provider)) root = inl (JArray arr) ->
  Forall2 names_model arr ids ->
  fetch_models r = models ++ map c_str ids
  /\ (fetch_ok r = true <-> models ++ ids <> []).
Proof.
  cbv zeta. unfold FetchModels.
  destruct (WString.empty (prov_modelsEndpoint provider)); cbn [fetch_request];
    [intros X; now elim X|].
  match goal with |- context [negb (ep_valid ?e)] => set (ep := e) end.
  destruct (ep_valid ep); cbn [negb fetch_request]; [|intros X; now elim X].
  match goal with |- context [HttpRequestWithHeaders (WinHttp ?q)] => set (req := q) end.
  clearbody req. intros _ Hresp Hne Hparse Hwalk Hids.
  specialize (Hresp req).
  destruct (HttpRequestWithHeaders (WinHttp req)) as [resp' herr]. cbn [fst] in Hresp.
  subst resp'. destruct resp as [|c0 r0]; [now elim Hne|]. cbn [WString.empty].
  rewrite Hparse, Hwalk, (FetchModels_collect_ids _ _ _ Hids).
  cbn [fetch_models fetch_ok]. split; [reflexivity|].
  destruct models as [|m0 ms]; cbn [app].
  - destruct ids as [|i0 ids0]; cbn [map].
    + split; [discriminate|]. intros X. now elim X.
    + split; [discriminate|reflexivity].
  - split; [discriminate|reflexivity].
Qed.

Lemma FetchModels_lists_ids_witness :
  fetch_models (FetchModels Regex.RegexMatchNoCase
              (fun _ => http_answer 200 (Q "{'data':[{'id':'gpt-4o'},'llama3']}"))
              [] [] listing_provider (L "https://api.example.com") (L "k") [] [])
  = [L "gpt-4o"; L "llama3"].
Proof.
  apply (FetchModels_lists_ids Regex.RegexMatchNoCase
           (fun _ => http_answer 200 (Q "{'data':[{'id':'gpt-4o'},'llama3']}"))
           [] [] listing_provider (L "https://api.example.com") (L "k") [] []
           (Q "{'data':[{'id':'gpt-4o'},'llama3']}")
           (JObject [(L "data", JArray [JObject [(L "id", JString (L "gpt-4o"))];
                                        JString (L "llama3")])])
           [JObject [(L "id", JString (L "gpt-4o"))]; JString (L "llama3")]
           [L "gpt-4o"; L "llama3"]).
  - vm_compute. discriminate.
  - intros req. reflexivity.
  - discriminate.
  - vm_compute. reflexivity.
  - vm_compute. reflexivity.
  - constructor; [right; eexists; split; reflexivity|].
    constructor; [left; reflexivity|constructor].
Defined.

Lemma N_of_byte_of_N (n : N) : (n < 256)%N -> N_of_byte (byte_of_N n) = n.
Proof.
  intros H. unfold N_of_byte, byte_of_N.
  now rewrite ascii_of_byte_of_ascii, N_ascii_embedding.
Qed.

Lemma byte_of_N_of_byte (b : byte) : byte_of_N (N_of_byte b) = b.
Proof.
  unfold N_of_byte, byte_of_N. now rewrite ascii_N_embedding, byte_of_ascii_of_byte.
Qed.

Lemma bytes_wchars_roundtrip (w : wstring) :
  Forall (fun c => (c < 65536)%N) w -> bytes_wchars (wchar_bytes w) = w.
Proof.
  induction 1 as [|c w Hc Hw IH]; [reflexivity|].
  cbn [wchar_bytes flat_map app bytes_wchars]. fold (wchar_bytes w). rewrite IH.
  rewrite !N_of_byte_of_N.
  - f_equal. rewrite N.add_comm. symmetry. apply N.div_mod. lia.
  - apply N.Div0.div_lt_upper_bound. lia.
  - apply N.mod_lt. lia.
Qed.

Lemma wchar_bytes_length (w : wstring) : length (wchar_bytes w) = 2 * length w.
Proof.
  induction w as [|c w IH]; [reflexivity|].
  cbn [wchar_bytes flat_map app length]. fold (wchar_bytes w). rewrite IH. lia.
Qed.

Lemma demo_codec_roundtrip (b : bstring) (e : wstring) :
  encode_demo b = Some e -> decode_units (c_str e) = Some b.
Proof.
  intros E.
  assert (e = map (fun x => (256 + N_of_byte x)%N) b) as ->
    by (unfold encode_demo in E; congruence).
  clear E. unfold decode_units. f_equal.
  induction b as [|x b IH]; [reflexivity|].
  cbn [map c_str]. destruct (N.eqb_spec (256 + N_of_byte x) 0) as [E|_]; [lia|].
  cbn [map]. rewrite IH. f_equal.
  replace (256 + N_of_byte x - 256)%N with (N_of_byte x) by lia.
  apply byte_of_N_of_byte.
Qed.

(** X25.  A key that [SaveConfig] stores comes back from [UnprotectApiKey]
    unchanged, when the platform functions invert each other: through DPAPI
    and base64 when the protection succeeds, and as plain text when it fails,
    unless such a plain key itself starts with the prefix [dpapi:].  A key
    that is not empty is never stored as an empty text. *)
Theorem UnprotectApiKey_SaveConfig_roundtrip
    (CryptProtectData CryptUnprotectData : bstring -> option bstring)
    (CryptBinaryToString : bstring -> option wstring)
    (CryptStringToBinaryW : wstring -> option bstring) (apiKey : wstring) :
  (forall b out, CryptProtectData b = Some out -> CryptUnprotectData out = Some b) ->
  (forall b e, CryptBinaryToString b = Some e -> CryptStringToBinaryW (c_str e) = Some b) ->
  Forall (fun c => (c < 65536)%N) apiKey ->
  let stored := SaveConfig_apiKey CryptProtectData CryptBinaryToString apiKey in
  (apiKey <> [] -> stored <> [])
  /\ (ProtectApiKey CryptProtectData CryptBinaryToString apiKey <> []
      \/ WString.starts_with kPrefix apiKey = false ->
      UnprotectApiKey CryptUnprotectData CryptStringToBinaryW stored = apiKey).
Proof.
  intros Hdp Hb64 Hk. cbv zeta. unfold SaveConfig_apiKey, ProtectApiKey.
  destruct apiKey as [|c0 k0]; cbn [WString.empty andb negb].
  { split; [intros X; now elim X|]. intros _. reflexivity. }
  set (k := c0 :: k0) in *.
  destruct (CryptProtectData (wchar_bytes k)) as [out|] eqn:Ep; cbn [WString.empty andb].
  2:{ split; [intros _; discriminate|]. intros [X|X]; [now elim X|].
      unfold UnprotectApiKey. cbn [WString.empty k]. fold k. now rewrite X. }
  destruct (CryptBinaryToString out) as [b64|] eqn:Ee; cbn [WString.empty andb].
  2:{ split; [intros _; discriminate|]. intros [X|X]; [now elim X|].
      unfold UnprotectApiKey. cbn [WString.empty k]. fold k. now rewrite X. }
  change (WString.empty (kPrefix ++ b64)) with false. cbn [andb].
  split; [intros _; discriminate|]. intros _.
  unfold UnprotectApiKey. change (WString.empty (kPrefix ++ b64)) with false.
  rewrite starts_with_app. cbn [negb].
  unfold WString.substr_from. rewrite skipn_app, Nat.sub_diag, skipn_all. cbn [app skipn].
  rewrite (Hb64 _ _ Ee), (Hdp _ _ Ep), wchar_bytes_length.
  replace (Nat.eqb ((2 * length k) mod 2) 0) with true.
  - now apply bytes_wchars_roundtrip.
  - symmetry. apply Nat.eqb_eq. rewrite Nat.mul_comm. apply Nat.Div0.mod_mul.
Qed.

Lemma UnprotectApiKey_SaveConfig_roundtrip_witness :
  UnprotectApiKey reverse_blob decode_units
    (SaveConfig_apiKey reverse_blob encode_demo (L "sk-123")) = L "sk-123"
  /\ UnprotectApiKey reverse_blob decode_units
       (SaveConfig_apiKey (fun _ => None) encode_demo (L "sk-123")) = L "sk-123".
Proof.
  split.
  - apply (UnprotectApiKey_SaveConfig_roundtrip reverse_blob reverse_blob encode_demo
             decode_units (L "sk-123")).
    + intros b out [= <-]. unfold reverse_blob. now rewrite rev_involutive.
    + exact demo_codec_roundtrip.
    + repeat constructor.
    + left. vm_compute. discriminate.
  - apply (UnprotectApiKey_SaveConfig_roundtrip (fun _ => None) reverse_blob encode_demo
             decode_units (L "sk-123")).
    + discriminate.
    + exact demo_codec_roundtrip.
    + repeat constructor.
    + right. reflexivity.
Defined.

Lemma PickModelByPatterns_member (rx : wstring -> wstring -> bool)
    (models patterns : list wstring) :
  models <> [] -> In (PickModelByPatterns rx models patterns) models.
Proof.
  intros Hne. unfold PickModelByPatterns.
  destruct (PickModelByPatterns_loop rx models patterns) as [m|] eqn:E.
  - induction patterns as [|pat rest IH]; cbn [PickModelByPatterns_loop] in E;
      [discriminate|].
    destruct (find (fun m => rx m pat) models) as [m'|] eqn:F; [|now apply IH].
    injection E as <-. now apply find_some in F.
  - destruct models; [now elim Hne|now left].
Qed.

Lemma EnsureModelProviders_fields (g_providers : list ApiProvider)
    (models : list ModelConfig) :
  map name (EnsureModelProviders g_providers models) = map name models
  /\ (forall m, In m (EnsureModelProviders g_providers models) ->
                exists m0, In m0 models /\ serverUrl m = serverUrl m0
                           /\ apiKey m = apiKey m0 /\ modelName m = modelName m0).
Proof.
  unfold EnsureModelProviders. destruct g_providers as [|front rest].
  - split; [reflexivity|]. intros m Hm. exists m. auto.
  - split.
    + rewrite map_map. apply map_ext. intros m.
      destruct (WString.empty (providerId m)); reflexivity.
    + intros m Hm. apply in_map_iff in Hm as (m0 & <- & Hin). exists m0.
      split; [exact Hin|]. destruct (WString.empty (providerId m0)); auto.
Qed.

(** X26.  After a successful [PerformInitialSetup] there are four models,
    named after the four kinds of filter, with the server and the key of the
    dialog and a model name from the fetched list; there is at least one
    filter, and every filter refers to the model named after its own input
    and output.  A failed setup leaves the configuration as it was. *)
Theorem PerformInitialSetup_configuration (rx : wstring -> wstring -> bool)
    (WinHttp : HttpRequest -> WinHttpOutcome) (parse_failure type_mismatch : wstring)
    (def_language : option wstring)
    (LoadFiltersFromJson_def : list FilterDefinition -> list FilterDefinition)
    (g_providers : list ApiProvider) (G : Globals) (st : SetupDialogState)
    (err err' : wstring) (ret : bool) (G' : Globals) :
  PerformInitialSetup rx WinHttp parse_failure type_mismatch def_language
                      LoadFiltersFromJson_def g_providers G st err = (ret, err', G') ->
  (ret = false -> G' = G)
  /\ (ret = true ->
      exists provider,
        nth_error g_providers (st_providerIndex st) = Some provider
        /\ map name (g_models G')
           = [L "Text/Text"; L "Text/Image"; L "Image/Text"; L "Image/Image"]
        /\ (forall m, In m (g_models G') ->
              serverUrl m = st_serverUrl st /\ apiKey m = st_apiKey st
              /\ In (modelName m)
                    (fetch_models (FetchModels rx WinHttp parse_failure type_mismatch
                                     provider (st_serverUrl st) (st_apiKey st) [] err)))
        /\ g_filters G' <> []
        /\ (forall f, In f (g_filters G') ->
              exists m, nth_error (g_models G') (flt_modelIndex f) = Some m
                        /\ name m = kind_name (flt_input f) (flt_output f))).
Proof.
  unfold PerformInitialSetup.
  destruct g_providers as [|p0 ps] eqn:Eprov;
    [intros [= <- <- <-]; split; [reflexivity|discriminate]|].
  rewrite <- Eprov. clear Eprov.
  destruct (nth_error g_providers (st_providerIndex st)) as [provider|];
    [|intros [= <- <- <-]; split; [reflexivity|discriminate]].
  cbv zeta.
  set (r := FetchModels rx WinHttp parse_failure type_mismatch provider (st_serverUrl st)
                        (st_apiKey st) [] err).
  destruct (fetch_ok r); cbn [negb];
    [|intros [= <- <- <-]; split; [reflexivity|discriminate]].
  destruct (fetch_models r) as [|front more] eqn:Em;
    [intros [= <- <- <-]; split; [reflexivity|discriminate]|].
  rewrite <- Em.
  intros [= <- <- <-]. split; [discriminate|]. intros _. exists provider.
  split; [reflexivity|]. cbn [g_models g_filters].
  match goal with |- context [EnsureModelProviders g_providers ?l] => set (models := l) end.
  destruct (EnsureModelProviders_fields g_providers models) as [Names Fields].
  assert (Pick : forall patterns,
             In (if WString.empty (PickModelByPatterns rx (fetch_models r) patterns)
                 then front else PickModelByPatterns rx (fetch_models r) patterns)
                (fetch_models r)).
  { intros patterns.
    destruct (WString.empty (PickModelByPatterns rx (fetch_models r) patterns)).
    - rewrite Em. now left.
    - apply PickModelByPatterns_member. rewrite Em. discriminate. }
  split; [rewrite Names; reflexivity|]. split.
  { intros m Hm. destruct (Fields m Hm) as (m0 & Hin & -> & -> & ->).
    destruct Hin as [<-|[<-|[<-|[<-|[]]]]]; cbn [serverUrl apiKey modelName];
      (split; [reflexivity|]; split; [reflexivity|apply Pick]). }
  split.
  { destruct (LoadFiltersFromJson_def (g_filters G)); discriminate. }
  intros f Hf. apply in_map_iff in Hf as (f0 & <- & _).
  cbn [with_modelIndex flt_modelIndex flt_input flt_output].
  assert (Nth : forall i m0, nth_error models i = Some m0 ->
                  exists m, nth_error (EnsureModelProviders g_providers models) i = Some m
                            /\ name m = name m0).
  { intros i m0 Hi.
    destruct (nth_error (EnsureModelProviders g_providers models) i) as [m|] eqn:En.
    - exists m. split; [reflexivity|].
      apply (f_equal (nth_error (A:=wstring))) in Names.
      apply (f_equal (fun g => g i)) in Names.
      rewrite !nth_error_map, En, Hi in Names. now injection Names.
    - apply nth_error_None in En. apply (f_equal (@length _)) in Names.
      rewrite !length_map in Names.
      assert (i < length models) by (apply nth_error_Some; congruence). lia. }
  destruct (flt_input f0), (flt_output f0); cbn [idxFor length models Nat.leb kind_name].
  - apply (Nth 0 _ eq_refl).
  - apply (Nth 1 _ eq_refl).
  - apply (Nth 2 _ eq_refl).
  - apply (Nth 3 _ eq_refl).
Qed.

Lemma PerformInitialSetup_configuration_witness :
  exists err' G',
    PerformInitialSetup Regex.RegexMatchNoCase
      (fun _ => http_answer 200 (Q "{'data':[{'id':'gpt-4o'},{'id':'gpt-4o-mini'}]}"))
      [] [] (Some (L "en")) (fun fs => fs) [listing_provider] demo_globals demo_setup []
    = (true, err', G')
    /\ map name (g_models G')
       = [L "Text/Text"; L "Text/Image"; L "Image/Text"; L "Image/Image"]
    /\ map modelName (g_models G')
       = [L "gpt-4o-mini"; L "gpt-4o"; L "gpt-4o-mini"; L "gpt-4o"].
Proof.
  eexists _, _. split; [vm_compute; reflexivity|].
  destruct (PerformInitialSetup_configuration Regex.RegexMatchNoCase
              (fun _ => http_answer 200 (Q "{'data':[{'id':'gpt-4o'},{'id':'gpt-4o-mini'}]}"))
              [] [] (Some (L "en")) (fun fs => fs) [listing_provider] demo_globals
              demo_setup [] _ true _ ltac:(vm_compute; reflexivity)) as (_ & H).
  destruct (H eq_refl) as (provider & _ & Hn & _).
  split; [exact Hn|reflexivity].
Defined.

(** X27.  What [CallTemplate] makes of a data URL: a text that contains
    [data:image] anywhere is cut behind its first comma, wherever the marker
    is, so a data URL with a comma-free media type is reduced to its payload;
    a text without the marker, or with the marker and no comma, stays as it
    is. *)
Theorem strip_data_url_first_comma (head tail b64 : wstring) :
  ~ In (wc ",") head ->
  (Contains (head ++ wc "," :: tail) (L "data:image") = true ->
   strip_data_url (head ++ wc "," :: tail) = tail)
  /\ strip_data_url (L "data:image" ++ head ++ wc "," :: tail) = tail
  /\ (Contains b64 (L "data:image") = false \/ ~ In (wc ",") b64 ->
      strip_data_url b64 = b64).
Proof.
  intros Hhead.
  assert (Cut : forall s, Contains (s ++ wc "," :: tail) (L "data:image") = true ->
                          ~ In (wc ",") s ->
                          strip_data_url (s ++ wc "," :: tail) = tail).
  { intros s C Hs. unfold strip_data_url. rewrite C.
    change (L ",") with [wc ","]. rewrite (find_char_app s tail (wc ",") Hs).
    unfold WString.substr_from.
    replace (length s + 1) with (length s + 1 + 0) by lia.
    rewrite Nat.add_0_r, skipn_app, skipn_all2 by lia.
    replace (length s + 1 - length s) with 1 by lia. reflexivity. }
  split; [intros C; now apply Cut|]. split.
  - rewrite app_assoc. apply Cut.
    + rewrite <- app_assoc. unfold Contains.
      destruct (find_occurrence [] (L "data:image") (head ++ wc "," :: tail))
        as (p & Hp & _). rewrite app_nil_l in Hp. now rewrite Hp.
    + intros Hin. apply in_app_or in Hin as [Hin|Hin]; [|now apply Hhead].
      revert Hin. not_in_literal.
  - intros [C|C]; unfold strip_data_url.
    + now rewrite C.
    + destruct (Contains b64 (L "data:image")); [|reflexivity].
      change (L ",") with [wc ","].
      destruct (WString.find b64 [wc ","] 0) as [k|] eqn:F; [|reflexivity].
      apply find_char_Some in F as [E Hk]. exfalso. apply C. rewrite E.
      apply in_or_app. right. now left.
Qed.

Lemma strip_data_url_first_comma_witness :
  strip_data_url (L "data:image/png;base64,QUJD") = L "QUJD".
Proof.
  apply (proj1 (proj2 (strip_data_url_first_comma (L "/png;base64") (L "QUJD") []
                         ltac:(not_in_literal)))).
Defined.

Lemma key_codes_spec (vk : N) : (vk < 256)%N -> In vk key_codes.
Proof.
  intros H. unfold key_codes. apply in_map_iff. exists (N.to_nat vk).
  split; [apply N2Nat.id|]. apply in_seq. lia.
Qed.

Lemma modifier_sets_spec (k : N) : (k < 16)%N -> In k modifier_sets.
Proof.
  intros H. unfold modifier_sets. apply in_map_iff. exists (N.to_nat k).
  split; [apply N2Nat.id|]. apply in_seq. lia.
Qed.

Lemma IsValidHotkeyVK_below (vk : N) : IsValidHotkeyVK vk = true -> (vk < 256)%N.
Proof.
  intros H. destruct (N.ltb_spec vk 256) as [|Hge]; [assumption|exfalso].
  revert H. unfold IsValidHotkeyVK. cbn [existsb].
  repeat match goal with
         | |- context [N.eqb vk ?c] =>
             let c' := eval vm_compute in c in
             destruct (N.eqb_spec vk c) as [E|_]; [change c with c' in E; lia|]
         | |- context [N.leb vk ?c] =>
             let c' := eval vm_compute in c in
             destruct (N.leb_spec vk c) as [E|_]; [change c with c' in E; lia|]
         end.
  rewrite ?andb_false_r. cbn. discriminate.
Qed.

Lemma names_apart_all : forallb names_apart modifier_sets = true.
Proof. vm_compute. reflexivity. Qed.

Lemma hotkey_codes_all :
  forallb (fun vk => Bool.eqb (IsValidHotkeyVK vk) (hotkey_code vk)) key_codes = true.
Proof. vm_compute. reflexivity. Qed.

Lemma gap_keys_all :
  forallb (fun vk => implb (IsValidHotkeyVK vk) (Bool.eqb (unnamed vk) (gap_key vk)))
          key_codes = true.
Proof. vm_compute. reflexivity. Qed.

(** X28.  [IsValidHotkeyVK] accepts exactly the letters, the digits, the
    codes 96 to 135 (number pad, its operators, F1 to F24) and seventeen
    named keys: codes below 256, no mouse button.  [VKCodeToString] shows an
    accepted key under a name of its own, except the separator and decimal
    keys of the number pad and F13 to F24, which are accepted and shown as
    [Key] with their number.  With the same modifiers no two keys are shown
    alike. *)
Theorem hotkey_names (vk vk' modifiers : N) :
  (IsValidHotkeyVK vk = true ->
   (vk < 256)%N /\ vk <> VK_LBUTTON /\ vk <> VK_RBUTTON /\ vk <> VK_MBUTTON
   /\ (VKCodeToString vk 0 = L "Key" ++ to_wstring vk <->
       vk = 108%N \/ vk = 110%N \/ (124 <= vk <= 135)%N))
  /\ ((vk < 256)%N -> (vk' < 256)%N -> (modifiers < 16)%N ->
      VKCodeToString vk modifiers = VKCodeToString vk' modifiers -> vk = vk')
  /\ (vk = 108%N \/ vk = 110%N \/ (124 <= vk <= 135)%N -> IsValidHotkeyVK vk = true)
  /\ IsValidHotkeyVK vk = hotkey_code vk.
Proof.
  assert (Code : IsValidHotkeyVK vk = hotkey_code vk).
  { destruct (N.ltb_spec vk 256) as [B|B].
    - pose proof hotkey_codes_all as A. rewrite forallb_forall in A.
      specialize (A vk (key_codes_spec vk B)). now apply Bool.eqb_prop in A.
    - destruct (IsValidHotkeyVK vk) eqn:V;
        [apply IsValidHotkeyVK_below in V; lia|].
      symmetry. unfold hotkey_code. cbn [existsb].
      repeat match goal with
             | |- context [N.eqb vk ?c] =>
                 destruct (N.eqb_spec vk c) as [E|_]; [lia|]
             | |- context [N.leb vk ?c] =>
                 destruct (N.leb_spec vk c) as [E|_]; [lia|]
             end.
      rewrite ?andb_false_r. reflexivity. }
  split; [|split; [|split; [|exact Code]]]; cycle 2.
  { intros G. rewrite Code. unfold hotkey_code.
    assert (R : ((96 <=? vk)%N && (vk <=? 135)%N) = true).
    { apply andb_true_iff. rewrite !N.leb_le. lia. }
    rewrite R. now rewrite !orb_true_r. }
  - intros V. pose proof (IsValidHotkeyVK_below vk V) as B. split; [exact B|].
    split; [intros ->; discriminate V|]. split; [intros ->; discriminate V|].
    split; [intros ->; discriminate V|].
    pose proof gap_keys_all as G. rewrite forallb_forall in G.
    specialize (G vk (key_codes_spec vk B)). rewrite V in G. cbn [implb] in G.
    apply Bool.eqb_prop in G. unfold unnamed in G.
    assert (Gap : gap_key vk = true <-> vk = 108%N \/ vk = 110%N \/ (124 <= vk <= 135)%N).
    { unfold gap_key. rewrite !orb_true_iff, andb_true_iff, !N.eqb_eq, !N.leb_le. tauto. }
    rewrite <- Gap, <- G. split.
    + intros E. rewrite E. apply WString_eqb_eq. reflexivity.
    + apply WString_eqb_eq.
  - intros B B' M E.
    pose proof names_apart_all as A. rewrite forallb_forall in A.
    specialize (A modifiers (modifier_sets_spec modifiers M)).
    unfold names_apart in A. cbv zeta in A. rewrite forallb_forall in A.
    specialize (A (vk, VKCodeToString vk modifiers)
                  (in_map _ _ _ (key_codes_spec vk B))).
    rewrite forallb_forall in A.
    specialize (A (vk', VKCodeToString vk' modifiers)
                  (in_map _ _ _ (key_codes_spec vk' B'))).
    cbn [fst snd] in A. rewrite E in A.
    replace (WString.eqb (VKCodeToString vk' modifiers) (VKCodeToString vk' modifiers))
      with true in A by (symmetry; apply WString_eqb_eq; reflexivity).
    cbn [implb] in A. now apply N.eqb_eq.
Qed.

Lemma hotkey_names_witness :
  IsValidHotkeyVK 110 = true /\ VKCodeToString 124 0 = L "Key124".
Proof.
  split.
  - apply (proj1 (proj2 (proj2 (hotkey_names 110 110 0)))). right. left. reflexivity.
  - destruct (hotkey_names 124 124 0) as [H _].
    apply (proj2 (proj2 (proj2 (proj2 (H eq_refl))))). right. right. lia.
Defined.

(** ** Bitmaps of a run *)

Lemma deleted_bitmaps_app (a b : list Event) :
  deleted_bitmaps (a ++ b) = deleted_bitmaps a ++ deleted_bitmaps b.
Proof.
  induction a as [|e a IH]; [reflexivity|].
  destruct e; cbn [app deleted_bitmaps]; rewrite IH; reflexivity.
Qed.

Lemma encoded_bitmaps_app (a b : list Event) :
  encoded_bitmaps (a ++ b) = encoded_bitmaps a ++ encoded_bitmaps b.
Proof.
  induction a as [|e a IH]; [reflexivity|].
  destruct e; cbn [app encoded_bitmaps]; rewrite IH; reflexivity.
Qed.

Lemma deleted_bitmaps_none (l : list Event) :
  (forall bmp, ~ In (EvDeleteObject bmp) l) -> deleted_bitmaps l = [].
Proof.
  induction l as [|e l IH]; intros H; [reflexivity|].
  assert (IH' : deleted_bitmaps l = []).
  { apply IH. intros bmp Hin. apply (H bmp). now right. }
  destruct e; cbn [deleted_bitmaps]; try exact IH'.
  exfalso. apply (H bmp). now left.
Qed.

Lemma encoded_bitmaps_none (l : list Event) :
  (forall bmp, ~ In (EvBitmapToBase64Png bmp) l) -> encoded_bitmaps l = [].
Proof.
  induction l as [|e l IH]; intros H; [reflexivity|].
  assert (IH' : encoded_bitmaps l = []).
  { apply IH. intros bmp Hin. apply (H bmp). now right. }
  destruct e; cbn [encoded_bitmaps]; try exact IH'.
  exfalso. apply (H bmp). now left.
Qed.

Lemma clipboard_writes_none (l : list Event) (h : HBITMAP) :
  clipboard_writes l = [] -> ~ In (EvSetClipboardBitmap h) l.
Proof.
  intros E Hin.
  assert (X : In (EvSetClipboardBitmap h) (clipboard_writes l))
    by (apply filter_In; split; [exact Hin|reflexivity]).
  rewrite E in X. destruct X.
Qed.

Lemma RunFilter_with_deleted (plat : Platform) (tpl : TemplateDefinition)
    (m : ModelConfig) (f : FilterDefinition) :
  let ret := fst (RunFilter_with plat tpl m f) in
  let ev := snd (RunFilter_with plat tpl m f) in
  (ret = true -> deleted_bitmaps ev = encoded_bitmaps ev)
  /\ (ret = false -> forall h, In (EvSetClipboardBitmap h) ev ->
                              deleted_bitmaps ev = encoded_bitmaps ev ++ [h]).
Proof.
  cbv zeta. unfold RunFilter_with.
  destruct (tpl_input tpl);
  [ destruct (WString.empty (GetClipboardText plat)) eqn:Eclip
  | destruct (GetClipboardBitmap plat) as [bmp|] eqn:Ebmp;
    [ destruct (BitmapToBase64Png plat bmp) as [b64|] eqn:Eb64 | ] ].
  all: try match goal with
      | |- context [CallTemplate ?p ?t ?mm ?sp ?pr ?img ?url] =>
          destruct (CallTemplate_decoded p t mm sp pr img url) as (D1 & _);
          destruct (CallTemplate_events p t mm sp pr img url) as (_ & E2 & E3 & _);
          cbv zeta in D1, E2, E3;
          destruct (CallTemplate p t mm sp pr img url) as [res ev'];
          cbn [fst snd] in D1, E2, E3;
          apply deleted_bitmaps_none in E3; apply encoded_bitmaps_none in D1;
          destruct (tpl_output tpl);
          [ destruct (WString.empty (res_text res));
            [ | destruct (SetClipboardText plat (res_text res)) as [what|] ]
          | destruct (res_image res) as [image|];
            [ destruct (SetClipboardBitmap plat image) as [what|] | ] ]
      end.
  all: cbn [fst snd]; rewrite ?deleted_bitmaps_app, ?encoded_bitmaps_app, ?E3, ?D1;
       cbn [deleted_bitmaps encoded_bitmaps app].
  all: split; [try discriminate; intros _; reflexivity|].
  all: try discriminate.
  all: intros _ h Hin.
  all: repeat match goal with
       | H : In _ (_ ++ _) |- _ => apply in_app_or in H; destruct H as [H|H]
       | H : In _ (_ :: _) |- _ => destruct H as [H|H]; [try discriminate H|]
       | H : In _ [] |- _ => destruct H
       end.
  all: try (exfalso; eapply clipboard_writes_none; eassumption).
  all: injection Hin as <-; reflexivity.
Qed.

(** X19.  Which bitmaps a run releases.  A clipboard bitmap handed to the
    PNG encoder is deleted.  A bitmap decoded from the response is handed to
    [SetClipboardBitmap]; when that call throws, the run deletes it, and
    then the deletions are those of the encoded bitmaps and this one.  On a
    run that returns true the only deletions are those of the encoded
    clipboard bitmaps: the run does not delete the decoded bitmap, which
    [SetClipboardBitmap] copies and leaves to its caller. *)
Theorem RunFilter_bitmap_ownership (plat : Platform) (g_models : list ModelConfig)
    (g_providers : list ApiProvider) (f : FilterDefinition) (ret : bool)
    (ev : list Event) :
  RunFilter plat g_models g_providers f = Some (ret, ev) ->
  (forall bmp, In (EvBitmapToBase64Png bmp) ev -> In (EvDeleteObject bmp) ev)
  /\ (forall b64 h, In (EvBase64ToBitmap b64) ev -> Base64ToBitmap plat b64 = Some h ->
        In (EvSetClipboardBitmap h) ev /\ (ret = false -> In (EvDeleteObject h) ev))
  /\ (ret = true -> deleted_bitmaps ev = encoded_bitmaps ev)
  /\ (ret = false -> forall h, In (EvSetClipboardBitmap h) ev ->
                              deleted_bitmaps ev = encoded_bitmaps ev ++ [h]).
Proof.
  intros H. apply RunFilter_cases in H as [[-> ->]|(m & tpl & _ & -> & ->)].
  - split; [intros bmp [X|[X|[]]]; discriminate X|].
    split; [intros b64 h [X|[X|[]]]; discriminate X|].
    split; [discriminate|]. intros _ h [X|[X|[]]]; discriminate X.
  - destruct (RunFilter_with_bitmaps plat tpl m f) as (A & B). cbv zeta in A, B.
    destruct (RunFilter_with_deleted plat tpl m f) as (C & D). cbv zeta in C, D.
    split; [intros bmp [X|X]; [discriminate X|]; right; now apply A|].
    split.
    { intros b64 h [X|X] Hh; [discriminate X|].
      destruct (B b64 h X Hh) as [B1 B2].
      split; [now right|]. intros R. right. now apply B2. }
    cbn [deleted_bitmaps encoded_bitmaps].
    split; [exact C|]. intros R h [X|X]; [discriminate X|]. now apply D.
Qed.

Lemma RunFilter_bitmap_ownership_witness :
  (exists ev,
      RunFilter image_platform [demo_model []] [image_provider] image_filter
      = Some (false, ev)
      /\ In (EvDeleteObject 7%N) ev /\ In (EvDeleteObject 9%N) ev
      /\ deleted_bitmaps ev = [7; 9]%N)
  /\ (exists ev,
         RunFilter image_platform_ok [demo_model []] [image_provider] image_filter
         = Some (true, ev)
         /\ In (EvSetClipboardBitmap 9%N) ev
         /\ deleted_bitmaps ev = [7%N]).
Proof.
  split.
  - eexists. split; [vm_compute; reflexivity|].
    destruct (RunFilter_bitmap_ownership image_platform [demo_model []] [image_provider]
                image_filter false _ ltac:(vm_compute; reflexivity)) as (A & B & _ & D).
    split; [apply A; vm_compute; tauto|].
    split; [apply (B (L "QUJD") 9%N); [vm_compute; tauto|reflexivity|reflexivity]|].
    rewrite (D eq_refl 9%N); [reflexivity|]. vm_compute. tauto.
  - eexists. split; [vm_compute; reflexivity|].
    destruct (RunFilter_bitmap_ownership image_platform_ok [demo_model []]
                [image_provider] image_filter true _ ltac:(vm_compute; reflexivity))
      as (_ & B & C & _).
    split; [apply (B (L "QUJD") 9%N); [vm_compute; tauto|reflexivity]|].
    rewrite (C eq_refl). reflexivity.
Defined.

(** ** The run and what it has selected *)

Lemma RunFilter_with_acquired (plat : Platform) (tpl : TemplateDefinition)
    (m : ModelConfig) (f : FilterDefinition) (textInput imageB64 : wstring) :
  acquires plat (tpl_input tpl) textInput imageB64 ->
  let imageDataUrl := if WString.empty imageB64 then []
                      else L "data:image/png;base64," ++ imageB64 in
  let promptText := flt_prompt f ++ NLNL ++ textInput in
  http_requests (snd (RunFilter_with plat tpl m f))
  = match CallTemplate_request (CryptStringToBinary plat) tpl m (systemPrompt_of f)
                               promptText imageB64 imageDataUrl with
    | Some req => [req]
    | None => []
    end
  /\ clipboard_writes (snd (RunFilter_with plat tpl m f))
     = writes_of (tpl_output tpl)
                 (fst (CallTemplate plat tpl m (systemPrompt_of f) promptText imageB64
                                    imageDataUrl)).
Proof.
  intros Hacq. cbv zeta. unfold RunFilter_with.
  destruct (tpl_input tpl).
  - destruct Hacq as (Ht & Hne & ->). rewrite Ht, Hne.
    match goal with
    | |- context [CallTemplate ?p ?t ?mm ?sp ?pr ?img ?url] =>
        destruct (CallTemplate_events p t mm sp pr img url) as (E1 & E2 & _);
        cbv zeta in E1, E2;
        destruct (CallTemplate p t mm sp pr img url) as [res ev']
    end.
    cbn [fst snd] in *. unfold writes_of.
    destruct (tpl_output tpl);
      [ destruct (WString.empty (res_text res));
        [ | destruct (SetClipboardText plat (res_text res)) as [what|] ]
      | destruct (res_image res) as [image|];
        [ destruct (SetClipboardBitmap plat image) as [what|] | ] ];
      cbn [fst snd]; rewrite !http_requests_app, !clipboard_writes_app, E1, E2;
      cbn [app]; rewrite app_nil_r; split; reflexivity.
  - destruct Hacq as (-> & bmp & Hb & He). rewrite Hb, He.
    match goal with
    | |- context [CallTemplate ?p ?t ?mm ?sp ?pr ?img ?url] =>
        destruct (CallTemplate_events p t mm sp pr img url) as (E1 & E2 & _);
        cbv zeta in E1, E2;
        destruct (CallTemplate p t mm sp pr img url) as [res ev']
    end.
    cbn [fst snd] in *. unfold writes_of.
    destruct (tpl_output tpl);
      [ destruct (WString.empty (res_text res));
        [ | destruct (SetClipboardText plat (res_text res)) as [what|] ]
      | destruct (res_image res) as [image|];
        [ destruct (SetClipboardBitmap plat image) as [what|] | ] ];
      cbn [fst snd]; rewrite !http_requests_app, !clipboard_writes_app, E1, E2;
      cbn [app]; rewrite app_nil_r; split; reflexivity.
Qed.

(** C4.  With a non-empty model list a run takes the model at [modelIndex]
    when that is in range and the first model otherwise, so that it never
    fails on the index; the provider is the one with the model's provider
    id, or the first of the catalog when there is none; the template is the
    first of that provider for the input and output of the filter, or else
    the first one found across the catalog in order; the run stops with the
    failure for a missing template exactly when no template of the catalog
    matches.  Index 7 on a list of two models gives the first model.  The
    run works with what it has selected: with the input in hand, the request
    it sends is the one built from the selected template and model, and what
    it writes to the clipboard is the result of the call of that template
    with that model. *)
Theorem RunFilter_resolution (plat : Platform) (g_models : list ModelConfig)
    (g_providers : list ApiProvider) (f : FilterDefinition) :
  g_models <> [] ->
  exists m,
    modelRef g_models f = Some m
    /\ (flt_modelIndex f < length g_models ->
        nth_error g_models (flt_modelIndex f) = Some m)
    /\ (length g_models <= flt_modelIndex f -> nth_error g_models 0 = Some m)
    /\ (forall p, resolve_provider g_providers m = Some p ->
                  In p g_providers /\
                  (prov_id p = providerId m \/
                   ((forall q, In q g_providers -> prov_id q <> providerId m)
                    /\ hd_error g_providers = Some p)))
    /\ (g_providers <> [] -> resolve_provider g_providers m <> None)
    /\ (forall p t, resolve_provider g_providers m = Some p ->
                    FindTemplateByIO p (flt_input f) (flt_output f) = Some t ->
                    resolve_template g_providers m f = Some t)
    /\ (forall p, resolve_provider g_providers m = Some p ->
                  FindTemplateByIO p (flt_input f) (flt_output f) = None ->
                  resolve_template g_providers m f
                  = FindTemplateAny g_providers (flt_input f) (flt_output f))
    /\ (forall pre p post t,
           g_providers = pre ++ p :: post ->
           (forall q, In q pre ->
                      FindTemplateByIO q (flt_input f) (flt_output f) = None) ->
           FindTemplateByIO p (flt_input f) (flt_output f) = Some t ->
           FindTemplateAny g_providers (flt_input f) (flt_output f) = Some t)
    /\ (forall t, resolve_template g_providers m f = Some t ->
                  tpl_input t = flt_input f /\ tpl_output t = flt_output f)
    /\ (resolve_template g_providers m f = None <-> no_template_matches g_providers f)
    /\ (RunFilter plat g_models g_providers f = Some (no_matching_template f)
        <-> no_template_matches g_providers f)
    /\ (exists r, RunFilter plat g_models g_providers f = Some r)
    /\ (forall m0 m1, modelRef [m0; m1] (filter_with_index 7) = Some m0)
    /\ (forall t,
           resolve_template g_providers m f = Some t ->
           exists ret ev,
             RunFilter plat g_models g_providers f = Some (ret, ev)
             /\ forall textInput imageB64,
                  acquires plat (flt_input f) textInput imageB64 ->
                  let imageDataUrl := if WString.empty imageB64 then []
                                      else L "data:image/png;base64," ++ imageB64 in
                  let promptText := flt_prompt f ++ NLNL ++ textInput in
                  http_requests ev
                  = match CallTemplate_request (CryptStringToBinary plat) t m
                                               (systemPrompt_of f) promptText imageB64
                                               imageDataUrl with
                    | Some req => [req]
                    | None => []
                    end
                  /\ clipboard_writes ev
                     = writes_of (flt_output f)
                                 (fst (CallTemplate plat t m (systemPrompt_of f) promptText
                                                    imageB64 imageDataUrl))).
Proof.
  intros Hne. destruct (modelRef_total g_models f Hne) as [m [Hm [Hin Hout]]].
  exists m.
  split; [exact Hm|]. split; [exact Hin|]. split; [exact Hout|].
  split; [intros p; apply resolve_provider_spec|].
  split.
  { intros Hp. unfold resolve_provider.
    destruct (FindProviderById g_providers (providerId m)); [discriminate|].
    destruct g_providers; [congruence|discriminate]. }
  split.
  { intros p t Hp Ht. unfold resolve_template. now rewrite Hp, Ht. }
  split.
  { intros p Hp Ht. unfold resolve_template. now rewrite Hp, Ht. }
  split.
  { intros pre p post t -> Hpre Hp. now apply FindTemplateAny_first. }
  split.
  { intros t. unfold resolve_template.
    assert (Any : FindTemplateAny g_providers (flt_input f) (flt_output f) = Some t ->
                  tpl_input t = flt_input f /\ tpl_output t = flt_output f).
    { clear. induction g_providers as [|q rest IH]; simpl; [discriminate|].
      destruct (FindTemplateByIO q (flt_input f) (flt_output f)) as [t'|] eqn:F;
        [|exact IH].
      intros [= <-]. now apply FindTemplateByIO_Some in F. }
    destruct (resolve_provider g_providers m) as [p|]; [|exact Any].
    destruct (FindTemplateByIO p (flt_input f) (flt_output f)) as [t'|] eqn:F;
      [|exact Any].
    intros [= <-]. now apply FindTemplateByIO_Some in F. }
  split; [apply resolve_template_None|].
  split; [now apply RunFilter_no_template|].
  split.
  { unfold RunFilter. rewrite Hm.
    destruct (resolve_template g_providers m f) as [tpl|]; [|eexists; reflexivity].
    destruct (RunFilter_with plat tpl m f). eexists; reflexivity. }
  split; [reflexivity|].
  intros t Ht. unfold RunFilter. rewrite Hm, Ht.
  destruct (RunFilter_with plat t m f) as [ret ev] eqn:Run.
  exists ret, (EvLog (LogRunFilter f) :: ev). split; [reflexivity|].
  intros textInput imageB64 Hacq.
  destruct (resolve_template_io _ _ _ _ Ht) as [Hi Ho].
  rewrite <- Hi in Hacq. rewrite <- Ho.
  destruct (RunFilter_with_acquired plat t m f textInput imageB64 Hacq) as [R W].
  cbv zeta in R, W. rewrite Run in R, W. cbn [snd] in R, W.
  cbv zeta. split; [exact R|exact W].
Qed.

Lemma RunFilter_resolution_witness :
  (exists r, RunFilter offline_platform [demo_model []; demo_model (L "k")]
                       [demo_provider] (filter_with_index 7) = Some r)
  /\ modelRef [demo_model []; demo_model (L "k")] (filter_with_index 7)
     = Some (demo_model [])
  /\ (exists ret ev req,
         RunFilter offline_platform [demo_model (L "k0"); demo_model (L "k1")]
                   [keyed_provider] (filter_with_index 7) = Some (ret, ev)
         /\ http_requests ev = [req]
         /\ req_headers req = L "Authorization: Bearer k0" ++ [13; 10]%N)
  /\ (exists ret ev req,
         RunFilter offline_platform [demo_model (L "k0"); demo_model (L "k1")]
                   [keyed_provider] (filter_with_index 1) = Some (ret, ev)
         /\ http_requests ev = [req]
         /\ req_headers req = L "Authorization: Bearer k1" ++ [13; 10]%N).
Proof.
  destruct (RunFilter_resolution offline_platform [demo_model []; demo_model (L "k")]
              [demo_provider] (filter_with_index 7))
    as (m & Hm & _ & H0 & _ & _ & _ & _ & _ & _ & _ & _ & Hr & _);
    [discriminate|].
  split; [exact Hr|].
  split; [rewrite Hm; symmetry; apply H0; simpl; lia|].
  split.
  - destruct (RunFilter_resolution offline_platform
                [demo_model (L "k0"); demo_model (L "k1")] [keyed_provider]
                (filter_with_index 7))
      as (m7 & Hm7 & _ & _ & _ & _ & _ & _ & _ & _ & _ & _ & _ & _ & Hrun);
      [discriminate|].
    injection Hm7 as <-.
    destruct (Hrun keyed_template eq_refl) as (ret & ev & Hev & Heff).
    destruct (Heff (L "hello") []) as [Hreq _];
      [split; [reflexivity|split; reflexivity]|].
    exists ret, ev. eexists. split; [exact Hev|]. split; [exact Hreq|].
    reflexivity.
  - destruct (RunFilter_resolution offline_platform
                [demo_model (L "k0"); demo_model (L "k1")] [keyed_provider]
                (filter_with_index 1))
      as (m1 & Hm1 & _ & _ & _ & _ & _ & _ & _ & _ & _ & _ & _ & _ & Hrun);
      [discriminate|].
    injection Hm1 as <-.
    destruct (Hrun keyed_template eq_refl) as (ret & ev & Hev & Heff).
    destruct (Heff (L "hello") []) as [Hreq _];
      [split; [reflexivity|split; reflexivity]|].
    exists ret, ev. eexists. split; [exact Hev|]. split; [exact Hreq|].
    reflexivity.
Defined.

(** ** The encoding of the request *)

Lemma spelled_as_found (text needle : wstring) :
  spelled_as text needle = true ->
  ContainsNoCase text needle = true ->
  exists q, WString.find text needle 0 = Some q.
Proof.
  intros Hs C. unfold ContainsNoCase in C.
  destruct (WString.find (toLow text) (toLow needle) 0) as [p|] eqn:F; [|discriminate].
  rewrite find_0 in F. destruct (find_at_Some _ _ _ F) as [E Hlen].
  unfold spelled_as in Hs. rewrite forallb_forall in Hs.
  assert (Hp : In p (seq 0 (S (length text)))).
  { apply in_seq. unfold toLow in Hlen. rewrite !length_map in Hlen. lia. }
  specialize (Hs p Hp). unfold toLow in Hs, E. rewrite <- skipn_map, E in Hs.
  cbn [implb] in Hs. apply starts_with_split in Hs.
  destruct (find_occurrence (firstn p text) needle (skipn (length needle) (skipn p text)))
    as (q & Hq & _).
  rewrite <- Hs, firstn_skipn in Hq. now exists q.
Qed.

(** C1, the claim as the code has it by design.  When the header block
    contains [multipart/form-data] in any letter case, the body is a
    multipart body with the fixed boundary [----cbfilterboundary]: a [model]
    part, a [prompt] part, an [image/png] part when the image text decodes
    to at least one byte, each introduced by the boundary line, and the
    closing boundary line.  Where the header block spells the text in lower
    case wherever it has it, [; boundary=----cbfilterboundary] is put behind
    every occurrence, from left to right, and there is one.  When the header
    block does not contain the text in any letter case, the header block is
    unchanged and the body is the rendered payload in UTF-8.  What becomes
    of a header block that spells the text in another letter case is not
    part of the statement. *)
Theorem CallTemplate_request_encoding (dec : wstring -> option bstring)
    (tpl : TemplateDefinition) (m : ModelConfig)
    (systemPrompt prompt imageB64 imageDataUrl : wstring) (req : HttpRequest) :
  CallTemplate_request dec tpl m systemPrompt prompt imageB64 imageDataUrl = Some req ->
  let headers := BuildHeaderString tpl m systemPrompt prompt imageB64 imageDataUrl in
  let rewritten := L "multipart/form-data; boundary=----cbfilterboundary" in
  (ContainsNoCase headers (L "multipart/form-data") = true ->
   req_body req =
     text_part (B "----cbfilterboundary") (B "model") (ToUtf8 (modelName m))
       ++ text_part (B "----cbfilterboundary") (B "prompt") (ToUtf8 prompt)
       ++ image_part (B "----cbfilterboundary")
                     (multipart_image imageB64 (dec imageB64))
       ++ B "------cbfilterboundary--" ++ CRLF
   /\ (spelled_as headers (L "multipart/form-data") = true ->
       req_headers req = ReplaceAll headers (L "multipart/form-data") rewritten
       /\ exists q, WString.find headers (L "multipart/form-data") 0 = Some q
                    /\ req_headers req =
                       firstn q headers ++ rewritten
                         ++ ReplaceAll (skipn (q + 19) headers) (L "multipart/form-data")
                                       rewritten))
  /\ (ContainsNoCase headers (L "multipart/form-data") = false ->
      req_headers req = headers
      /\ req_body req = ToUtf8 (BuildBodyFromTemplate tpl m systemPrompt prompt imageB64
                                                     imageDataUrl)).
Proof.
  intros Hreq. cbv zeta. unfold CallTemplate_request in Hreq.
  destruct (negb (ep_valid _)); [discriminate|].
  fold MULTIPART in *.
  set (headers := BuildHeaderString tpl m systemPrompt prompt imageB64 imageDataUrl) in *.
  destruct (ContainsNoCase headers MULTIPART) eqn:C; injection Hreq as <-;
    cbn [req_body req_headers].
  - assert (Eb : ToUtf8 boundary = B "----cbfilterboundary")
      by (vm_compute; reflexivity).
    assert (Ec : forall t, B "--" ++ B "----cbfilterboundary" ++ B "--" ++ t
                           = B "------cbfilterboundary--" ++ t)
      by (intros t; vm_compute; reflexivity).
    assert (Er : L "multipart/form-data; boundary=" ++ boundary
                 = L "multipart/form-data; boundary=----cbfilterboundary")
      by (vm_compute; reflexivity).
    split; [intros _|discriminate].
    split; [now rewrite BuildMultipartBody_parts, Eb, Ec|].
    intros Hs.
    match goal with
    | |- ReplaceAll _ _ ?r = _ /\ _ =>
        change r with (L "multipart/form-data; boundary=" ++ boundary)
    end.
    rewrite Er. split; [reflexivity|].
    destruct (spelled_as_found _ _ Hs C) as [q Hq]. exists q. split; [exact Hq|].
    rewrite ReplaceAll_unfold at 1 by discriminate. rewrite Hq. reflexivity.
  - split; [discriminate|]. intros _. split; reflexivity.
Qed.

(** C1, the claim as the specification has it, fails on two counts that
    are the design of the code.  An image text that is present and does not
    decode gives a body without an image part; and the boundary is not
    random: two different requests carry the same token. *)
Lemma multipart_boundary_counterexample :
  (exists req,
      CallTemplate_request decode_demo (upload_template (L "multipart/form-data"))
                           (demo_model (L "k")) [] (L "p") (L "!!") [] = Some req
      /\ req_body req =
           text_part (B "----cbfilterboundary") (B "model") (B "gpt")
             ++ text_part (B "----cbfilterboundary") (B "prompt") (B "p")
             ++ B "------cbfilterboundary--" ++ CRLF)
  /\ (exists req1 req2,
         CallTemplate_request decode_demo (upload_template (L "multipart/form-data"))
                              (demo_model (L "k1")) [] (L "p1") (L "QUJD") [] = Some req1
         /\ CallTemplate_request decode_demo (upload_template (L "multipart/form-data"))
                                 (demo_model (L "k2")) [] (L "p2") [] [] = Some req2
         /\ req_headers req1
            = L "Content-Type: multipart/form-data; boundary=----cbfilterboundary"
                ++ [13; 10]%N
         /\ req_headers req2 = req_headers req1).
Proof.
  split.
  - eexists. split; vm_compute; reflexivity.
  - eexists. eexists. split; [vm_compute; reflexivity|].
    split; [vm_compute; reflexivity|]. split; vm_compute; reflexivity.
Qed.

(** A defect of [CallTemplate], left out of the statement above: the header
    block is searched without regard to letter case and rewritten with
    regard to it.  With the header value [Multipart/Form-Data] the multipart
    body is built and the header goes out as it is, without a boundary. *)
Lemma multipart_header_case_defect :
  let tpl := upload_template (L "Multipart/Form-Data") in
  let headers := BuildHeaderString tpl (demo_model (L "k")) [] (L "p") (L "QUJD") [] in
  ContainsNoCase headers (L "multipart/form-data") = true
  /\ spelled_as headers (L "multipart/form-data") = false
  /\ (exists req,
         CallTemplate_request decode_demo tpl (demo_model (L "k")) [] (L "p") (L "QUJD") []
         = Some req
         /\ req_headers req = headers
         /\ Contains (req_headers req) (L "boundary=") = false
         /\ WString.starts_with (L "------cbfilterboundary")
                                (map (fun b => N_of_ascii (ascii_of_byte b))
                                     (req_body req)) = true).
Proof.
  cbv zeta. split; [vm_compute; reflexivity|]. split; [vm_compute; reflexivity|].
  eexists. split; [vm_compute; reflexivity|].
  split; [vm_compute; reflexivity|]. split; vm_compute; reflexivity.
Qed.

Lemma CallTemplate_request_encoding_witness :
  (exists req,
      CallTemplate_request decode_demo (upload_template (L "multipart/form-data"))
                           (demo_model (L "k1")) [] (L "p1") (L "QUJD") [] = Some req
      /\ req_body req =
           text_part (B "----cbfilterboundary") (B "model") (B "gpt")
             ++ text_part (B "----cbfilterboundary") (B "prompt") (B "p1")
             ++ image_part (B "----cbfilterboundary") (B "ABC")
             ++ B "------cbfilterboundary--" ++ CRLF
      /\ req_headers req
         = L "Content-Type: multipart/form-data; boundary=----cbfilterboundary"
             ++ [13; 10]%N)
  /\ (exists req,
         CallTemplate_request decode_demo demo_template (demo_model (L "k1")) []
                              (L "p1") [] [] = Some req
         /\ req_headers req = L "Content-Type: application/json" ++ [13; 10]%N
         /\ req_body req = B "p1").
Proof.
  split.
  - eexists. split; [vm_compute; reflexivity|].
    pose proof (CallTemplate_request_encoding decode_demo
                  (upload_template (L "multipart/form-data")) (demo_model (L "k1")) []
                  (L "p1") (L "QUJD") [] _ eq_refl) as A.
    cbv zeta in A. destruct A as [A _].
    destruct A as (A1 & A2); [reflexivity|].
    split; [exact A1|].
    destruct A2 as (A3 & _); [vm_compute; reflexivity|].
    refine (eq_trans A3 _). vm_compute. reflexivity.
  - eexists. split; [vm_compute; reflexivity|].
    pose proof (CallTemplate_request_encoding decode_demo demo_template
                  (demo_model (L "k1")) [] (L "p1") [] [] _ eq_refl) as A.
    cbv zeta in A. destruct A as [_ A].
    destruct A as (A1 & A2); [reflexivity|].
    split; [exact A1|exact A2].
Defined.
